(** * Excel AI Assistant: batch engine, transformation client, tabular store

    A shallow embedding of

    - [app/services/api_manager.py] and [app/services/ollama_api_manager.py]
      (the rate-limited transformation client over two backends),
    - [app/services/data_manager.py] (range read and range write of the
      in-memory table),
    - [app/ui/components/batch_processor.py] (the batch engine),

    followed by the properties of the design document that concern them.

    Conventions.  A Python [int] is a [Z] (counters that only count up from
    zero are [nat]); a Python [float] holding a wall-clock time or a
    temperature is a rational [Q]; [str] is [string]; an insertion-ordered
    [dict] that is iterated is an association list; the cell store of the
    data frame is a finite map from (row, column label) to values.
    Library calls that leave the process (clock, HTTP, OpenAI SDK, file
    system) are read from an explicit record of inputs per call, so every
    function below is a total, executable function of its arguments. *)

From Stdlib Require Import ZArith QArith Lqa Lia List String Ascii Bool.
From Stdlib Require Import DecimalString.
From stdpp Require Import base option list strings gmap.

Open Scope Z_scope.

(** ** The fragment of the Python runtime the code relies on *)

Module Py.

(** Values that can sit in a table cell or in a context mapping.  Floats
    and dates are left out; [PDict] is a mapping from strings to strings,
    the shape [get_range] builds for the column headers. *)
Inductive pyval : Type :=
| PNone
| PBool (b : bool)
| PInt (z : Z)
| PStr (s : string)
| PDict (d : list (string * string)).

(** An insertion-ordered [dict] with string keys. *)
Definition dict : Type := list (string * pyval).

(** [d[k] = v]: an existing key keeps its position and takes the new
    value, a new key goes to the end. *)
Fixpoint dict_set {V : Type} (k : string) (v : V) (d : list (string * V))
  : list (string * V) :=
  match d with
  | [] => [(k, v)]
  | (k', v') :: d' =>
      if String.eqb k' k then (k', v) :: d' else (k', v') :: dict_set k v d'
  end.

(** [d.get(k)], with [None] for a missing key. *)
Fixpoint dict_get {V : Type} (k : string) (d : list (string * V)) : option V :=
  match d with
  | [] => None
  | (k', v') :: d' => if String.eqb k' k then Some v' else dict_get k d'
  end.

(** [x in xs] for a list of strings. *)
Definition in_list (x : string) (xs : list string) : bool :=
  existsb (String.eqb x) xs.

(** The classes derived from [Exception] that occur.  [RateLimitError]
    is a subclass of [APIError] (OpenAI SDK); [OtherException] stands for
    any further subclass. *)
Inductive exception : Type :=
| RateLimitError (msg : string)
| APIError (msg : string)
| PermissionError (msg : string)
| ValueError (msg : string)
| OtherException (msg : string).

(** [str(e)] *)
Definition str_exc (e : exception) : string :=
  match e with
  | RateLimitError m | APIError m | PermissionError m
  | ValueError m | OtherException m => m
  end.

(** What a [raise] can carry: [asyncio.CancelledError], which derives from
    [BaseException] and is therefore not caught by [except Exception], or
    an instance of [Exception]. *)
Inductive base_exception : Type :=
| CancelledError
| Exc (e : exception).

(** The result of a call that may raise. *)
Inductive outcome (A : Type) : Type :=
| Returns (a : A)
| Raises (e : base_exception).
Arguments Returns {A} a.
Arguments Raises {A} e.

(** The result of a library call whose failures are instances of
    [Exception] (network, SDK, file system). *)
Inductive fallible (A : Type) : Type :=
| Ok (a : A)
| Fault (e : exception).
Arguments Ok {A} a.
Arguments Fault {A} e.

(** [str(n)] / [f"{n}"] for a non-negative [int]. *)
Definition str_nat (n : nat) : string :=
  NilEmpty.string_of_uint (Nat.to_uint n).

(** [str(z)] for an [int]. *)
Definition str_int (z : Z) : string :=
  NilZero.string_of_int (Z.to_int z).

(** The line feed of an f-string. *)
Definition nl : string := String "010"%char EmptyString.

(** [range(start, stop, step)] as the list it iterates over. *)
Definition range (start stop step : Z) : fallible (list Z) :=
  if step =? 0 then Fault (ValueError "range() arg 3 must not be zero")
  else
    let count :=
      if 0 <? step
      then (if start <? stop then (stop - start + step - 1) / step else 0)
      else (if stop <? start then (start - stop - step - 1) / (- step) else 0) in
    Ok (List.map (fun k => start + Z.of_nat k * step)
                      (seq 0 (Z.to_nat count))).

(** [range(start, stop)] *)
Definition range2 (start stop : Z) : list Z :=
  List.map (fun k => start + Z.of_nat k) (seq 0 (Z.to_nat (stop - start))).

(** [xs[i:j]] for arbitrary (also negative or too large) bounds. *)
Definition slice {A : Type} (xs : list A) (i j : Z) : list A :=
  let n := Z.of_nat (length xs) in
  let clamp k := if k <? 0 then Z.max 0 (k + n) else Z.min k n in
  let lo := clamp i in
  let hi := clamp j in
  firstn (Z.to_nat (hi - lo)) (skipn (Z.to_nat lo) xs).

(** [c.isspace()] for a character of a [str], on the code points below
    256 that a [string] holds: tab, line feed, vertical tab, form feed,
    carriage return, the four separators 0x1c-0x1f, space, next line
    (0x85) and no-break space (0xa0). *)
Definition isspace (c : ascii) : bool :=
  let n := nat_of_ascii c in
  ((9 <=? n)%nat && (n <=? 13)%nat) || ((28 <=? n)%nat && (n <=? 32)%nat)
  || (n =? 133)%nat || (n =? 160)%nat.

Fixpoint lstrip (s : string) : string :=
  match s with
  | EmptyString => EmptyString
  | String c s' => if isspace c then lstrip s' else s
  end.

Fixpoint rstrip (s : string) : string :=
  match s with
  | EmptyString => EmptyString
  | String c s' =>
      match rstrip s' with
      | EmptyString => if isspace c then EmptyString else String c EmptyString
      | r => String c r
      end
  end.

(** [s.strip()] *)
Definition strip (s : string) : string := rstrip (lstrip s).

(** A string with no white space at either end. *)
Definition trimmed (s : string) : Prop := lstrip s = s /\ rstrip s = s.

(** [c in s] for a one-character [c]. *)
Fixpoint contains_char (c : ascii) (s : string) : bool :=
  match s with
  | EmptyString => false
  | String c' s' => Ascii.eqb c' c || contains_char c s'
  end.

(** [a in b] for strings. *)
Definition substring_of (a b : string) : Prop :=
  exists pre post, b = pre +:+ a +:+ post.

End Py.

Import Py.

(** ** The transformation client *)

(** The arguments of one [process_single_cell] call. *)
Record cell_request : Type := {
  cell_content : string;
  system_prompt : string;
  user_prompt : string;
  temperature : Q;
  max_tokens : Z;
  context_data : option dict
}.

(** What [process_single_cell] returns: [(success, result, error_message)]. *)
Definition cell_reply : Type := (bool * option string * option string)%type.

(** One line of the streamed HTTP body of the local server, as
    [_generate_streaming] sees it: an empty keep-alive line, a line that is
    not JSON, a JSON object with its optional ["response"] text and its
    ["done"] flag, or a line at which the loop raises: the connection
    failing while the body is read, or a line whose JSON value is not an
    object or whose ["response"] is not a text ([TypeError] or
    [AttributeError], which the loop does not catch). *)
Inductive stream_line : Type :=
| EmptyLine
| BadJson
| Chunk (response : option string) (done : bool)
| ReadFault (e : exception).

Record http_response : Type := {
  status_code : Z;
  text : string;
  lines : list stream_line
}.

(** Everything one call reads from outside the process: the value of
    [time.time()] inside [_check_rate_limit] and inside
    [_increment_request_count], whether the [OpenAI(...)] constructor
    raises, what [chat.completions.create] answers (the [content] of each
    choice, [None] when a choice carries no text) and what
    [requests.post] answers. *)
Record io : Type := {
  time_check : Q;
  time_incr : Q;
  new_client : fallible unit;
  chat_create : fallible (list (option string));
  http_post : fallible http_response
}.

(** The requests that leave the process. *)
Inductive backend_call : Type :=
| ChatCompletion (model system user : string) (temp : Q) (max_tok : Z)
| Generate (url model prompt system : string) (temp : Q) (num_predict : Z).

(** The rolling-window counter both manager classes carry as the fields
    [request_count], [request_start_time] and [max_requests_per_minute]. *)
Record limiter : Type := {
  request_count : Z;
  request_start_time : Q;
  max_requests_per_minute : Z
}.

Module RateLimit.

(** [_increment_request_count], the same text in both classes. *)
Definition _increment_request_count (current_time : Q) (l : limiter) : limiter :=
  let l :=
    if Qlt_le_dec 60 (current_time - request_start_time l)
    then {| request_count := 0;
            request_start_time := current_time;
            max_requests_per_minute := max_requests_per_minute l |}
    else l in
  {| request_count := request_count l + 1;
     request_start_time := request_start_time l;
     max_requests_per_minute := max_requests_per_minute l |}.

(** [_check_rate_limit], the same text in both classes. *)
Definition _check_rate_limit (current_time : Q) (l : limiter) : bool * limiter :=
  if Qlt_le_dec 60 (current_time - request_start_time l)
  then (true, {| request_count := 0;
                 request_start_time := current_time;
                 max_requests_per_minute := max_requests_per_minute l |})
  else (request_count l <? max_requests_per_minute l, l).

End RateLimit.

Section Prompt.

(** Python's built-in [str()] on cell and context values ([f"{value}"]). *)
Variable py_str : pyval -> string.

(** The [context_text] accumulated by the loop over
    [context_data.items()]. *)
Fixpoint context_lines (items : dict) : string :=
  match items with
  | [] => EmptyString
  | (key, value) :: rest =>
      ("- " +:+ key +:+ ": " +:+ py_str value +:+ nl) +:+ context_lines rest
  end.

(** The local [formatted_prompt] that both backends compose, by the same
    statements, before they dispatch. *)
Definition formatted_prompt (rq : cell_request) : string :=
  let formatted_prompt :=
    user_prompt rq +:+ nl +:+ nl +:+ "Cell content: " +:+ cell_content rq in
  match context_data rq with
  | Some (item :: items) =>
      let context_text :=
        (nl +:+ nl +:+ "Context information:" +:+ nl)
          +:+ context_lines (item :: items) in
      formatted_prompt +:+ context_text
  | _ => formatted_prompt
  end.

End Prompt.

(** What a call hands back besides its value: the requests it sent. *)
Definition sent : Type := list backend_call.

Definition rate_limit_message : string :=
  "Rate limit exceeded. Please try again later.".

(** *** [OllamaAPIManager] (local-server backend) *)

Module OllamaAPIManager.

Record t : Type := {
  base_url : string;
  model : string;
  limits : limiter
}.

Definition with_limits (self : t) (l : limiter) : t :=
  {| base_url := base_url self; model := model self; limits := l |}.

Definition _increment_request_count (current_time : Q) (self : t) : t :=
  with_limits self (RateLimit._increment_request_count current_time (limits self)).

Definition _check_rate_limit (current_time : Q) (self : t) : bool * t :=
  let '(under, l) := RateLimit._check_rate_limit current_time (limits self) in
  (under, with_limits self l).

(** The loop over [response.iter_lines()] of [_generate_streaming]: the
    chunks the generator yields, in order, or the exception that ends it. *)
Fixpoint stream_chunks (ls : list stream_line) : fallible (list string) :=
  match ls with
  | [] => Ok []
  | EmptyLine :: rest => stream_chunks rest
  | BadJson :: rest => stream_chunks rest
  | ReadFault e :: _ => Fault e
  | Chunk response done :: rest =>
      let yielded := match response with Some r => [r] | None => [] end in
      if done then Ok yielded
      else match stream_chunks rest with
           | Ok more => Ok (yielded ++ more)
           | Fault e => Fault e
           end
  end.

Definition _generate_streaming (w : io) (self : t)
    (prompt system : string) (temp : Q) (max_tok : Z)
  : fallible (list string) * sent :=
  let request :=
    Generate (base_url self +:+ "/api/generate") (model self)
             prompt system temp max_tok in
  match http_post w with
  | Fault e => (Fault e, [request])
  | Ok response =>
      if negb (status_code response =? 200)
      then (Fault (OtherException
                     ("API Error: " +:+ str_int (status_code response)
                        +:+ " - " +:+ text response)),
            [request])
      else (stream_chunks (lines response), [request])
  end.

Section WithStr.
Variable py_str : pyval -> string.

Definition process_single_cell (w : io) (self : t) (rq : cell_request)
  : outcome cell_reply * sent * t :=
  let '(under, self) := _check_rate_limit (time_check w) self in
  if negb under
  then (Returns (false, None, Some rate_limit_message), [], self)
  else
    let formatted_prompt := formatted_prompt py_str rq in
    (* try: *)
    let '(chunks, calls) :=
      _generate_streaming w self formatted_prompt (system_prompt rq)
                          (temperature rq) (max_tokens rq) in
    match chunks with
    | Ok chunks =>
        let result := fold_left String.append chunks EmptyString in
        let self := _increment_request_count (time_incr w) self in
        (Returns (true, Some (strip result), None), calls, self)
    (* except Exception as e: *)
    | Fault e =>
        (Returns (false, None, Some ("Error: " +:+ str_exc e)), calls, self)
    end.
End WithStr.

End OllamaAPIManager.

(** *** [APIManager] (hosted backend, and dispatch to the local one) *)

Module APIManager.

Inductive APIType : Type := OPENAI | OLLAMA.

Record t : Type := {
  api_key : string;
  model : string;
  api_type : APIType;
  client : option unit;
  ollama_manager : OllamaAPIManager.t;
  limits : limiter
}.

Definition with_limits (self : t) (l : limiter) : t :=
  {| api_key := api_key self; model := model self;
     api_type := api_type self; client := client self;
     ollama_manager := ollama_manager self; limits := l |}.

Definition with_client (self : t) (key : string) (c : option unit) : t :=
  {| api_key := key; model := model self;
     api_type := api_type self; client := c;
     ollama_manager := ollama_manager self; limits := limits self |}.

Definition with_ollama (self : t) (o : OllamaAPIManager.t) : t :=
  {| api_key := api_key self; model := model self;
     api_type := api_type self; client := client self;
     ollama_manager := o; limits := limits self |}.

Definition _increment_request_count (current_time : Q) (self : t) : t :=
  with_limits self (RateLimit._increment_request_count current_time (limits self)).

Definition _check_rate_limit (current_time : Q) (self : t) : bool * t :=
  let '(under, l) := RateLimit._check_rate_limit current_time (limits self) in
  (under, with_limits self l).

(** Truth value of a [str]. *)
Definition nonempty (s : string) : bool :=
  match s with EmptyString => false | _ => true end.

Definition initialize (w : io) (self : t) (key : option string) : bool * t :=
  match api_type self with
  | OPENAI =>
      let self :=
        match key with
        | Some k => if nonempty k then with_client self k (client self) else self
        | None => self
        end in
      if negb (nonempty (api_key self)) then (false, self)
      else match new_client w with
           | Ok c => (true, with_client self (api_key self) (Some c))
           | Fault _ => (false, self)
           end
  | OLLAMA => (true, self)
  end.

Section WithStr.
Variable py_str : pyval -> string.

Definition _process_openai (w : io) (self : t) (rq : cell_request)
  : outcome cell_reply * sent * t :=
  let '(ready, self) :=
    match client self with
    | None => initialize w self None
    | Some _ => (true, self)
    end in
  if negb ready
  then (Returns (false, None, Some "API client not initialized"), [], self)
  else
  let '(under, self) := _check_rate_limit (time_check w) self in
  if negb under
  then (Returns (false, None, Some rate_limit_message), [], self)
  else
    let formatted_prompt := formatted_prompt py_str rq in
    (* try: *)
    let '(body, calls, self) :=
      match client self with
      | None =>
          (Raises (Exc (OtherException
                          "'NoneType' object has no attribute 'chat'")),
           [], self)
      | Some _ =>
          let request :=
            ChatCompletion (model self) (system_prompt rq) formatted_prompt
                           (temperature rq) (max_tokens rq) in
          match chat_create w with
          | Fault e => (Raises (Exc e), [request], self)
          | Ok choices =>
              let self := _increment_request_count (time_incr w) self in
              match choices with
              | [] =>
                  (Raises (Exc (OtherException "list index out of range")),
                   [request], self)
              | None :: _ =>
                  (Raises (Exc (OtherException
                            "'NoneType' object has no attribute 'strip'")),
                   [request], self)
              | Some content :: _ =>
                  (Returns (true, Some (strip content), None),
                   [request], self)
              end
          end
      end in
    match body with
    | Returns r => (Returns r, calls, self)
    (* except RateLimitError as e: *)
    | Raises (Exc (RateLimitError m)) =>
        (Returns (false, None, Some ("Rate limit exceeded: " +:+ m)),
         calls, self)
    (* except APIError as e: *)
    | Raises (Exc (APIError m)) =>
        (Returns (false, None, Some ("API Error: " +:+ m)), calls, self)
    (* except Exception as e: *)
    | Raises (Exc e) =>
        (Returns (false, None, Some ("Error: " +:+ str_exc e)), calls, self)
    | Raises CancelledError => (Raises CancelledError, calls, self)
    end.

Definition process_single_cell (w : io) (self : t) (rq : cell_request)
  : outcome cell_reply * sent * t :=
  match api_type self with
  | OPENAI => _process_openai w self rq
  | OLLAMA =>
      let '(r, calls, o) :=
        OllamaAPIManager.process_single_cell py_str w (ollama_manager self) rq in
      (r, calls, with_ollama self o)
  end.

(** A sequence of calls on one client, each with its own inputs. *)
Fixpoint process_cells (self : t) (calls : list (io * cell_request))
  : list (outcome cell_reply * sent) * t :=
  match calls with
  | [] => ([], self)
  | (w, rq) :: rest =>
      let '(r, s, self) := process_single_cell w self rq in
      let '(rs, self) := process_cells self rest in
      ((r, s) :: rs, self)
  end.
End WithStr.

End APIManager.

(** ** The records that travel between the components *)

(** A Cell Task: the dictionary [get_range] builds and the engine reads,
    with the keys ['row'], ['col'], ['content'] and, optionally,
    ['context_data']. *)
Module Cell.
Record t : Type := {
  row : Z;
  col : string;
  content : pyval;
  context_data : option dict
}.
End Cell.

(** A Cell Result: the dictionary the engine builds for every processed
    cell. *)
Module CellResult.
Record t : Type := {
  row : Z;
  col : string;
  success : bool;
  result : option string;
  error : option string
}.
End CellResult.

(** One entry of the list given to [update_range].  The method reads the
    keys ['row'], ['col'] and ['result'] with [dict.get], so a key may be
    absent, or present with [None], or present with a value. *)
Module Update.
Inductive field (A : Type) : Type :=
| Absent
| IsNone
| Value (a : A).
Arguments Absent {A}.
Arguments IsNone {A}.
Arguments Value {A} a.

(** [update.get(key)] *)
Definition get {A : Type} (f : field A) : option A :=
  match f with Value a => Some a | _ => None end.

Record t : Type := {
  row : field Z;
  col : field string;
  result : field pyval
}.
End Update.

(** ** The tabular store *)

Module DataManager.

(** The loaded table: its column labels, its number of rows (the index is
    the default 0..n-1) and its cells; a cell that was never written reads
    as [None].  Two facts about the frame that pandas decides:
    [accepts row col value] says that the assignment
    [df.loc[row, col] = value] does not raise (pandas refuses a value that
    the column's dtype cannot hold; an assignment does not change the
    dtype); [label_fault] is [None] when every column label is a string,
    and otherwise the text of the [AttributeError] that [df.columns.str]
    raises (a label that is not a string is named by no string, and
    [columns] lists the others). *)
Record DataFrame : Type := {
  columns : list string;
  nrows : nat;
  values : gmap (nat * string) pyval;
  accepts : Z -> string -> pyval -> bool;
  label_fault : option string
}.

(** [len(df)] *)
Definition len (df : DataFrame) : Z := Z.of_nat (nrows df).

(** [df.loc[row, col]] *)
Definition loc (df : DataFrame) (row : Z) (col : string) : pyval :=
  default PNone (values df !! (Z.to_nat row, col)).

(** [df.loc[row, col] = value], when it does not raise *)
Definition set_loc (df : DataFrame) (row : Z) (col : string) (value : pyval)
  : DataFrame :=
  {| columns := columns df; nrows := nrows df;
     values := <[(Z.to_nat row, col) := value]> (values df);
     accepts := accepts df; label_fault := label_fault df |}.

Record t : Type := {
  df : option DataFrame;
  file_path : option string;
  file_type : option string;
  modified : bool
}.

(** What [save_file] needs from [os.path] and from the writers of the data
    frame: the lower-cased extension of a path, its base name, and whether
    writing the file raises. *)
Record disk : Type := {
  splitext_lower : string -> string;
  basename : string -> string;
  to_excel : DataFrame -> string -> fallible unit;
  to_csv : DataFrame -> string -> fallible unit
}.

Definition save_file (d : disk) (self : t) (path : option string)
  : (bool * string) * t :=
  match df self with
  | None => ((false, "No data to save"), self)
  | Some frame =>
      let target :=
        match path with
        | Some p => Some p
        | None => file_path self
        end in
      match target with
      | None => ((false, "No file path specified"), self)
      | Some p =>
          (* try: *)
          let file_ext := splitext_lower d p in
          let written : fallible string :=
            if String.eqb file_ext ".xlsx" || String.eqb file_ext ".xls"
            then match to_excel d frame p with
                 | Ok _ => Ok p | Fault e => Fault e end
            else if String.eqb file_ext ".csv"
            then match to_csv d frame p with
                 | Ok _ => Ok p | Fault e => Fault e end
            else if negb (contains_char "." (basename d p))
            then match to_excel d frame (p +:+ ".xlsx") with
                 | Ok _ => Ok (p +:+ ".xlsx") | Fault e => Fault e end
            else Ok p in
          match written with
          | Ok p =>
              ((true, ""),
               {| df := df self; file_path := Some p;
                  file_type := file_type self; modified := false |})
          | Fault (PermissionError _) =>
              ((false,
                "Permission denied. The file may be in use by another program."),
               self)
          | Fault e =>
              ((false, "Failed to save file: " +:+ str_exc e), self)
          end
      end
  end.

Definition get_cell_value (self : t) (row : Z) (col : string) : pyval :=
  match df self with
  | None => PNone
  | Some frame =>
      if (row <? 0) || (row >=? len frame) || negb (in_list col (columns frame))
      then PNone
      else loc frame row col
  end.

Definition update_cell (self : t) (row : Z) (col : string) (value : pyval)
  : bool * t :=
  match df self with
  | None => (false, self)
  | Some frame =>
      if (row <? 0) || (row >=? len frame) || negb (in_list col (columns frame))
      then (false, self)
      else
        (* try: *)
        if accepts frame row col value
        then (true,
              {| df := Some (set_loc frame row col value);
                 file_path := file_path self;
                 file_type := file_type self;
                 modified := true |})
        (* except Exception as e: *)
        else (false, self)
  end.

(** The body of the [for update in updates] loop of [update_range], on the
    loop state [(self, success_count, error_count)]. *)
Definition update_step (st : t * nat * nat) (update : Update.t) : t * nat * nat :=
  let '(self, success_count, error_count) := st in
  match Update.get (Update.row update),
        Update.get (Update.col update),
        Update.get (Update.result update) with
  | Some row, Some col, Some value =>
      match value with
      | PNone => (self, success_count, S error_count)
      | _ =>
          let '(ok, self') := update_cell self row col value in
          if ok then (self', S success_count, error_count)
          else (self', success_count, S error_count)
      end
  | _, _, _ => (self, success_count, S error_count)
  end.

(** Truth value of [self.file_path]. *)
Definition has_path (self : t) : bool :=
  match file_path self with
  | Some (String _ _) => true
  | _ => false
  end.

Definition update_range (d : disk) (self : t) (updates : list Update.t)
    (auto_save : bool) : (nat * nat) * t :=
  match df self with
  | None => ((0%nat, length updates), self)
  | Some _ =>
      let '(self, success_count, error_count) :=
        fold_left update_step updates (self, 0%nat, 0%nat) in
      let self :=
        if (0 <? success_count)%nat
        then
          let self := {| df := df self; file_path := file_path self;
                         file_type := file_type self; modified := true |} in
          if auto_save && has_path self && (0 <? success_count)%nat
          then snd (save_file d self None)
          else self
        else self in
      ((success_count, error_count), self)
  end.

(** The [context_data] dictionary [get_range] builds for one row. *)
Definition build_context (frame : DataFrame) (row : Z)
    (valid_columns valid_context_columns : list string) : dict :=
  let context_data :=
    fold_left (fun ctx ctx_col => dict_set ctx_col (loc frame row ctx_col) ctx)
              valid_context_columns [] in
  let headers :=
    fold_left (fun h c => dict_set c c h)
              (valid_columns ++ valid_context_columns) [] in
  dict_set "headers" (PDict headers) context_data.

Definition get_range (self : t) (start_row end_row : Z)
    (columns_ : list string) (context_columns : option (list string))
  : list Cell.t :=
  match df self with
  | None => []
  | Some frame =>
      let start_row := if start_row <? 0 then 0 else start_row in
      let end_row := if end_row >? len frame then len frame else end_row in
      let valid_columns := List.filter (fun c => in_list c (columns frame)) columns_ in
      match valid_columns with
      | [] => []
      | _ =>
          let valid_context_columns :=
            match context_columns with
            | Some cols =>
                List.filter (fun c => in_list c (columns frame)
                                 && negb (in_list c valid_columns)) cols
            | None => []
            end in
          flat_map
            (fun row =>
               List.map
                 (fun c =>
                    {| Cell.row := row;
                       Cell.col := c;
                       Cell.content := loc frame row c;
                       Cell.context_data :=
                         match valid_context_columns with
                         | [] => None
                         | _ => Some (build_context frame row valid_columns
                                                    valid_context_columns)
                         end |})
                 valid_columns)
            (range2 start_row end_row)
      end
  end.

End DataManager.

(** ** The batch engine *)

Module BatchProcessor.

(** What the engine hands to [root.after(0, ...)]: a wrapped call of the
    progress callback or of the completion callback, with its arguments.
    The Tk main loop runs each scheduled call once, later, on its own
    thread. *)
Inductive ui_call : Type :=
| Progress (processed success_count error_count total : nat) (status : string)
| Completion (results : list CellResult.t) (success_count error_count : nat).

Section Engine.

(** Python's built-in [str()], applied to [cell['content']]. *)
Variable py_str : pyval -> string.

(** [self.api_manager]: its state and its [process_single_cell], which
    returns a reply or raises an instance of [Exception]. *)
Variable Client : Type.
Variable process_single_cell :
  Client -> cell_request -> fallible cell_reply * Client.

(** The other threads.  [process_batches] clears
    [self.processing_cancelled] and hands the coroutine to the event loop;
    [cancel_processing], called from the main thread at any time, raises the
    flag and cancels the task.  The coroutine observes them at numbered points:
    [flag n] is the value of [self.processing_cancelled] when it is read
    at point [n]; [cancel_at n] says that the task has been cancelled
    when the coroutine is suspended in the [await] at point [n], which
    then raises [CancelledError]. *)
Variable flag : nat -> bool.
Variable cancel_at : nat -> bool.

(** The state of one run: the client, the number of observation points
    passed, the calls scheduled on the main loop, and the local
    variables of [_process_batches_async] that its [except] clauses
    read. *)
Record state : Type := {
  api_manager : Client;
  ticks : nat;
  ui_queue : list ui_call;
  processed : nat;
  success_count : nat;
  error_count : nat;
  all_results : list CellResult.t
}.

Definition M (A : Type) : Type := state -> outcome A * state.

Definition ret {A : Type} (a : A) : M A := fun s => (Returns a, s).

Definition raise {A : Type} (e : base_exception) : M A :=
  fun s => (Raises e, s).

Definition bind {A B : Type} (m : M A) (k : A -> M B) : M B :=
  fun s =>
    match m s with
    | (Returns a, s') => k a s'
    | (Raises e, s') => (Raises e, s')
    end.

Notation "'do' x <- m ; k" := (bind m (fun x => k))
  (at level 10, x name, m at level 100, k at level 200).
Notation "m ;; k" := (bind m (fun _ => k))
  (at level 100, right associativity).

Definition get : M state := fun s => (Returns s, s).

Definition tick : M nat :=
  fun s =>
    (Returns (ticks s),
     {| api_manager := api_manager s; ticks := S (ticks s);
        ui_queue := ui_queue s; processed := processed s;
        success_count := success_count s; error_count := error_count s;
        all_results := all_results s |}).

(** Reading [self.processing_cancelled]. *)
Definition processing_cancelled : M bool :=
  do n <- tick; ret (flag n).

(** An [await] on which the coroutine is suspended. *)
Definition suspend : M unit :=
  do n <- tick; if cancel_at n then raise CancelledError else ret tt.

(** [self.root.after(0, safe_callback)]; scheduling on the main loop is
    taken to succeed. *)
Definition root_after (c : ui_call) : M unit :=
  fun s =>
    (Returns tt,
     {| api_manager := api_manager s; ticks := ticks s;
        ui_queue := ui_queue s ++ [c]; processed := processed s;
        success_count := success_count s; error_count := error_count s;
        all_results := all_results s |}).

(** The counters after one more cell. *)
Definition count_cell (success : bool) : M unit :=
  fun s =>
    (Returns tt,
     {| api_manager := api_manager s; ticks := ticks s;
        ui_queue := ui_queue s; processed := S (processed s);
        success_count :=
          if success then S (success_count s) else success_count s;
        error_count :=
          if success then error_count s else S (error_count s);
        all_results := all_results s |}).

(** [all_results.extend(batch_results)] *)
Definition extend_results (batch_results : list CellResult.t) : M unit :=
  fun s =>
    (Returns tt,
     {| api_manager := api_manager s; ticks := ticks s;
        ui_queue := ui_queue s; processed := processed s;
        success_count := success_count s; error_count := error_count s;
        all_results := all_results s ++ batch_results |}).

(** The call of the client inside [loop.run_in_executor]. *)
Definition call_client (rq : cell_request) : M (fallible cell_reply) :=
  fun s =>
    let '(r, c) := process_single_cell (api_manager s) rq in
    (Returns r,
     {| api_manager := c; ticks := ticks s;
        ui_queue := ui_queue s; processed := processed s;
        success_count := success_count s; error_count := error_count s;
        all_results := all_results s |}).

(** [callback] is [true] when a callable was passed and [false] for
    [None]: the methods test [if callback:]. *)
Definition _update_progress (callback : bool)
    (processed success_count error_count total : nat) (status : string)
  : M unit :=
  if callback
  then root_after (Progress processed success_count error_count total status)
  else ret tt.

Definition _update_batch_progress (callback : bool)
    (processed success_count error_count total : nat)
    (batch_current batch_total batch_idx total_batches : nat) : M unit :=
  if callback
  then
    let status :=
      "Processing batch " +:+ str_nat (batch_idx + 1) +:+ " of "
        +:+ str_nat total_batches +:+ ": " +:+ str_nat batch_current
        +:+ "/" +:+ str_nat batch_total +:+ " cells" in
    root_after (Progress processed success_count error_count total status)
  else ret tt.

Definition _call_completion (callback : bool)
    (results : list CellResult.t) (success_count error_count : nat)
  : M unit :=
  if callback
  then root_after (Completion results success_count error_count)
  else ret tt.

Definition _process_single_cell_async (cell : Cell.t)
    (system_prompt user_prompt : string) (temperature : Q) (max_tokens : Z)
  : M cell_reply :=
  (* try: *)
  let cell_content := py_str (Cell.content cell) in
  let context_data := Cell.context_data cell in
  do r <- call_client
            {| cell_content := cell_content;
               system_prompt := system_prompt;
               user_prompt := user_prompt;
               temperature := temperature;
               max_tokens := max_tokens;
               context_data := context_data |};
  suspend ;;
  match r with
  | Ok result => ret result
  (* except Exception as e: *)
  | Fault e => ret (false, None, Some (str_exc e))
  end.

Section Run.

Variable cells : list Cell.t.
Variables system_prompt user_prompt : string.
Variable batch_size : Z.
Variable temperature : Q.
Variable max_tokens : Z.
Variables progress_callback completion_callback : bool.

(** [for cell_idx, cell in enumerate(batch)], with the local
    [batch_results] as accumulator; [break] returns it. *)
Fixpoint for_cells (rest : list Cell.t) (cell_idx : nat)
    (batch_len batch_idx n_batches : nat)
    (batch_results : list CellResult.t) : M (list CellResult.t) :=
  match rest with
  | [] => ret batch_results
  | cell :: rest =>
      do cancelled <- processing_cancelled;
      if cancelled then ret batch_results
      else
        do reply <- _process_single_cell_async
                      cell system_prompt user_prompt temperature max_tokens;
        let '(success, result, error) := reply in
        let cell_result :=
          {| CellResult.row := Cell.row cell;
             CellResult.col := Cell.col cell;
             CellResult.success := success;
             CellResult.result := result;
             CellResult.error := error |} in
        let batch_results := batch_results ++ [cell_result] in
        count_cell success ;;
        do s <- get;
        _update_batch_progress progress_callback
          (processed s) (success_count s) (error_count s) (length cells)
          (cell_idx + 1) batch_len batch_idx n_batches ;;
        (* await asyncio.sleep(0.2) *)
        suspend ;;
        for_cells rest (S cell_idx) batch_len batch_idx n_batches
                  batch_results
  end.

(** [for batch_idx, batch in enumerate(batches)] *)
Fixpoint for_batches (rest : list (list Cell.t)) (batch_idx : nat)
    (n_batches : nat) : M unit :=
  match rest with
  | [] => ret tt
  | batch :: rest =>
      do cancelled <- processing_cancelled;
      if cancelled then ret tt
      else
        do s <- get;
        _update_progress progress_callback
          (processed s) (success_count s) (error_count s) (length cells)
          ("Processing batch " +:+ str_nat (batch_idx + 1) +:+ " of "
             +:+ str_nat n_batches +:+ "...") ;;
        do batch_results <-
          for_cells batch 0 (length batch) batch_idx n_batches [];
        extend_results batch_results ;;
        do s <- get;
        _update_progress progress_callback
          (processed s) (success_count s) (error_count s) (length cells)
          ("Completed batch " +:+ str_nat (batch_idx + 1) +:+ " of "
             +:+ str_nat n_batches) ;;
        (* await asyncio.sleep(0.5) *)
        suspend ;;
        for_batches rest (S batch_idx) n_batches
  end.

(** [[cells[i:i + batch_size] for i in range(0, len(cells), batch_size)]] *)
Definition split_batches : M (list (list Cell.t)) :=
  match range 0 (Z.of_nat (length cells)) batch_size with
  | Fault e => raise (Exc e)
  | Ok starts =>
      ret (List.map (fun i => slice cells i (i + batch_size)) starts)
  end.

(** The end of the [try] block: the final update and the call of the
    completion callback. *)
Definition final_update : M unit :=
  do cancelled <- processing_cancelled;
  let status :=
    if negb cancelled then "Processing completed"
    else "Processing cancelled" in
  do s <- get;
  _update_progress progress_callback
    (processed s) (success_count s) (error_count s) (length cells)
    status ;;
  _call_completion completion_callback
    (all_results s) (success_count s) (error_count s).

(** The [try] block. *)
Definition try_block : M unit :=
  do batches <- split_batches;
  for_batches batches 0 (length batches) ;;
  final_update.

(** The two [except] clauses. *)
Definition except_clauses (e : base_exception) : M unit :=
  match e with
  | CancelledError =>
      do s <- get;
      _update_progress progress_callback
        (processed s) (success_count s) (error_count s) (length cells)
        "Processing cancelled" ;;
      _call_completion completion_callback
        (all_results s) (success_count s) (error_count s)
  | Exc e =>
      let status := "Error: " +:+ str_exc e in
      do s <- get;
      _update_progress progress_callback
        (processed s) (success_count s) (error_count s) (length cells)
        status ;;
      _call_completion completion_callback
        (all_results s) (success_count s) (error_count s)
  end.

(** The coroutine, started on a client [c] at observation point
    [now] with [queue] already scheduled on the main loop. *)
Definition _process_batches_async (c : Client) (now : nat)
    (queue : list ui_call) : outcome unit * state :=
  let s0 :=
    {| api_manager := c; ticks := now; ui_queue := queue;
       processed := 0; success_count := 0; error_count := 0;
       all_results := [] |} in
  match try_block s0 with
  | (Returns u, s) => (Returns u, s)
  | (Raises e, s) => except_clauses e s
  end.

End Run.

End Engine.

Arguments api_manager {Client} _.
Arguments ticks {Client} _.
Arguments ui_queue {Client} _.
Arguments processed {Client} _.
Arguments success_count {Client} _.
Arguments error_count {Client} _.
Arguments all_results {Client} _.

(** The completion calls in a queue, in order. *)
Definition completions (q : list ui_call)
  : list (list CellResult.t * nat * nat) :=
  flat_map (fun c => match c with
                     | Completion r s e => [(r, s, e)]
                     | Progress _ _ _ _ _ => []
                     end) q.

(** The progress calls in a queue, in order. *)
Definition progress_updates (q : list ui_call)
  : list (nat * nat * nat * nat * string) :=
  flat_map (fun c => match c with
                     | Progress p s e t txt => [(p, s, e, t, txt)]
                     | Completion _ _ _ => []
                     end) q.

End BatchProcessor.

(** * Further functions of the same files *)


(** ** Configuration and discovery of the transformation client *)

(** What [GET /api/tags] answers: status, body text, and the body read as
    JSON, that is the ['name'] of every entry of [data.get('models', [])]
    ([None] for an entry without that key), or the failure of
    [response.json()]. *)
Record tags_response : Type := {
  tags_status : Z;
  tags_text : string;
  tags_models : fallible (list (option string))
}.

(** A failure of [requests.post]: the class the connection test singles out,
    or any other exception. *)
Inductive post_fault : Type :=
| ConnectionError (msg : string)
| OtherPostFault (e : exception).

(** What the setup calls read from outside the process. *)
Record setup_io : Type := {
  get_tags : fallible tags_response;
  post_hello : post_fault + http_response
}.

(** One entry of the model catalogue. *)
Record model_entry : Type := {
  entry_id : string;
  entry_name : string;
  entry_api : string
}.

Module OllamaSetup.

Definition set_base_url (self : OllamaAPIManager.t) (base_url : string)
  : OllamaAPIManager.t :=
  {| OllamaAPIManager.base_url := base_url;
     OllamaAPIManager.model := OllamaAPIManager.model self;
     OllamaAPIManager.limits := OllamaAPIManager.limits self |}.

Definition set_model (self : OllamaAPIManager.t) (model : string)
  : OllamaAPIManager.t :=
  {| OllamaAPIManager.base_url := OllamaAPIManager.base_url self;
     OllamaAPIManager.model := model;
     OllamaAPIManager.limits := OllamaAPIManager.limits self |}.

(** [[model['name'] for model in ...]]: the names, or [KeyError('name')] at
    the first entry without one. *)
Fixpoint names_of (entries : list (option string)) : fallible (list string) :=
  match entries with
  | [] => Ok []
  | None :: _ => Fault (OtherException "'name'")
  | Some name :: rest =>
      match names_of rest with
      | Ok names => Ok (name :: names)
      | Fault e => Fault e
      end
  end.

Definition list_available_models (w : setup_io) (self : OllamaAPIManager.t)
  : bool * option (list string) * option string :=
  (* try: *)
  match get_tags w with
  | Fault e => (false, None, Some ("Connection error: " +:+ str_exc e))
  | Ok response =>
      if tags_status response =? 200
      then match tags_models response with
           | Fault e => (false, None, Some ("Connection error: " +:+ str_exc e))
           | Ok entries =>
               match names_of entries with
               | Ok models => (true, Some models, None)
               | Fault e =>
                   (false, None, Some ("Connection error: " +:+ str_exc e))
               end
           end
      else (false, None,
            Some ("Error " +:+ str_int (tags_status response) +:+ ": "
                    +:+ tags_text response))
  end.

(** [f"{error}"] for an optional message. *)
Definition str_optional (s : option string) : string :=
  match s with Some s => s | None => "None" end.

Definition test_connection (w : setup_io) (self : OllamaAPIManager.t)
  : bool * string :=
  (* try: *)
  let '(success, models, error) := list_available_models w self in
  if negb success
  then (false, "Failed to connect to Ollama: " +:+ str_optional error)
  else
    match post_hello w with
    | inr response =>
        if status_code response =? 200
        then (true, "Connection successful")
        else (false, "Error " +:+ str_int (status_code response) +:+ ": "
                       +:+ text response)
    (* except requests.exceptions.ConnectionError: *)
    | inl (ConnectionError _) =>
        (false,
         "Could not connect to Ollama. Is it running at the specified URL?")
    (* except Exception as e: *)
    | inl (OtherPostFault e) => (false, "Error: " +:+ str_exc e)
    end.

End OllamaSetup.

Module APISetup.

(** [APIType(api_type)]: the member with that value, or [ValueError]. *)
Definition APIType_of (api_type : string) : fallible APIManager.APIType :=
  if String.eqb api_type "openai" then Ok APIManager.OPENAI
  else if String.eqb api_type "ollama" then Ok APIManager.OLLAMA
  else Fault (ValueError ("'" +:+ api_type +:+ "' is not a valid APIType")).

(** [APIType.value] *)
Definition value (ty : APIManager.APIType) : string :=
  match ty with
  | APIManager.OPENAI => "openai"
  | APIManager.OLLAMA => "ollama"
  end.

Definition set_api_type (self : APIManager.t) (api_type : string)
  : fallible APIManager.t :=
  match APIType_of api_type with
  | Fault e => Fault e
  | Ok ty =>
      Ok {| APIManager.api_key := APIManager.api_key self;
            APIManager.model := APIManager.model self;
            APIManager.api_type := ty;
            APIManager.client := APIManager.client self;
            APIManager.ollama_manager := APIManager.ollama_manager self;
            APIManager.limits := APIManager.limits self |}
  end.

Definition set_model (self : APIManager.t) (model : string) : APIManager.t :=
  {| APIManager.api_key := APIManager.api_key self;
     APIManager.model := model;
     APIManager.api_type := APIManager.api_type self;
     APIManager.client := APIManager.client self;
     APIManager.ollama_manager :=
       match APIManager.api_type self with
       | APIManager.OLLAMA =>
           OllamaSetup.set_model (APIManager.ollama_manager self) model
       | APIManager.OPENAI => APIManager.ollama_manager self
       end;
     APIManager.limits := APIManager.limits self |}.

(** The field [self.ollama_url] only mirrors the manager's [base_url]; the
    record keeps the latter. *)
Definition set_ollama_url (self : APIManager.t) (url : string) : APIManager.t :=
  APIManager.with_ollama self
    (OllamaSetup.set_base_url (APIManager.ollama_manager self) url).

Definition openai_entry (id name : string) : model_entry :=
  {| entry_id := id; entry_name := name; entry_api := "openai" |}.

Definition get_available_models (w : setup_io) (self : APIManager.t)
  : list model_entry :=
  match APIManager.api_type self with
  | APIManager.OPENAI =>
      [openai_entry "gpt-3.5-turbo" "GPT-3.5 Turbo";
       openai_entry "gpt-4" "GPT-4";
       openai_entry "gpt-4-turbo" "GPT-4 Turbo";
       openai_entry "gpt-4o" "GPT-4o";
       openai_entry "gpt-4o-mini" "GPT-4o Mini";
       openai_entry "gpt-3.5-turbo-16k" "GPT-3.5 Turbo 16k"]
  | APIManager.OLLAMA =>
      let '(success, models, error) :=
        OllamaSetup.list_available_models w (APIManager.ollama_manager self) in
      match success, models with
      | true, Some (m :: ms) =>
          List.map (fun model => {| entry_id := model; entry_name := model;
                                    entry_api := "ollama" |}) (m :: ms)
      | _, _ => []
      end
  end.

(** [test_connection]: the reply, and the manager, which the hosted branch
    may have initialised. *)
Definition test_connection (w : io) (sw : setup_io) (self : APIManager.t)
  : (bool * string) * APIManager.t :=
  match APIManager.api_type self with
  | APIManager.OPENAI =>
      let '(ready, self) :=
        match APIManager.client self with
        | None => APIManager.initialize w self None
        | Some _ => (true, self)
        end in
      if negb ready then ((false, "API client not initialized"), self)
      else
        (* try: *)
        match chat_create w with
        | Ok (_ :: _) => ((true, "Connection successful"), self)
        | Ok [] => ((false, "Invalid response from API"), self)
        | Fault (RateLimitError m) =>
            ((false, "Rate limit exceeded: " +:+ m), self)
        | Fault (APIError m) => ((false, "API Error: " +:+ m), self)
        | Fault e => ((false, "Error: " +:+ str_exc e), self)
        end
  | APIManager.OLLAMA =>
      (OllamaSetup.test_connection sw (APIManager.ollama_manager self), self)
  end.

End APISetup.

(** ** Loading a file into the data manager *)

(** What the readers of pandas raise: the three classes [load_file] tells
    apart, or any other exception. *)
Inductive read_fault : Type :=
| UnicodeDecodeError (msg : string)
| EmptyDataError (msg : string)
| ParserError (msg : string)
| OtherReadFault (e : exception).

(** What [load_file] reads from the file system: [os.path.exists], and the
    readers [pd.read_excel(path)] and [pd.read_csv(path, encoding=...)]
    ([None] for the call without an encoding). *)
Record reader : Type := {
  path_exists : string -> bool;
  read_excel : string -> read_fault + DataManager.DataFrame;
  read_csv : string -> option string -> read_fault + DataManager.DataFrame
}.

Module DataLoading.

Import DataManager.

(** [df.columns = df.columns.str.strip()], when the accessor does not
    raise: every label is stripped, and the cells and the dtype follow
    their label.  (Distinct labels are taken to stay distinct.) *)
Definition strip_columns (frame : DataFrame) : DataFrame :=
  {| columns := strip <$> columns frame;
     nrows := nrows frame;
     values := kmap (M2 := gmap (nat * string)) (prod_map id strip)
                    (values frame);
     accepts :=
       fun row col value =>
         existsb (fun c => String.eqb (strip c) col && accepts frame row c value)
                 (columns frame);
     label_fault := None |}.

(** [df.replace({np.nan: None})]: a cell without a value already reads as
    [None]. *)
Definition replace_nan (frame : DataFrame) : DataFrame := frame.

Definition csv_encodings : list string :=
  ["utf-8"; "latin1"; "iso-8859-1"; "cp1252"].

(** The [for encoding in [...]] loop with its [else]: the outcome of the
    first reader call that does not raise [UnicodeDecodeError], or [None]
    when the loop runs to its end. *)
Fixpoint try_encodings (r : reader) (path : string) (encodings : list string)
  : option (read_fault + DataFrame) :=
  match encodings with
  | [] => None
  | encoding :: rest =>
      match read_csv r path (Some encoding) with
      | inl (UnicodeDecodeError _) => try_encodings r path rest
      | outcome => Some outcome
      end
  end.

(** The [except] clauses of [load_file]. *)
Definition load_failure (f : read_fault) : string :=
  match f with
  | EmptyDataError _ => "The file is empty"
  | ParserError _ => "Error parsing the file. It may be corrupted."
  | OtherReadFault (PermissionError _) =>
      "Permission denied. The file may be in use by another program."
  | OtherReadFault e => "Failed to load file: " +:+ str_exc e
  | UnicodeDecodeError msg => "Failed to load file: " +:+ msg
  end.

(** The statements after the readers, on a manager whose [df] has just been
    assigned. *)
Definition check_and_clean (self : t) (frame : DataFrame) (path : string)
  : (bool * string) * t :=
  if len frame =? 0
  then ((false, "File contains no data"), self)
  else
    match label_fault frame with
    (* [df.columns.str] raises; except Exception as e: *)
    | Some msg => ((false, "Failed to load file: " +:+ msg), self)
    | None =>
        let frame := strip_columns frame in
        let frame := replace_nan frame in
        ((true, ""),
         {| df := Some frame; file_path := Some path;
            file_type := file_type self; modified := false |})
    end.

Definition with_df (self : t) (frame : DataFrame) : t :=
  {| df := Some frame; file_path := file_path self;
     file_type := file_type self; modified := modified self |}.

Definition with_file_type (self : t) (type : string) : t :=
  {| df := df self; file_path := file_path self;
     file_type := Some type; modified := modified self |}.

Definition load_file (d : disk) (r : reader) (self : t) (path : string)
  : (bool * string) * t :=
  if negb (path_exists r path)
  then ((false, "File not found: " +:+ path), self)
  else
    (* try: *)
    let file_ext := splitext_lower d path in
    if String.eqb file_ext ".xlsx" || String.eqb file_ext ".xls"
       || String.eqb file_ext ".xlsm"
    then
      match read_excel r path with
      | inl f => ((false, load_failure f), self)
      | inr frame =>
          let self := with_df self frame in
          let self := with_file_type self "excel" in
          check_and_clean self frame path
      end
    else if String.eqb file_ext ".csv"
    then
      match read_csv r path None with
      | inr frame => check_and_clean (with_df self frame) frame path
      (* except UnicodeDecodeError: *)
      | inl (UnicodeDecodeError _) =>
          match try_encodings r path csv_encodings with
          | Some (inr frame) =>
              check_and_clean (with_df self frame) frame path
          | Some (inl f) => ((false, load_failure f), self)
          | None =>
              ((false, "Could not decode file with any common encoding"), self)
          end
      | inl f => ((false, load_failure f), self)
      end
    else ((false, "Unsupported file format: " +:+ file_ext), self).

End DataLoading.

(** ** The main window's use of the data manager and of the results *)

Module MainWindow.

(** [[r for r in results if r.get('success', False)]] *)
Definition successful_results (results : list CellResult.t)
  : list CellResult.t :=
  List.filter CellResult.success results.

(** A Cell Result read as an update: [update_range] receives the result
    dictionaries themselves, whose keys ['row'], ['col'] and ['result'] are
    present, the last with [None] for a cell without text. *)
Definition as_update (r : CellResult.t) : Update.t :=
  {| Update.row := Update.Value (CellResult.row r);
     Update.col := Update.Value (CellResult.col r);
     Update.result :=
       match CellResult.result r with
       | Some value => Update.Value (PStr value)
       | None => Update.IsNone
       end |}.

(** What [_processing_completed] asks of the window: whether the progress
    window still exists ([hasattr] and [winfo_exists]), and whether
    [data_treeview.update_batch] raises. *)
Record window : Type := {
  progress_window_exists : bool;
  update_batch : fallible unit
}.

(** [_refresh_data_view], as far as the data manager goes: the file is
    loaded again from the recorded path when it exists; the method catches
    every exception. *)
Definition _refresh_data_view (d : DataManager.disk) (r : reader)
    (data_manager : DataManager.t) : DataManager.t :=
  (* try: *)
  match DataManager.file_path data_manager with
  | Some current_path =>
      if DataManager.has_path data_manager && path_exists r current_path
      then (DataLoading.load_file d r data_manager current_path).2
      else data_manager
  | None => data_manager
  end.

(** [_processing_completed], as far as the data manager goes: what
    [update_range] returned ([None] when the method returns before it calls
    it) and the data manager afterwards.  [success_count] is the count the
    engine gave to the callback and [auto_save_enabled] the value of the
    setting [save_after_batch_var]; the calls that follow the reload (log,
    status bar, closing the window) do not touch the data manager. *)
Definition _processing_completed (d : DataManager.disk) (r : reader)
    (w : window) (data_manager : DataManager.t) (results : list CellResult.t)
    (success_count : nat) (auto_save_enabled : bool)
  : option (nat * nat) * DataManager.t :=
  (* try: *)
  if negb (progress_window_exists w) then (None, data_manager)
  else
    let successful_results := successful_results results in
    let '(counts, data_manager) :=
      DataManager.update_range d data_manager
        (List.map as_update successful_results) auto_save_enabled in
    match update_batch w with
    (* except Exception as e: *)
    | Fault _ => (Some counts, data_manager)
    | Ok _ =>
        let data_manager :=
          if auto_save_enabled && (0 <? success_count)%nat
             && DataManager.has_path data_manager
          then _refresh_data_view d r data_manager
          else data_manager in
        (Some counts, data_manager)
    end.

(** The local [cells_to_process] of [_run_transformation], for a selection
    [(start_row, end_row)], [columns] and the chosen context columns: the
    tasks the method reads from the table, or [None] where it returns
    before it has a task to process. *)
Definition cells_to_process (data_manager : DataManager.t)
    (start_row end_row : Z) (columns : list string)
    (context_columns : option (list string)) : option (list Cell.t) :=
  match DataManager.df data_manager with
  | None => None
  | Some frame =>
      match columns with
      | [] => None
      | _ =>
          if (start_row <? 0) || (start_row >=? DataManager.len frame)
          then None
          else
            let end_row :=
              if end_row >? DataManager.len frame then DataManager.len frame
              else end_row in
            match DataManager.get_range data_manager start_row end_row
                                        columns context_columns with
            | [] => None
            | cells => Some cells
            end
      end
  end.

End MainWindow.


(** ** Vocabulary of the properties *)

(** The two shapes a reply may have. *)
Definition reply_shape (r : cell_reply) : Prop :=
  (exists value, r = (true, Some value, None) /\ trimmed value)
  \/ (exists message, r = (false, None, Some message)).

(** One bullet line of the context section. *)
Definition bullet (py_str : pyval -> string) (item : string * pyval) : string :=
  "- " +:+ item.1 +:+ ": " +:+ py_str item.2 +:+ nl.

(** The concatenation of a list of strings. *)
Definition join (parts : list string) : string :=
  fold_right String.append EmptyString parts.

(** The prompt text a request carries to the model. *)
Definition prompt_of (c : backend_call) : string :=
  match c with
  | ChatCompletion _ _ user _ _ => user
  | Generate _ _ prompt _ _ _ => prompt
  end.

(** The limiter that guards the active backend of a client. *)
Definition active_limits (self : APIManager.t) : limiter :=
  match APIManager.api_type self with
  | APIManager.OPENAI => APIManager.limits self
  | APIManager.OLLAMA => OllamaAPIManager.limits (APIManager.ollama_manager self)
  end.

(** A clock reading that lies in the window of a limiter: no more than 60
    seconds after its start. *)
Definition in_window (l : limiter) (now : Q) : Prop :=
  (now - request_start_time l <= 60)%Q.

(** The backend of the given kind answers this call successfully: the
    hosted API returns a first choice with text; the local server answers
    200 and its stream can be read to the end. *)
Definition backend_succeeds (ty : APIManager.APIType) (w : io) : Prop :=
  match ty with
  | APIManager.OPENAI =>
      exists content choices, chat_create w = Ok (Some content :: choices)
  | APIManager.OLLAMA =>
      exists response chunks,
        http_post w = Ok response /\ status_code response = 200
        /\ OllamaAPIManager.stream_chunks (lines response) = Ok chunks
  end.

(** The hosted client has been initialised (the local one needs nothing). *)
Definition ready (self : APIManager.t) : Prop :=
  APIManager.api_type self = APIManager.OPENAI ->
  APIManager.client self = Some tt.

(** A call that returned success. *)
Definition succeeded (r : outcome cell_reply * sent) : Prop :=
  exists value, r.1 = Returns (true, Some value, None).

(** What the backend of the given kind gives a call that asks it: the text
    it generated (the content of the first choice of the hosted API; the
    chunks of the local server's stream, joined), or the fault met while
    asking or while reading the answer. *)
Definition backend_answer (ty : APIManager.APIType) (w : io) : fallible string :=
  match ty with
  | APIManager.OPENAI =>
      match chat_create w with
      | Ok (Some content :: _) => Ok content
      | Ok (None :: _) =>
          Fault (OtherException "'NoneType' object has no attribute 'strip'")
      | Ok [] => Fault (OtherException "list index out of range")
      | Fault e => Fault e
      end
  | APIManager.OLLAMA =>
      match http_post w with
      | Ok response =>
          if status_code response =? 200
          then match OllamaAPIManager.stream_chunks (lines response) with
               | Ok chunks => Ok (join chunks)
               | Fault e => Fault e
               end
          else Fault (OtherException
                        ("API Error: " +:+ str_int (status_code response)
                           +:+ " - " +:+ text response))
      | Fault e => Fault e
      end
  end.

(** The error message a backend fault is reported with. *)
Definition fault_message (ty : APIManager.APIType) (e : exception) : string :=
  match ty, e with
  | APIManager.OPENAI, RateLimitError m => "Rate limit exceeded: " +:+ m
  | APIManager.OPENAI, APIError m => "API Error: " +:+ m
  | _, _ => "Error: " +:+ str_exc e
  end.

(** A result that resolves to a cell of a table with [n] rows and the
    columns [cols] and carries a value: its row is in bounds, its column
    exists, its value is present. *)
Definition resolves (n : nat) (cols : list string) (u : Update.t) : bool :=
  match Update.get (Update.row u), Update.get (Update.col u),
        Update.get (Update.result u) with
  | Some row, Some col, Some value =>
      (0 <=? row) && (row <? Z.of_nat n) && in_list col cols
      && match value with PNone => false | _ => true end
  | _, _, _ => false
  end.

(** A result that [update_range] applies to a table with [n] rows, the
    columns [cols] and the acceptance [ok]: it resolves to a cell and
    carries a value, and the table accepts the value in that cell. *)
Definition applicable (n : nat) (cols : list string)
    (ok : Z -> string -> pyval -> bool) (u : Update.t) : bool :=
  resolves n cols u
  && match Update.get (Update.row u), Update.get (Update.col u),
           Update.get (Update.result u) with
     | Some row, Some col, Some value => ok row col value
     | _, _, _ => false
     end.

(** The write such a result asks for. *)
Definition write (frame : DataManager.DataFrame) (u : Update.t)
  : DataManager.DataFrame :=
  match Update.get (Update.row u), Update.get (Update.col u),
        Update.get (Update.result u) with
  | Some row, Some col, Some value => DataManager.set_loc frame row col value
  | _, _, _ => frame
  end.

(** The writes of the applicable results of a list, in order. *)
Definition apply_writes (frame : DataManager.DataFrame) (updates : list Update.t)
  : DataManager.DataFrame :=
  fold_left write
    (List.filter (applicable (DataManager.nrows frame) (DataManager.columns frame)
                             (DataManager.accepts frame))
                 updates)
    frame.

(** An update with the row, the column or the value absent or [None]. *)
Definition incomplete (u : Update.t) : Prop :=
  Update.get (Update.row u) = None
  \/ Update.get (Update.col u) = None
  \/ Update.get (Update.result u) = None
  \/ Update.get (Update.result u) = Some PNone.

(** The requested columns that exist in the table. *)
Definition present (frame : DataManager.DataFrame) (cols : list string)
  : list string :=
  List.filter (fun c => in_list c (DataManager.columns frame)) cols.

(** The valid context columns of a request: those that exist in the table
    and are not among the processed columns. *)
Definition valid_context (frame : DataManager.DataFrame) (cols : list string)
    (context_columns : option (list string)) : list string :=
  match context_columns with
  | Some cs =>
      List.filter (fun c => in_list c (DataManager.columns frame)
                            && negb (in_list c (present frame cols))) cs
  | None => []
  end.

(** The Cell Task for one row and one processed column. *)
Definition cell_at (frame : DataManager.DataFrame) (valid vctx : list string)
    (row : Z) (c : string) : Cell.t :=
  {| Cell.row := row;
     Cell.col := c;
     Cell.content := DataManager.loc frame row c;
     Cell.context_data :=
       match vctx with
       | [] => None
       | _ => Some (DataManager.build_context frame row valid vctx)
       end |}.

(** The (row, column) pair of a task and of a result. *)
Definition task_key (c : Cell.t) : Z * string := (Cell.row c, Cell.col c).

Definition result_key (r : CellResult.t) : Z * string :=
  (CellResult.row r, CellResult.col r).

(** ** Concrete inputs used by the examples below *)

Module Examples.

(** [str()] on the values of the model. *)
Definition str_simple (v : pyval) : string :=
  match v with
  | PNone => "None"
  | PBool true => "True"
  | PBool false => "False"
  | PInt z => str_int z
  | PStr s => s
  | PDict _ => "{...}"
  end.

(** A table with a column that is itself called "headers". *)
Definition headers_frame : DataManager.DataFrame :=
  {| DataManager.columns := ["Name"; "headers"];
     DataManager.nrows := 1;
     DataManager.values :=
       <[(0%nat, "headers") := PStr "h"]>
         (<[(0%nat, "Name") := PStr "John"]> ∅);
     DataManager.accepts := fun _ _ _ => true;
     DataManager.label_fault := None |}.

Definition headers_table : DataManager.t :=
  {| DataManager.df := Some headers_frame;
     DataManager.file_path := None;
     DataManager.file_type := None;
     DataManager.modified := false |}.

(** A client that always succeeds with "PROCESSED"; its state counts the
    calls. *)
Definition always_ok (calls : nat) (rq : cell_request)
  : fallible cell_reply * nat :=
  (Ok (true, Some "PROCESSED", None), S calls).

(** The task for the cell in row [r] of column "A". *)
Definition task (r : Z) : Cell.t :=
  {| Cell.row := r; Cell.col := "A"; Cell.content := PStr "x";
     Cell.context_data := None |}.

(** The processed task of row [r]. *)
Definition done (r : Z) : CellResult.t :=
  {| CellResult.row := r; CellResult.col := "A"; CellResult.success := true;
     CellResult.result := Some "PROCESSED"; CellResult.error := None |}.

(** Observations of the other threads: nothing ever happens, or something
    happens exactly at point [k]. *)
Definition never (n : nat) : bool := false.

Definition at_point (k n : nat) : bool := Nat.eqb n k.

(** A run of the engine on the counting client, from point 0 with an empty
    queue, with both callbacks given. *)
Definition run (flag cancel_at : nat -> bool) (cells : list Cell.t)
    (batch_size : Z)
  : outcome unit * BatchProcessor.state nat :=
  BatchProcessor._process_batches_async
    str_simple nat always_ok flag cancel_at cells "system" "user" batch_size
    (3 # 10)%Q 150 true true 0%nat 0%nat [].

(** A request with a context of two entries. *)
Definition request_with_context : cell_request :=
  {| cell_content := "John";
     system_prompt := "system";
     user_prompt := "Capitalise";
     temperature := (3 # 10)%Q;
     max_tokens := 150;
     context_data :=
       Some [("Age", PInt 30);
             ("headers", PDict [("Name", "Name"); ("Age", "Age")])] |}.

(** A hosted client, initialised, at the start of a window that began at
    time 0, with a ceiling of two requests per minute. *)
Definition hosted_client : APIManager.t :=
  {| APIManager.api_key := "test-key";
     APIManager.model := "gpt-3.5-turbo";
     APIManager.api_type := APIManager.OPENAI;
     APIManager.client := Some tt;
     APIManager.ollama_manager :=
       {| OllamaAPIManager.base_url := "http://localhost:11434";
          OllamaAPIManager.model := "llama3";
          OllamaAPIManager.limits :=
            {| request_count := 0; request_start_time := 0%Q;
               max_requests_per_minute := 30 |} |};
     APIManager.limits :=
       {| request_count := 0; request_start_time := 0%Q;
          max_requests_per_minute := 2 |} |}.

(** The world at a call whose clock reads [t]: the hosted API answers
    " DONE " and the local server is down. *)
Definition answering (t : Q) : io :=
  {| time_check := t;
     time_incr := t;
     new_client := Ok tt;
     chat_create := Ok [Some " DONE "];
     http_post := Fault (OtherException "connection refused") |}.

(** A file system on which nothing can be written. *)
Definition read_only_disk : DataManager.disk :=
  {| DataManager.splitext_lower := fun _ => ".csv";
     DataManager.basename := fun p => p;
     DataManager.to_excel :=
       fun _ _ => Fault (PermissionError "read-only file system");
     DataManager.to_csv :=
       fun _ _ => Fault (PermissionError "read-only file system") |}.

(** The table of names and ages, in columns that hold any value. *)
Definition people_frame : DataManager.DataFrame :=
  {| DataManager.columns := ["Name"; "Age"];
     DataManager.nrows := 2;
     DataManager.values :=
       <[(1%nat, "Age") := PInt 25]>
         (<[(1%nat, "Name") := PStr "Jane"]>
            (<[(0%nat, "Age") := PInt 30]>
               (<[(0%nat, "Name") := PStr "John"]> ∅)));
     DataManager.accepts := fun _ _ _ => true;
     DataManager.label_fault := None |}.

(** The same table with "Age" as a column of integers, which refuses a
    text. *)
Definition typed_people_frame : DataManager.DataFrame :=
  {| DataManager.columns := ["Name"; "Age"];
     DataManager.nrows := 2;
     DataManager.values := DataManager.values people_frame;
     DataManager.accepts :=
       fun _ col value =>
         negb (String.eqb col "Age"
               && match value with PStr _ => true | _ => false end);
     DataManager.label_fault := None |}.

Definition typed_people : DataManager.t :=
  {| DataManager.df := Some typed_people_frame;
     DataManager.file_path := None;
     DataManager.file_type := None;
     DataManager.modified := false |}.

Definition people : DataManager.t :=
  {| DataManager.df := Some people_frame;
     DataManager.file_path := None;
     DataManager.file_type := None;
     DataManager.modified := false |}.

(** A store without a table. *)
Definition unloaded : DataManager.t :=
  {| DataManager.df := None;
     DataManager.file_path := None;
     DataManager.file_type := None;
     DataManager.modified := false |}.

(** An update with all three fields. *)
Definition set_cell (row : Z) (col : string) (value : string) : Update.t :=
  {| Update.row := Update.Value row;
     Update.col := Update.Value col;
     Update.result := Update.Value (PStr value) |}.

(** The update of a failed cell: its result is [None]. *)
Definition failed_cell (row : Z) (col : string) : Update.t :=
  {| Update.row := Update.Value row;
     Update.col := Update.Value col;
     Update.result := Update.IsNone |}.

End Examples.

(** ** Vocabulary of the further properties *)

(** An update that names the cell [(row, col)]. *)
Definition targets (row : Z) (col : string) (u : Update.t) : Prop :=
  Update.get (Update.row u) = Some row /\ Update.get (Update.col u) = Some col.

(** The manager with the table [frame] and the unsaved-changes flag up. *)
Definition marked (self : DataManager.t) (frame : DataManager.DataFrame)
  : DataManager.t :=
  {| DataManager.df := Some frame;
     DataManager.file_path := DataManager.file_path self;
     DataManager.file_type := DataManager.file_type self;
     DataManager.modified := true |}.

(** The extensions [load_file] reads as a workbook. *)
Definition excel_extension (ext : string) : bool :=
  String.eqb ext ".xlsx" || String.eqb ext ".xls" || String.eqb ext ".xlsm".

(** A library call that did not raise. *)
Definition is_ok {A : Type} (r : fallible A) : bool :=
  match r with Ok _ => true | Fault _ => false end.

(** The backend of the given kind answered the request of this call: the
    hosted API returned a response object (with or without text in it);
    the local server answered 200 and its stream was read to the end. *)
Definition answered (ty : APIManager.APIType) (w : io) : bool :=
  match ty with
  | APIManager.OPENAI => is_ok (chat_create w)
  | APIManager.OLLAMA =>
      match http_post w with
      | Ok response =>
          (status_code response =? 200)
          && is_ok (OllamaAPIManager.stream_chunks (lines response))
      | Fault _ => false
      end
  end.

(** The call gets as far as the rate check: the local backend always does,
    the hosted one when its client exists or can be created now. *)
Definition initialises (w : io) (self : APIManager.t) : bool :=
  match APIManager.api_type self with
  | APIManager.OPENAI =>
      match APIManager.client self with
      | Some _ => true
      | None => APIManager.nonempty (APIManager.api_key self)
                && is_ok (new_client w)
      end
  | APIManager.OLLAMA => true
  end.

(** The limiter after a call that reached the rate check: the check, and
    one more request counted when it passed and the backend answered. *)
Definition limiter_after (w : io) (answer : bool) (l : limiter) : limiter :=
  let '(under, l') := RateLimit._check_rate_limit (time_check w) l in
  if under && answer
  then RateLimit._increment_request_count (time_incr w) l'
  else l'.

(** A counter between zero and its ceiling. *)
Definition within_ceiling (l : limiter) : Prop :=
  0 <= request_count l <= max_requests_per_minute l.

(** The model a request names. *)
Definition model_of (c : backend_call) : string :=
  match c with
  | ChatCompletion model _ _ _ _ => model
  | Generate _ model _ _ _ _ => model
  end.

(** Lines of the stream that carry nothing: keep-alives and lines that are
    not JSON. *)
Definition noise (l : stream_line) : bool :=
  match l with
  | EmptyLine | BadJson => true
  | _ => false
  end.

(** The engine as a plain loop over the tasks: one call of the client per
    task, in task order, the client's state threaded through the calls. *)
Section Reference.

Variable py_str : pyval -> string.
Variable Client : Type.
Variable client : Client -> cell_request -> fallible cell_reply * Client.
Variables system_prompt_ user_prompt_ : string.
Variable temperature_ : Q.
Variable max_tokens_ : Z.

(** The request the engine makes for a task. *)
Definition request_of (cell : Cell.t) : cell_request :=
  {| cell_content := py_str (Cell.content cell);
     system_prompt := system_prompt_;
     user_prompt := user_prompt_;
     temperature := temperature_;
     max_tokens := max_tokens_;
     context_data := Cell.context_data cell |}.

(** The reply the engine reads off a call: the client's reply, or a
    failure carrying the text of the exception. *)
Definition reply_of (r : fallible cell_reply) : cell_reply :=
  match r with
  | Ok reply => reply
  | Fault e => (false, None, Some (str_exc e))
  end.

(** The result recorded for a task and a reply. *)
Definition result_of (cell : Cell.t) (reply : cell_reply) : CellResult.t :=
  let '(success, result, error) := reply in
  {| CellResult.row := Cell.row cell;
     CellResult.col := Cell.col cell;
     CellResult.success := success;
     CellResult.result := result;
     CellResult.error := error |}.

Definition serve_cell (c : Client) (cell : Cell.t) : CellResult.t * Client :=
  let '(r, c') := client c (request_of cell) in
  (result_of cell (reply_of r), c').

Fixpoint serve (c : Client) (cells : list Cell.t)
  : list CellResult.t * Client :=
  match cells with
  | [] => ([], c)
  | cell :: rest =>
      let '(r, c') := serve_cell c cell in
      let '(rs, c'') := serve c' rest in
      (r :: rs, c'')
  end.

End Reference.

(** The number of successful and of failed results in a list. *)
Definition succeeded_count (rs : list CellResult.t) : nat :=
  length (List.filter CellResult.success rs).

Definition failed_count (rs : list CellResult.t) : nat :=
  length (List.filter (fun r => negb (CellResult.success r)) rs).

(** A scheduled call that is a progress update for [total] cells. *)
Definition progress_for (total : nat) (c : BatchProcessor.ui_call) : Prop :=
  match c with
  | BatchProcessor.Progress _ _ _ t _ => t = total
  | BatchProcessor.Completion _ _ _ => False
  end.

(** The transformation client as the engine calls it: call number [n] of a
    run reads the world [world n].  [process_single_cell] catches every
    exception, so the last two cases are never taken. *)
Definition api_client (py_str : pyval -> string) (world : nat -> io)
    (st : APIManager.t * nat) (rq : cell_request)
  : fallible cell_reply * (APIManager.t * nat) :=
  let '(self, n) := st in
  let '(r, _, self') := APIManager.process_single_cell py_str (world n) self rq in
  (match r with
   | Returns reply => Ok reply
   | Raises (Exc e) => Fault e
   | Raises CancelledError => Fault (OtherException "CancelledError")
   end,
   (self', S n)).

(** A result that can be written back: when it is a success it carries a
    text. *)
Definition writable (r : CellResult.t) : Prop :=
  CellResult.success r = true -> CellResult.result r <> None.

(** A result whose text the table accepts in the cell it names. *)
Definition accepted (frame : DataManager.DataFrame) (r : CellResult.t) : bool :=
  match CellResult.result r with
  | Some value =>
      DataManager.accepts frame (CellResult.row r) (CellResult.col r)
                          (PStr value)
  | None => false
  end.

(** ** Further concrete inputs *)

Module Scenarios.

(** A file system that knows only the extension [.xlsm] and on which
    nothing can be written. *)
Definition macro_disk : DataManager.disk :=
  {| DataManager.splitext_lower := fun _ => ".xlsm";
     DataManager.basename := fun p => p;
     DataManager.to_excel :=
       fun _ _ => Fault (PermissionError "read-only file system");
     DataManager.to_csv :=
       fun _ _ => Fault (PermissionError "read-only file system") |}.

(** A table with its header line only. *)
Definition empty_frame : DataManager.DataFrame :=
  {| DataManager.columns := ["Name"; "Age"];
     DataManager.nrows := 0;
     DataManager.values := ∅;
     DataManager.accepts := fun _ _ _ => true;
     DataManager.label_fault := None |}.

(** The table of names and ages, loaded from "people.csv" and edited. *)
Definition edited_people : DataManager.t :=
  {| DataManager.df := Some Examples.people_frame;
     DataManager.file_path := Some "people.csv";
     DataManager.file_type := Some "excel";
     DataManager.modified := true |}.

(** Readers: every file exists; one finds only a header line, one finds
    the table of names and ages, and one can decode the file only as
    latin1. *)
Definition header_only : reader :=
  {| path_exists := fun _ => true;
     read_excel := fun _ => inr empty_frame;
     read_csv := fun _ _ => inr empty_frame |}.

Definition readable : reader :=
  {| path_exists := fun _ => true;
     read_excel := fun _ => inr Examples.people_frame;
     read_csv := fun _ _ => inr Examples.people_frame |}.

Definition latin1_only : reader :=
  {| path_exists := fun _ => true;
     read_excel := fun _ => inl (ParserError "not a workbook");
     read_csv :=
       fun _ encoding =>
         match encoding with
         | Some "latin1" => inr Examples.people_frame
         | _ => inl (UnicodeDecodeError "invalid start byte")
         end |}.

(** The hosted client before its first use. *)
Definition cold_client : APIManager.t :=
  APIManager.with_client Examples.hosted_client "test-key" None.

(** A client set to the local backend. *)
Definition local_client : APIManager.t :=
  {| APIManager.api_key := "";
     APIManager.model := "llama3";
     APIManager.api_type := APIManager.OLLAMA;
     APIManager.client := None;
     APIManager.ollama_manager :=
       APIManager.ollama_manager Examples.hosted_client;
     APIManager.limits := APIManager.limits Examples.hosted_client |}.

(** A local server that lists two models and answers the test request. *)
Definition two_models : setup_io :=
  {| get_tags :=
       Ok {| tags_status := 200; tags_text := "";
             tags_models := Ok [Some "llama3"; Some "mistral"] |};
     post_hello :=
       inr {| status_code := 200; text := ""; lines := [] |} |}.

(** The progress window, still open, on a tree view that takes the
    update. *)
Definition open_window : MainWindow.window :=
  {| MainWindow.progress_window_exists := true;
     MainWindow.update_batch := Ok tt |}.

(** A workbook whose header line holds numbers: its labels are not
    strings. *)
Definition numbered_frame : DataManager.DataFrame :=
  {| DataManager.columns := [];
     DataManager.nrows := 2;
     DataManager.values := ∅;
     DataManager.accepts := fun _ _ _ => true;
     DataManager.label_fault :=
       Some "Can only use .str accessor with string values" |}.

Definition numbered_labels : reader :=
  {| path_exists := fun _ => true;
     read_excel := fun _ => inr numbered_frame;
     read_csv := fun _ _ => inr numbered_frame |}.

(** The results of a run over the typed table: a name, a text for the
    integer column "Age", and a failure. *)
Definition typed_results : list CellResult.t :=
  [{| CellResult.row := 0; CellResult.col := "Name";
      CellResult.success := true; CellResult.result := Some "JOHN";
      CellResult.error := None |};
   {| CellResult.row := 1; CellResult.col := "Age";
      CellResult.success := true; CellResult.result := Some "twenty-five";
      CellResult.error := None |};
   {| CellResult.row := 1; CellResult.col := "Name";
      CellResult.success := false; CellResult.result := None;
      CellResult.error := Some "Error: timeout" |}].

(** The results of a run over the names: the first succeeded, the second
    failed. *)
Definition mixed_results : list CellResult.t :=
  [{| CellResult.row := 0; CellResult.col := "Name";
      CellResult.success := true; CellResult.result := Some "JOHN";
      CellResult.error := None |};
   {| CellResult.row := 1; CellResult.col := "Name";
      CellResult.success := false; CellResult.result := None;
      CellResult.error := Some "Error: timeout" |}].

End Scenarios.


(** * Properties *)

(** ** Strings *)

Lemma append_cons (x : ascii) (a b : string) :
  String x a +:+ b = String x (a +:+ b).
Proof. reflexivity. Qed.

Lemma append_empty_l (a : string) : EmptyString +:+ a = a.
Proof. reflexivity. Qed.

Lemma append_assoc (a b c : string) : (a +:+ b) +:+ c = a +:+ (b +:+ c).
Proof.
  induction a as [|x a IH]; [reflexivity|].
  now rewrite !append_cons, IH.
Qed.

Lemma append_empty_r (a : string) : a +:+ EmptyString = a.
Proof.
  induction a as [|x a IH]; [reflexivity|]. now rewrite append_cons, IH.
Qed.

Lemma substring_of_refl (a : string) : substring_of a a.
Proof.
  exists EmptyString, EmptyString.
  now rewrite append_empty_l, append_empty_r.
Qed.

Lemma substring_of_app_l (a b c : string) :
  substring_of a b -> substring_of a (c +:+ b).
Proof.
  intros (pre & post & ->). exists (c +:+ pre), post.
  now rewrite append_assoc.
Qed.

Lemma substring_of_app_r (a b c : string) :
  substring_of a b -> substring_of a (b +:+ c).
Proof.
  intros (pre & post & ->). exists pre, (post +:+ c).
  now rewrite !append_assoc.
Qed.

Lemma rstrip_idem (s : string) : rstrip (rstrip s) = rstrip s.
Proof.
  induction s as [|c s IH]; simpl; [reflexivity|].
  destruct (rstrip s) as [|c' r] eqn:E.
  - destruct (isspace c) eqn:Ec; simpl; [reflexivity | now rewrite Ec].
  - simpl in *. now rewrite IH.
Qed.

Lemma lstrip_rstrip_lstrip (s : string) :
  lstrip (rstrip (lstrip s)) = rstrip (lstrip s).
Proof.
  induction s as [|c s IH]; simpl; [reflexivity|].
  destruct (isspace c) eqn:Ec; [exact IH|].
  simpl. destruct (rstrip s) as [|c' r]; rewrite ?Ec; simpl; now rewrite Ec.
Qed.

Lemma strip_trimmed (s : string) : trimmed (strip s).
Proof.
  split; unfold strip; [apply lstrip_rstrip_lstrip | apply rstrip_idem].
Qed.

(** ** The transformation client *)

Lemma ollama_reply_shape py_str w self rq :
  exists r calls self',
    OllamaAPIManager.process_single_cell py_str w self rq
      = (Returns r, calls, self') /\ reply_shape r.
Proof.
  unfold OllamaAPIManager.process_single_cell.
  destruct (OllamaAPIManager._check_rate_limit (time_check w) self) as [[] self1];
    simpl.
  - destruct (OllamaAPIManager._generate_streaming w self1 _ _ _ _)
      as [[chunks|e] calls].
    + eexists _, _, _. split; [reflexivity|]. left. eexists. split; [reflexivity|].
      apply strip_trimmed.
    + eexists _, _, _. split; [reflexivity|]. right. eexists. reflexivity.
  - eexists _, _, _. split; [reflexivity|]. right. eexists. reflexivity.
Qed.

Lemma openai_reply_shape py_str w self rq :
  exists r calls self',
    APIManager._process_openai py_str w self rq = (Returns r, calls, self')
    /\ reply_shape r.
Proof.
  unfold APIManager._process_openai.
  destruct (match APIManager.client self with
            | Some _ => (true, self)
            | None => APIManager.initialize w self None
            end) as [[] self1]; simpl;
    [| eexists _, _, _; split; [reflexivity|]; right; eexists; reflexivity].
  destruct (APIManager._check_rate_limit (time_check w) self1) as [[] self2];
    simpl;
    [| eexists _, _, _; split; [reflexivity|]; right; eexists; reflexivity].
  destruct (APIManager.client self2).
  - destruct (chat_create w) as [[|[content|] choices]|e].
    + eexists _, _, _; split; [reflexivity|]; right; eexists; reflexivity.
    + eexists _, _, _; split; [reflexivity|]. left. eexists.
      split; [reflexivity | apply strip_trimmed].
    + eexists _, _, _; split; [reflexivity|]; right; eexists; reflexivity.
    + destruct e; eexists _, _, _; (split; [reflexivity|]); right; eexists;
        reflexivity.
  - eexists _, _, _; split; [reflexivity|]; right; eexists; reflexivity.
Qed.

Lemma fold_left_append_join (chunks : list string) :
  forall acc : string,
    fold_left String.append chunks acc = acc +:+ join chunks.
Proof.
  induction chunks as [|chunk chunks IH]; intros acc; simpl.
  - now rewrite append_empty_r.
  - rewrite IH. apply append_assoc.
Qed.

(** The reply of a call, by what the call meets: no client, a refusal of
    the rate limiter, or the answer of the backend. *)
Lemma reply_of_call py_str (w : io) (self : APIManager.t) (rq : cell_request) :
  exists calls self',
    APIManager.process_single_cell py_str w self rq
    = (Returns
         (if negb (initialises w self)
          then (false, None, Some "API client not initialized")
          else if negb (RateLimit._check_rate_limit
                          (time_check w) (active_limits self)).1
          then (false, None, Some rate_limit_message)
          else match backend_answer (APIManager.api_type self) w with
               | Ok text => (true, Some (strip text), None)
               | Fault e =>
                   (false, None,
                    Some (fault_message (APIManager.api_type self) e))
               end),
       calls, self').
Proof.
  unfold APIManager.process_single_cell, active_limits, initialises,
    backend_answer, fault_message.
  destruct self as [key mdl ty cl om lim]; simpl.
  destruct ty; simpl.
  - unfold APIManager._process_openai. simpl.
    destruct cl as [c|]; simpl.
    + unfold APIManager._check_rate_limit; simpl.
      destruct (RateLimit._check_rate_limit (time_check w) lim) as [[] ?]; simpl;
        [|eauto].
      destruct (chat_create w) as [[|[?|] ?]|[]]; simpl; eauto.
    + unfold APIManager.initialize. simpl.
      destruct (APIManager.nonempty key); simpl; [|eauto].
      destruct (new_client w) as [c|e]; simpl; [|eauto].
      unfold APIManager._check_rate_limit; simpl.
      destruct (RateLimit._check_rate_limit (time_check w) lim) as [[] ?]; simpl;
        [|eauto].
      destruct (chat_create w) as [[|[?|] ?]|[]]; simpl; eauto.
  - unfold OllamaAPIManager.process_single_cell,
      OllamaAPIManager._check_rate_limit.
    destruct (RateLimit._check_rate_limit (time_check w)
                (OllamaAPIManager.limits om)) as [[] l]; simpl; [|eauto].
    unfold OllamaAPIManager._generate_streaming.
    destruct (http_post w) as [response|e]; simpl; [|destruct e; eauto].
    destruct (status_code response =? 200); simpl; [|eauto].
    destruct (OllamaAPIManager.stream_chunks (lines response)) as [chunks|e];
      simpl; [|destruct e; eauto].
    rewrite fold_left_append_join, append_empty_l. eauto.
Qed.

(** C5.  On every input, for the hosted and for the local backend,
    [process_single_cell] returns (it does not raise), and what it returns is
    either [(True, text, None)] with [text] stripped of surrounding white
    space, or [(False, None, message)].  Which of the two is decided by
    what the call meets: without a client that can be created, and when the
    rate limiter refuses, the reply is a failure; otherwise it is the
    answer of the backend, a success carrying the stripped text the
    backend generated, or, on any fault of the backend, a failure carrying
    the text of the fault.  So every backend fault gives
    [(False, None, message)], and a success always carries the stripped
    text of the backend. *)
Theorem process_single_cell_returns_one_of_two_shapes
    (py_str : pyval -> string) (w : io) (self : APIManager.t)
    (rq : cell_request) :
  exists r calls self',
    APIManager.process_single_cell py_str w self rq = (Returns r, calls, self')
    /\ reply_shape r
    /\ r = (if negb (initialises w self)
            then (false, None, Some "API client not initialized")
            else if negb (RateLimit._check_rate_limit
                            (time_check w) (active_limits self)).1
            then (false, None, Some rate_limit_message)
            else match backend_answer (APIManager.api_type self) w with
                 | Ok text => (true, Some (strip text), None)
                 | Fault e =>
                     (false, None,
                      Some (fault_message (APIManager.api_type self) e))
                 end)
    /\ (forall e,
          backend_answer (APIManager.api_type self) w = Fault e ->
          exists message, r = (false, None, Some message))
    /\ (r.1.1 = true ->
        exists text,
          backend_answer (APIManager.api_type self) w = Ok text
          /\ r = (true, Some (strip text), None)).
Proof.
  destruct (reply_of_call py_str w self rq) as (calls & self' & E).
  eexists _, calls, self'. split; [exact E|].
  destruct (negb (initialises w self)).
  { split; [right; eexists; reflexivity|]. split; [reflexivity|].
    split; [eauto | discriminate]. }
  destruct (negb (RateLimit._check_rate_limit
                    (time_check w) (active_limits self)).1).
  { split; [right; eexists; reflexivity|]. split; [reflexivity|].
    split; [eauto | discriminate]. }
  destruct (backend_answer (APIManager.api_type self) w) as [text|e].
  - split; [left; eexists; split; [reflexivity | apply strip_trimmed]|].
    split; [reflexivity|]. split; [discriminate | eauto].
  - split; [right; eexists; reflexivity|]. split; [reflexivity|].
    split; [eauto | discriminate].
Qed.

(** *** Prompt composition *)

Lemma context_lines_join py_str (items : dict) :
  context_lines py_str items = join (List.map (bullet py_str) items).
Proof.
  induction items as [|[key value] items IH]; [reflexivity|].
  simpl. rewrite IH. unfold bullet. simpl. now rewrite !append_assoc.
Qed.

Lemma substring_of_join (a part : string) (parts : list string) :
  In part parts -> substring_of a part -> substring_of a (join parts).
Proof.
  induction parts as [|p parts IH]; simpl; [tauto|].
  intros [->|Hin] Ha.
  - now apply substring_of_app_r.
  - apply substring_of_app_l. now apply IH.
Qed.

Lemma ollama_calls_carry_prompt py_str w self rq call :
  In call (OllamaAPIManager.process_single_cell py_str w self rq).1.2 ->
  prompt_of call = formatted_prompt py_str rq.
Proof.
  unfold OllamaAPIManager.process_single_cell.
  destruct (OllamaAPIManager._check_rate_limit (time_check w) self) as [[] self1];
    simpl; [|tauto].
  unfold OllamaAPIManager._generate_streaming.
  destruct (http_post w) as [response|e]; simpl.
  - destruct (negb (status_code response =? 200)); simpl.
    + intros [<-|[]]. reflexivity.
    + destruct (OllamaAPIManager.stream_chunks (lines response)); simpl;
        intros [<-|[]]; reflexivity.
  - intros [<-|[]]. reflexivity.
Qed.

Lemma openai_calls_carry_prompt py_str w self rq call :
  In call (APIManager._process_openai py_str w self rq).1.2 ->
  prompt_of call = formatted_prompt py_str rq.
Proof.
  unfold APIManager._process_openai.
  destruct (match APIManager.client self with
            | Some _ => (true, self)
            | None => APIManager.initialize w self None
            end) as [[] self1]; simpl; [|tauto].
  destruct (APIManager._check_rate_limit (time_check w) self1) as [[] self2];
    simpl; [|tauto].
  destruct (APIManager.client self2); simpl; [|tauto].
  destruct (chat_create w) as [[|[content|] choices]|e]; simpl;
    try (intros [<-|[]]; reflexivity).
  destruct e; simpl; intros [<-|[]]; reflexivity.
Qed.

(** C8.  With a non-empty context mapping, the prompt that either backend
    sends is the user prompt, a blank line, "Cell content: " and the
    content, a blank line, the line "Context information:", and one line
    "- key: value" per context entry, in the order of the mapping; every
    context key and the text of every context value therefore occur in it. *)
Theorem outbound_prompt_lists_context
    (py_str : pyval -> string) (w : io) (self : APIManager.t)
    (rq : cell_request) (items : dict) :
  context_data rq = Some items ->
  items <> [] ->
  let composed :=
    user_prompt rq +:+ nl +:+ nl +:+ "Cell content: " +:+ cell_content rq
      +:+ nl +:+ nl +:+ "Context information:" +:+ nl
      +:+ join (List.map (bullet py_str) items) in
  formatted_prompt py_str rq = composed
  /\ (forall call,
        In call (APIManager.process_single_cell py_str w self rq).1.2 ->
        prompt_of call = composed)
  /\ (forall key value,
        In (key, value) items ->
        substring_of key composed /\ substring_of (py_str value) composed).
Proof.
  intros Hctx Hne composed.
  assert (Hcomposed : formatted_prompt py_str rq = composed).
  { unfold formatted_prompt, composed. rewrite Hctx.
    destruct items as [|item items]; [congruence|].
    rewrite context_lines_join. now rewrite !append_assoc. }
  split; [exact Hcomposed|]. split.
  - intros call. rewrite <- Hcomposed.
    unfold APIManager.process_single_cell.
    destruct (APIManager.api_type self).
    + apply openai_calls_carry_prompt.
    + pose proof (ollama_calls_carry_prompt py_str w
                    (APIManager.ollama_manager self) rq call) as H.
      destruct (OllamaAPIManager.process_single_cell py_str w
                  (APIManager.ollama_manager self) rq) as [[r calls] o].
      exact H.
  - intros key value Hin.
    assert (Hb : In (bullet py_str (key, value)) (List.map (bullet py_str) items))
      by (apply in_map; exact Hin).
    unfold composed. split.
    + do 9 apply substring_of_app_l.
      eapply substring_of_join; [exact Hb|].
      unfold bullet; simpl.
      apply substring_of_app_l, substring_of_app_r, substring_of_refl.
    + do 9 apply substring_of_app_l.
      eapply substring_of_join; [exact Hb|].
      unfold bullet; simpl.
      do 3 apply substring_of_app_l. apply substring_of_app_r, substring_of_refl.
Qed.

(** *** The rolling window *)

Lemma check_in_window (l : limiter) (now : Q) :
  in_window l now ->
  RateLimit._check_rate_limit now l
    = (request_count l <? max_requests_per_minute l, l).
Proof.
  unfold in_window, RateLimit._check_rate_limit. intros H.
  destruct (Qlt_le_dec 60 (now - request_start_time l)) as [Hlt|Hle];
    [|reflexivity].
  exfalso. apply (Qlt_not_le _ _ Hlt). exact H.
Qed.

Lemma check_after_window (l : limiter) (now : Q) :
  (60 < now - request_start_time l)%Q ->
  RateLimit._check_rate_limit now l
    = (true, {| request_count := 0; request_start_time := now;
                max_requests_per_minute := max_requests_per_minute l |}).
Proof.
  unfold RateLimit._check_rate_limit. intros H.
  destruct (Qlt_le_dec 60 (now - request_start_time l)) as [Hlt|Hle];
    [reflexivity|].
  exfalso. apply (Qlt_not_le _ _ H). exact Hle.
Qed.

Lemma increment_in_window (l : limiter) (now : Q) :
  in_window l now ->
  RateLimit._increment_request_count now l
    = {| request_count := request_count l + 1;
         request_start_time := request_start_time l;
         max_requests_per_minute := max_requests_per_minute l |}.
Proof.
  unfold in_window, RateLimit._increment_request_count. intros H.
  destruct (Qlt_le_dec 60 (now - request_start_time l)) as [Hlt|Hle];
    [|reflexivity].
  exfalso. apply (Qlt_not_le _ _ Hlt). exact H.
Qed.

Lemma increment_counts_one (l : limiter) (now : Q) :
  request_count l = 0 ->
  request_count (RateLimit._increment_request_count now l) = 1.
Proof.
  unfold RateLimit._increment_request_count. intros H.
  destruct (Qlt_le_dec 60 (now - request_start_time l)); simpl; [reflexivity|].
  rewrite H. reflexivity.
Qed.

(** What a call does when the limiter lets it through and the backend
    succeeds: one request, a success, and one more request counted. *)
Lemma call_passes py_str (w : io) (self : APIManager.t) (rq : cell_request)
    (l : limiter) :
  ready self ->
  RateLimit._check_rate_limit (time_check w) (active_limits self) = (true, l) ->
  backend_succeeds (APIManager.api_type self) w ->
  exists value call self',
    APIManager.process_single_cell py_str w self rq
      = (Returns (true, Some value, None), [call], self')
    /\ APIManager.api_type self' = APIManager.api_type self
    /\ APIManager.client self' = APIManager.client self
    /\ active_limits self'
       = RateLimit._increment_request_count (time_incr w) l.
Proof.
  unfold ready, active_limits, APIManager.process_single_cell.
  destruct self as [key mdl ty cl om lim]; simpl.
  destruct ty; simpl; intros Hready Hcheck Hok.
  - rewrite (Hready eq_refl).
    unfold APIManager._process_openai; simpl.
    unfold APIManager._check_rate_limit; simpl. rewrite Hcheck; simpl.
    destruct Hok as (content & choices & ->).
    eexists _, _, _. split; [reflexivity|]. simpl. auto.
  - unfold OllamaAPIManager.process_single_cell,
      OllamaAPIManager._check_rate_limit.
    rewrite Hcheck; simpl.
    destruct Hok as (response & chunks & Hpost & Hstatus & Hchunks).
    unfold OllamaAPIManager._generate_streaming.
    rewrite Hpost, Hstatus, Hchunks; simpl.
    eexists _, _, _. split; [reflexivity|]. simpl. auto.
Qed.

(** What a call does when the limiter refuses it: nothing is sent and the
    client is as it was. *)
Lemma call_refused py_str (w : io) (self : APIManager.t) (rq : cell_request) :
  ready self ->
  RateLimit._check_rate_limit (time_check w) (active_limits self)
    = (false, active_limits self) ->
  APIManager.process_single_cell py_str w self rq
    = (Returns (false, None, Some rate_limit_message), [], self).
Proof.
  unfold ready, active_limits, APIManager.process_single_cell.
  destruct self as [key mdl ty cl om lim]; simpl.
  destruct ty; simpl; intros Hready Hcheck.
  - rewrite (Hready eq_refl).
    unfold APIManager._process_openai; simpl.
    unfold APIManager._check_rate_limit; simpl. rewrite Hcheck; simpl.
    destruct lim; reflexivity.
  - unfold OllamaAPIManager.process_single_cell,
      OllamaAPIManager._check_rate_limit.
    rewrite Hcheck; simpl. destruct om as [u m l]; simpl.
    destruct l; reflexivity.
Qed.

(** Calls made inside the window while the counter is below the ceiling all
    succeed, and each one is counted. *)
Lemma calls_within_window py_str (calls : list (io * cell_request)) :
  forall (self : APIManager.t) replies self',
    ready self ->
    request_count (active_limits self) + Z.of_nat (length calls)
      <= max_requests_per_minute (active_limits self) ->
    (forall c, In c calls ->
       in_window (active_limits self) (time_check c.1)
       /\ in_window (active_limits self) (time_incr c.1)
       /\ backend_succeeds (APIManager.api_type self) c.1) ->
    APIManager.process_cells py_str self calls = (replies, self') ->
    Forall succeeded replies
    /\ length replies = length calls
    /\ ready self'
    /\ APIManager.api_type self' = APIManager.api_type self
    /\ active_limits self'
       = {| request_count :=
              request_count (active_limits self) + Z.of_nat (length calls);
            request_start_time := request_start_time (active_limits self);
            max_requests_per_minute :=
              max_requests_per_minute (active_limits self) |}.
Proof.
  induction calls as [|[w rq] calls IH]; intros self replies self' Hready Hroom Hall.
  - simpl. intros [= <- <-]. repeat split; auto.
    rewrite Z.add_0_r. destruct (active_limits self); reflexivity.
  - destruct (Hall (w, rq) (or_introl eq_refl)) as (Hc & Hi & Hok). simpl in *.
    assert (Hunder : (request_count (active_limits self)
                        <? max_requests_per_minute (active_limits self)) = true)
      by (apply Z.ltb_lt; lia).
    pose proof (check_in_window _ _ Hc) as Hcheck. rewrite Hunder in Hcheck.
    destruct (call_passes py_str w self rq _ Hready Hcheck Hok)
      as (value & call & self1 & E & Hty & Hcl & Hlim).
    rewrite E. rewrite (increment_in_window _ _ Hi) in Hlim.
    destruct (APIManager.process_cells py_str self1 calls) as [rs self2] eqn:Erest.
    intros [= <- <-].
    assert (Hready1 : ready self1)
      by (unfold ready in *; rewrite Hty, Hcl; exact Hready).
    destruct (IH self1 rs self2 Hready1) as (Hrs & Hlen & Hready2 & Hty2 & Hlim2).
    + rewrite Hlim; simpl. lia.
    + intros c Hin. rewrite Hlim, Hty. unfold in_window; simpl.
      apply Hall. now right.
    + exact Erest.
    + repeat split.
      * constructor; [eexists; reflexivity | exact Hrs].
      * simpl. now rewrite Hlen.
      * exact Hready2.
      * congruence.
      * rewrite Hlim2, Hlim; simpl. f_equal. lia.
Qed.

(** C4.  A client whose ceiling is [N], starting a window with its counter
    at 0 and a backend that succeeds: [N] calls made within the window all
    succeed; a further call within the same window is answered with the
    rate-limit message, sends nothing and changes nothing; a call made more
    than 60 seconds after the start of the window passes the check with the
    counter reset to 0 (the window restarting at that moment), and
    succeeds. *)
Theorem rate_limiter_window
    (py_str : pyval -> string) (N : nat) (self : APIManager.t)
    (calls : list (io * cell_request)) (w : io) (rq : cell_request)
    (replies : list (outcome cell_reply * sent)) (self' : APIManager.t) :
  ready self ->
  max_requests_per_minute (active_limits self) = Z.of_nat N ->
  request_count (active_limits self) = 0 ->
  length calls = N ->
  (forall c, In c calls ->
     in_window (active_limits self) (time_check c.1)
     /\ in_window (active_limits self) (time_incr c.1)
     /\ backend_succeeds (APIManager.api_type self) c.1) ->
  APIManager.process_cells py_str self calls = (replies, self') ->
  (Forall succeeded replies /\ length replies = N)
  /\ (in_window (active_limits self) (time_check w) ->
      APIManager.process_single_cell py_str w self' rq
        = (Returns (false, None, Some rate_limit_message), [], self'))
  /\ ((60 < time_check w - request_start_time (active_limits self))%Q ->
      backend_succeeds (APIManager.api_type self) w ->
      RateLimit._check_rate_limit (time_check w) (active_limits self')
        = (true, {| request_count := 0;
                    request_start_time := time_check w;
                    max_requests_per_minute := Z.of_nat N |})
      /\ exists value call self'',
           APIManager.process_single_cell py_str w self' rq
             = (Returns (true, Some value, None), [call], self'')
           /\ request_count (active_limits self'') = 1).
Proof.
  intros Hready Hmax Hzero Hlen Hall Hrun.
  destruct (calls_within_window py_str calls self replies self' Hready)
    as (Hrs & Hlen' & Hready' & Hty & Hlim); [lia | exact Hall | exact Hrun |].
  rewrite Hzero, Hmax, Hlen in Hlim. simpl in Hlim.
  split; [split; [exact Hrs | congruence]|]. split.
  - intros Hin. apply call_refused; [exact Hready'|].
    rewrite check_in_window by (unfold in_window; rewrite Hlim; exact Hin).
    rewrite Hlim; simpl. now rewrite Z.ltb_irrefl.
  - intros Hlate Hok.
    assert (Hcheck :
      RateLimit._check_rate_limit (time_check w) (active_limits self')
        = (true, {| request_count := 0; request_start_time := time_check w;
                    max_requests_per_minute := Z.of_nat N |})).
    { rewrite check_after_window by (rewrite Hlim; exact Hlate).
      now rewrite Hlim. }
    split; [exact Hcheck|].
    rewrite <- Hty in Hok.
    destruct (call_passes py_str w self' rq _ Hready' Hcheck Hok)
      as (value & call & self2 & E & _ & _ & Hlim2).
    exists value, call, self2. split; [exact E|].
    rewrite Hlim2. now apply increment_counts_one.
Qed.

(** ** The tabular store *)

(** *** Range write *)

Lemma save_file_keeps_table d self path :
  DataManager.df (DataManager.save_file d self path).2 = DataManager.df self.
Proof.
  unfold DataManager.save_file.
  destruct (DataManager.df self) as [frame|] eqn:E; [|exact E].
  destruct (match path with Some p => Some p | None => DataManager.file_path self end)
    as [p|]; [|exact E].
  match goal with
  | |- context [match ?w with Ok _ => _ | Fault _ => _ end] => destruct w as [q|e]
  end; simpl; [reflexivity|].
  destruct e; exact E.
Qed.

Lemma applicable_step (n : nat) (cols : list string)
    (ok : Z -> string -> pyval -> bool) (u : Update.t)
    frame path type m s e :
  DataManager.nrows frame = n ->
  DataManager.columns frame = cols ->
  DataManager.accepts frame = ok ->
  DataManager.update_step
    ({| DataManager.df := Some frame; DataManager.file_path := path;
        DataManager.file_type := type; DataManager.modified := m |}, s, e) u
  = if applicable n cols ok u
    then ({| DataManager.df := Some (write frame u);
             DataManager.file_path := path;
             DataManager.file_type := type;
             DataManager.modified := true |}, S s, e)
    else ({| DataManager.df := Some frame; DataManager.file_path := path;
             DataManager.file_type := type; DataManager.modified := m |},
          s, S e).
Proof.
  intros <- <- <-. unfold DataManager.update_step, applicable, resolves, write.
  destruct (Update.get (Update.row u)) as [row|]; [|reflexivity].
  destruct (Update.get (Update.col u)) as [col|]; [|reflexivity].
  destruct (Update.get (Update.result u)) as [value|]; [|reflexivity].
  unfold DataManager.update_cell, DataManager.len; simpl.
  replace (row >=? Z.of_nat (DataManager.nrows frame))
    with (negb (row <? Z.of_nat (DataManager.nrows frame)))
    by (rewrite Z.geb_leb, Z.ltb_antisym; now rewrite negb_involutive).
  replace (row <? 0) with (negb (0 <=? row))
    by (rewrite Z.leb_antisym; now rewrite negb_involutive).
  destruct value;
    destruct (0 <=? row), (row <? Z.of_nat (DataManager.nrows frame)),
      (in_list col (DataManager.columns frame)); try reflexivity;
    simpl; destruct (DataManager.accepts frame row col _); reflexivity.
Qed.

Lemma write_keeps_shape frame u :
  DataManager.nrows (write frame u) = DataManager.nrows frame
  /\ DataManager.columns (write frame u) = DataManager.columns frame.
Proof.
  unfold write.
  destruct (Update.get (Update.row u)), (Update.get (Update.col u)),
    (Update.get (Update.result u)); auto.
Qed.

Lemma write_keeps_accepts frame u :
  DataManager.accepts (write frame u) = DataManager.accepts frame.
Proof.
  unfold write.
  destruct (Update.get (Update.row u)), (Update.get (Update.col u)),
    (Update.get (Update.result u)); auto.
Qed.

(** The loop of [update_range] on a loaded table. *)
Lemma update_loop (n : nat) (cols : list string)
    (ok : Z -> string -> pyval -> bool) (updates : list Update.t) :
  forall frame path type m s e,
    DataManager.nrows frame = n ->
    DataManager.columns frame = cols ->
    DataManager.accepts frame = ok ->
    exists m',
      fold_left DataManager.update_step updates
        ({| DataManager.df := Some frame; DataManager.file_path := path;
            DataManager.file_type := type; DataManager.modified := m |}, s, e)
      = ({| DataManager.df :=
              Some (fold_left write (List.filter (applicable n cols ok) updates)
                              frame);
            DataManager.file_path := path;
            DataManager.file_type := type;
            DataManager.modified := m' |},
         (s + length (List.filter (applicable n cols ok) updates))%nat,
         (e + length (List.filter (fun u => negb (applicable n cols ok u))
                                  updates))%nat).
Proof.
  induction updates as [|u updates IH]; intros frame path type m s e Hn Hc Ha.
  - exists m. simpl. now rewrite !Nat.add_0_r.
  - cbn [fold_left List.filter]. rewrite (applicable_step n cols ok) by assumption.
    destruct (applicable n cols ok u); cbn [negb].
    + destruct (write_keeps_shape frame u) as [Hn' Hc'].
      pose proof (write_keeps_accepts frame u) as Ha'.
      destruct (IH (write frame u) path type true (S s) e) as [m' ->];
        [congruence | congruence | congruence |].
      exists m'. cbn [fold_left length]. do 2 f_equal. lia.
    + destruct (IH frame path type m s (S e) Hn Hc Ha) as [m' ->].
      exists m'. cbn [length]. f_equal. lia.
Qed.

Lemma update_range_loaded d self frame updates auto_save :
  DataManager.df self = Some frame ->
  let n := DataManager.nrows frame in
  let cols := DataManager.columns frame in
  let ok := DataManager.accepts frame in
  (DataManager.update_range d self updates auto_save).1
    = (length (List.filter (applicable n cols ok) updates),
       length (List.filter (fun u => negb (applicable n cols ok u)) updates))
  /\ DataManager.df (DataManager.update_range d self updates auto_save).2
     = Some (apply_writes frame updates).
Proof.
  intros Hdf n cols ok. unfold DataManager.update_range. rewrite Hdf.
  destruct self as [f path type m]; simpl in Hdf; subst f.
  destruct (update_loop n cols ok updates frame path type m 0 0
              eq_refl eq_refl eq_refl) as [m' ->].
  cbn [fst snd]. split; [reflexivity|].
  destruct (0 <? _)%nat; [|reflexivity].
  match goal with |- context [if ?c then _ else _] => destruct c end;
    [|reflexivity].
  now rewrite save_file_keeps_table.
Qed.

Lemma filter_permutation {A : Type} (f : A -> bool) (l l' : list A) :
  Permutation l l' -> Permutation (List.filter f l) (List.filter f l').
Proof.
  induction 1 as [|x l l' _ IH|x y l|l l' l'' _ IH1 _ IH2]; simpl.
  - constructor.
  - destruct (f x); [now constructor | exact IH].
  - destruct (f x), (f y); try reflexivity. apply perm_swap.
  - now transitivity (List.filter f l').
Qed.

(** C7, as stated, does not hold: a result whose row is in bounds, whose
    column exists and whose value is present is counted as failed, and is
    not applied, when the table refuses the value ([update_cell] catches
    the exception of the assignment and returns [False]).  With a text for
    the integer column "Age" as the valid entry, an entry whose row is out
    of bounds and one whose column does not exist, [update_range] returns
    (0, 3), not (1, 2), and the cell keeps its value. *)
Lemma write_range_fails_an_entry_the_table_refuses :
  let valid := Examples.set_cell 1 "Age" "twenty-five" in
  let updates :=
    [valid;
     Examples.set_cell 999 "Name" "invalid row";
     Examples.set_cell 0 "Invalid" "invalid col"] in
  let out :=
    DataManager.update_range Examples.read_only_disk Examples.typed_people
                             updates false in
  resolves (DataManager.nrows Examples.typed_people_frame)
           (DataManager.columns Examples.typed_people_frame) valid = true
  /\ out.1 = (0%nat, 3%nat)
  /\ out.1 <> (1%nat, 2%nat)
  /\ DataManager.get_cell_value out.2 1 "Age" = PInt 25.
Proof.
  intros valid updates out.
  split; [reflexivity|]. split; [reflexivity|].
  split; [discriminate | reflexivity].
Qed.

(** C7.  On a loaded table [update_range] applies exactly the results whose
    row is in bounds, whose column exists, whose value is present and
    whose value the table accepts in that cell, in order, and counts each
    of the others as failed without stopping; with one valid entry that
    the table accepts, one whose row is out of bounds and one whose column
    does not exist, in any order, it returns (1, 2) and the valid cell then
    reads as the value written. *)
Theorem write_range_applies_valid_and_counts_rest
    (d : DataManager.disk) (self : DataManager.t)
    (frame : DataManager.DataFrame) (updates : list Update.t)
    (auto_save : bool) :
  DataManager.df self = Some frame ->
  let n := DataManager.nrows frame in
  let cols := DataManager.columns frame in
  let ok := DataManager.accepts frame in
  let out := DataManager.update_range d self updates auto_save in
  out.1 = (length (List.filter (applicable n cols ok) updates),
           length (List.filter (fun u => negb (applicable n cols ok u)) updates))
  /\ DataManager.df out.2 = Some (apply_writes frame updates)
  /\ (forall valid oob nocol row col value row' col',
        Update.row valid = Update.Value row ->
        Update.col valid = Update.Value col ->
        Update.result valid = Update.Value value ->
        value <> PNone ->
        0 <= row < Z.of_nat n ->
        in_list col cols = true ->
        ok row col value = true ->
        Update.row oob = Update.Value row' ->
        (row' < 0 \/ Z.of_nat n <= row') ->
        Update.col nocol = Update.Value col' ->
        in_list col' cols = false ->
        Permutation updates [valid; oob; nocol] ->
        out.1 = (1%nat, 2%nat)
        /\ DataManager.get_cell_value out.2 row col = value).
Proof.
  intros Hdf n cols ok out.
  destruct (update_range_loaded d self frame updates auto_save Hdf)
    as [Hcounts Htable].
  fold n cols ok out in Hcounts, Htable.
  split; [exact Hcounts|]. split; [exact Htable|].
  intros valid oob nocol row col value row' col'
    Hrow Hcol Hres Hval Hbounds Hcolumn Haccepts Hrow' Hout Hcol' Hmissing Hperm.
  assert (Hv : applicable n cols ok valid = true).
  { unfold applicable, resolves. rewrite Hrow, Hcol, Hres; simpl.
    rewrite Hcolumn, Haccepts.
    destruct (Z.leb_spec 0 row); [|lia].
    destruct (Z.ltb_spec row (Z.of_nat n)); [|lia].
    destruct value; simpl; congruence. }
  assert (Ho : applicable n cols ok oob = false).
  { unfold applicable, resolves. rewrite Hrow'; simpl.
    destruct (Update.get (Update.col oob)); [|reflexivity].
    destruct (Update.get (Update.result oob)); [|reflexivity].
    destruct (Z.leb_spec 0 row'), (Z.ltb_spec row' (Z.of_nat n));
      try reflexivity; lia. }
  assert (Hn : applicable n cols ok nocol = false).
  { unfold applicable, resolves. rewrite Hcol'; simpl.
    destruct (Update.get (Update.row nocol)); [|reflexivity].
    destruct (Update.get (Update.result nocol)); [|reflexivity].
    rewrite Hmissing. now rewrite andb_false_r. }
  assert (Hyes : List.filter (applicable n cols ok) updates = [valid]).
  { apply Permutation_length_1_inv. symmetry.
    pose proof (filter_permutation (applicable n cols ok) _ _ Hperm) as H.
    simpl in H. now rewrite Hv, Ho, Hn in H. }
  assert (Hno : length (List.filter (fun u => negb (applicable n cols ok u))
                                    updates)
                = 2%nat).
  { pose proof (filter_permutation (fun u => negb (applicable n cols ok u))
                  _ _ Hperm) as H.
    simpl in H. rewrite Hv, Ho, Hn in H; simpl in H.
    now rewrite (Permutation_length H). }
  split.
  - now rewrite Hcounts, Hyes, Hno.
  - unfold DataManager.get_cell_value. rewrite Htable.
    unfold apply_writes. fold n cols ok. rewrite Hyes. simpl.
    unfold write. rewrite Hrow, Hcol, Hres; simpl.
    unfold DataManager.len; simpl. fold n cols. rewrite Hcolumn.
    destruct (Z.ltb_spec row 0); [lia|].
    destruct (Z.geb_spec row (Z.of_nat n)); [lia|]. simpl.
    unfold DataManager.loc, DataManager.set_loc; simpl.
    now rewrite lookup_insert_eq.
Qed.

(** *** Range write without a table, or without a field *)

Lemma incomplete_step (st : DataManager.t * nat * nat) (u : Update.t) :
  incomplete u ->
  DataManager.update_step st u = (st.1.1, st.1.2, S st.2).
Proof.
  destruct st as [[self s] e]. unfold incomplete, DataManager.update_step.
  intros [H|[H|[H|H]]]; rewrite H; simpl;
    destruct (Update.get (Update.row u)); try reflexivity;
    destruct (Update.get (Update.col u)); reflexivity.
Qed.

Lemma step_error_shift (self : DataManager.t) (s e : nat) (u : Update.t) :
  DataManager.update_step (self, s, S e) u
  = let st := DataManager.update_step (self, s, e) u in
    (st.1.1, st.1.2, S st.2).
Proof.
  unfold DataManager.update_step.
  destruct (Update.get (Update.row u)); [|reflexivity].
  destruct (Update.get (Update.col u)); [|reflexivity].
  destruct (Update.get (Update.result u)) as [[]|]; try reflexivity;
    destruct (DataManager.update_cell _ _ _ _) as [[] ?]; reflexivity.
Qed.

Lemma loop_error_shift (updates : list Update.t) :
  forall (self : DataManager.t) (s e : nat),
    fold_left DataManager.update_step updates (self, s, S e)
    = let st := fold_left DataManager.update_step updates (self, s, e) in
      (st.1.1, st.1.2, S st.2).
Proof.
  induction updates as [|u updates IH]; intros self s e; [reflexivity|].
  cbn [fold_left]. rewrite step_error_shift.
  destruct (DataManager.update_step (self, s, e) u) as [[self1 s1] e1].
  cbn [fst snd]. apply IH.
Qed.

(** C9.  Without a table, [update_range] returns (0, number of updates) and
    changes nothing.  An update whose row, column or value is absent or
    [None] adds one to the failed count and nothing else: the loop body
    leaves the store and the applied count as they are, and the whole call
    returns what it returns without that update, with one more failure. *)
Theorem write_range_without_table_or_field
    (d : DataManager.disk) (self : DataManager.t)
    (updates : list Update.t) (auto_save : bool) :
  (DataManager.df self = None ->
   DataManager.update_range d self updates auto_save
     = ((0%nat, length updates), self))
  /\ (forall (st : DataManager.t * nat * nat) (u : Update.t),
        incomplete u ->
        DataManager.update_step st u = (st.1.1, st.1.2, S st.2))
  /\ (forall (u : Update.t) (before after : list Update.t),
        incomplete u ->
        updates = before ++ u :: after ->
        let rest := DataManager.update_range d self (before ++ after) auto_save in
        DataManager.update_range d self updates auto_save
          = ((rest.1.1, S rest.1.2), rest.2)).
Proof.
  split; [|split].
  - intros H. unfold DataManager.update_range. now rewrite H.
  - apply incomplete_step.
  - intros u before after Hu -> rest. subst rest.
    unfold DataManager.update_range.
    destruct (DataManager.df self) eqn:Hdf.
    + rewrite !fold_left_app. cbn [fold_left].
      destruct (fold_left DataManager.update_step before (self, 0%nat, 0%nat))
        as [[self1 s1] e1].
      rewrite (incomplete_step _ _ Hu). cbn [fst snd].
      rewrite loop_error_shift.
      destruct (fold_left DataManager.update_step after (self1, s1, e1))
        as [[self2 s2] e2].
      reflexivity.
    + cbn [fst snd]. rewrite !length_app. cbn [length].
      now rewrite Nat.add_succ_r.
Qed.

(** *** Range read *)

Lemma dict_get_set_eq {V : Type} (k : string) (v : V) (d : list (string * V)) :
  dict_get k (dict_set k v d) = Some v.
Proof.
  induction d as [|[k' v'] d IH]; simpl.
  - now rewrite String.eqb_refl.
  - destruct (String.eqb k' k) eqn:E; simpl; now rewrite E.
Qed.

Lemma dict_get_set_ne {V : Type} (k c : string) (v : V) (d : list (string * V)) :
  k <> c -> dict_get c (dict_set k v d) = dict_get c d.
Proof.
  intros Hne. induction d as [|[k' v'] d IH]; simpl.
  - apply String.eqb_neq in Hne. now rewrite Hne.
  - destruct (String.eqb k' k) eqn:E; simpl.
    + apply String.eqb_eq in E. subst k'.
      apply String.eqb_neq in Hne. now rewrite Hne.
    + now rewrite IH.
Qed.

(** Filling a dictionary from a list of keys: the last assignment to a key
    wins, and all of them assign the same value. *)
Lemma dict_get_fold_set {V : Type} (f : string -> V) (keys : list string) :
  forall (d : list (string * V)) (c : string),
    dict_get c (fold_left (fun d k => dict_set k (f k) d) keys d)
    = if in_list c keys then Some (f c) else dict_get c d.
Proof.
  induction keys as [|k keys IH]; intros d c; [reflexivity|].
  cbn [fold_left]. rewrite IH. unfold in_list. cbn [existsb].
  fold (in_list c keys). destruct (in_list c keys); [now rewrite orb_true_r|].
  rewrite orb_false_r. destruct (String.eqb c k) eqn:E.
  - apply String.eqb_eq in E. subst k. apply dict_get_set_eq.
  - apply dict_get_set_ne. apply String.eqb_neq in E. congruence.
Qed.

Lemma in_list_In (c : string) (l : list string) : in_list c l = true <-> In c l.
Proof.
  unfold in_list. rewrite existsb_exists. split.
  - intros (x & Hin & E). apply String.eqb_eq in E. now subst.
  - intros Hin. exists c. split; [exact Hin | apply String.eqb_refl].
Qed.

Lemma filter_idem {A : Type} (f : A -> bool) (l : list A) :
  List.filter f (List.filter f l) = List.filter f l.
Proof.
  induction l as [|x l IH]; simpl; [reflexivity|].
  destruct (f x) eqn:E; simpl; [rewrite E; now f_equal | exact IH].
Qed.

Lemma flat_map_nil {A B : Type} (l : list A) :
  flat_map (fun _ : A => @nil B) l = [].
Proof. induction l; simpl; auto. Qed.

Lemma in_range2 (lo hi row : Z) : In row (range2 lo hi) <-> lo <= row < hi.
Proof.
  unfold range2. rewrite in_map_iff. split.
  - intros (k & <- & Hk). apply in_seq in Hk. lia.
  - intros H. exists (Z.to_nat (row - lo)). split; [lia|].
    apply in_seq. lia.
Qed.

(** [get_range] on a loaded table, with the clamping and the filtering of
    the columns made explicit. *)
Lemma get_range_loaded self frame start_row end_row cols ctx :
  DataManager.df self = Some frame ->
  DataManager.get_range self start_row end_row cols ctx
  = flat_map
      (fun row =>
         List.map (cell_at frame (present frame cols)
                           (valid_context frame cols ctx) row)
                  (present frame cols))
      (range2 (Z.max 0 start_row) (Z.min end_row (DataManager.len frame))).
Proof.
  intros Hdf. unfold DataManager.get_range. rewrite Hdf.
  fold (present frame cols).
  replace (if start_row <? 0 then 0 else start_row) with (Z.max 0 start_row)
    by (destruct (Z.ltb_spec start_row 0); lia).
  replace (if end_row >? DataManager.len frame then DataManager.len frame
           else end_row)
    with (Z.min end_row (DataManager.len frame))
    by (rewrite Z.gtb_ltb; destruct (Z.ltb_spec (DataManager.len frame) end_row); lia).
  destruct (present frame cols) as [|c0 valid] eqn:Ev.
  - simpl. now rewrite flat_map_nil.
  - unfold cell_at, valid_context. rewrite Ev. destruct ctx; reflexivity.
Qed.

Lemma build_context_lookup frame row valid vctx :
  (forall c, In c vctx -> c <> "headers" ->
     dict_get c (DataManager.build_context frame row valid vctx)
     = Some (DataManager.loc frame row c))
  /\ exists h,
       dict_get "headers" (DataManager.build_context frame row valid vctx)
       = Some (PDict h)
       /\ forall c, dict_get c h
                    = if in_list c (valid ++ vctx) then Some c else None.
Proof.
  unfold DataManager.build_context. split.
  - intros c Hin Hne. rewrite dict_get_set_ne by congruence.
    rewrite (dict_get_fold_set (fun k => DataManager.loc frame row k)).
    apply in_list_In in Hin. now rewrite Hin.
  - eexists. split; [apply dict_get_set_eq|].
    intros c. apply (dict_get_fold_set (fun k => k)).
Qed.

(** C6, as it is stated, fails on a table that has a column called
    "headers": asked for as a context column, it is a valid context column,
    but the context mapping holds the synthetic entry under that key and not
    the value of the column. *)
Lemma read_range_loses_column_named_headers :
  let cells :=
    DataManager.get_range Examples.headers_table 0 1 ["Name"]
                          (Some ["headers"]) in
  In "headers" (valid_context Examples.headers_frame ["Name"] (Some ["headers"]))
  /\ exists cell context,
       In cell cells
       /\ Cell.context_data cell = Some context
       /\ DataManager.loc Examples.headers_frame (Cell.row cell) "headers"
          = PStr "h"
       /\ dict_get "headers" context
          = Some (PDict [("Name", "Name"); ("headers", "headers")])
       /\ dict_get "headers" context
          <> Some (DataManager.loc Examples.headers_frame (Cell.row cell)
                                   "headers").
Proof.
  split; [left; reflexivity|].
  eexists _, _. split; [left; reflexivity|].
  split; [reflexivity|]. split; [reflexivity|].
  split; [reflexivity|]. discriminate.
Qed.

(** C6, amended.  [get_range] returns nothing without a table.  On a table
    it reads the rows from [max 0 start_row] up to, not including,
    [min end_row (row count)] and the requested columns that exist, in row
    major order, and returns the empty list when none exists.  When there
    are valid context columns, every cell carries a context mapping that
    holds, for each valid context column not called "headers", the value of
    that column in the cell's row, and under "headers" a mapping that sends
    each processed and each valid context column name to itself and holds
    nothing else. *)
Theorem read_range_clamps_filters_and_attaches_context
    (self : DataManager.t) (start_row end_row : Z) (cols : list string)
    (ctx : option (list string)) :
  let cells := DataManager.get_range self start_row end_row cols ctx in
  (DataManager.df self = None -> cells = [])
  /\ forall frame, DataManager.df self = Some frame ->
     let valid := present frame cols in
     let vctx := valid_context frame cols ctx in
     let lo := Z.max 0 start_row in
     let hi := Z.min end_row (DataManager.len frame) in
     cells = DataManager.get_range self lo hi cols ctx
     /\ cells = DataManager.get_range self start_row end_row valid ctx
     /\ cells = flat_map (fun row => List.map (cell_at frame valid vctx row) valid)
                         (range2 lo hi)
     /\ (valid = [] -> cells = [])
     /\ forall cell, In cell cells ->
          lo <= Cell.row cell < hi
          /\ In (Cell.col cell) cols
          /\ In (Cell.col cell) (DataManager.columns frame)
          /\ Cell.content cell
             = DataManager.loc frame (Cell.row cell) (Cell.col cell)
          /\ (vctx = [] -> Cell.context_data cell = None)
          /\ (vctx <> [] ->
              exists context h,
                Cell.context_data cell = Some context
                /\ (forall c, In c vctx -> c <> "headers" ->
                      dict_get c context
                      = Some (DataManager.loc frame (Cell.row cell) c))
                /\ dict_get "headers" context = Some (PDict h)
                /\ forall c, dict_get c h
                             = if in_list c (valid ++ vctx)
                               then Some c else None).
Proof.
  intros cells. split.
  - intros Hdf. subst cells. unfold DataManager.get_range. now rewrite Hdf.
  - intros frame Hdf valid vctx lo hi.
    assert (Hform : cells
                    = flat_map (fun row => List.map (cell_at frame valid vctx row) valid)
                               (range2 lo hi))
      by (apply get_range_loaded; exact Hdf).
    split; [|split; [|split; [exact Hform|split]]].
    + rewrite Hform, (get_range_loaded _ frame) by exact Hdf.
      fold valid vctx. f_equal. f_equal; subst lo hi; lia.
    + rewrite Hform, (get_range_loaded _ frame) by exact Hdf.
      assert (Hv : present frame valid = valid) by apply filter_idem.
      assert (Hc : valid_context frame valid ctx = vctx)
        by (unfold valid_context; now rewrite Hv).
      now rewrite Hv, Hc.
    + intros Hnil. rewrite Hform, Hnil. apply flat_map_nil.
    + intros cell Hin. rewrite Hform in Hin.
      apply in_flat_map in Hin. destruct Hin as (row & Hrow & Hin).
      apply in_map_iff in Hin. destruct Hin as (c & <- & Hc).
      apply in_range2 in Hrow. simpl.
      apply filter_In in Hc. destruct Hc as [Hreq Hpresent].
      apply in_list_In in Hpresent.
      split; [exact Hrow|]. split; [exact Hreq|]. split; [exact Hpresent|].
      split; [reflexivity|]. split.
      * intros ->. reflexivity.
      * intros Hne.
        destruct (build_context_lookup frame row valid vctx) as (Hvals & h & Hh & Hkeys).
        exists (DataManager.build_context frame row valid vctx), h.
        split; [destruct vctx; [congruence | reflexivity]|].
        split; [exact Hvals|]. split; [exact Hh | exact Hkeys].
Qed.

(** ** The batch engine *)

Lemma completions_app (q q' : list BatchProcessor.ui_call) :
  BatchProcessor.completions (q ++ q')
  = BatchProcessor.completions q ++ BatchProcessor.completions q'.
Proof. apply flat_map_app. Qed.

Lemma progress_updates_app (q q' : list BatchProcessor.ui_call) :
  BatchProcessor.progress_updates (q ++ q')
  = BatchProcessor.progress_updates q ++ BatchProcessor.progress_updates q'.
Proof. apply flat_map_app. Qed.

Section EngineFacts.

Variable py_str : pyval -> string.
Variable Client : Type.
Variable client : Client -> cell_request -> fallible cell_reply * Client.
Variables flag cancel_at : nat -> bool.

Local Abbreviation M := (BatchProcessor.M Client).
Local Abbreviation state := (BatchProcessor.state Client).
Local Abbreviation bind := (@BatchProcessor.bind Client _ _).
Local Abbreviation delivered s := (BatchProcessor.completions (BatchProcessor.ui_queue s)).

(** A computation that schedules no completion call, however it ends. *)
Definition quiet {A : Type} (m : M A) : Prop :=
  forall s : state, delivered (m s).2 = delivered s.

(** A computation that schedules exactly one completion call when it
    returns, and none when it raises. *)
Definition completes_once {A : Type} (m : M A) : Prop :=
  forall s : state,
    match m s with
    | (Returns _, s') =>
        exists results ok failed,
          delivered s' = delivered s ++ [(results, ok, failed)]
    | (Raises _, s') => delivered s' = delivered s
    end.

Lemma quiet_bind {A B : Type} (m : M A) (k : A -> M B) :
  quiet m -> (forall a, quiet (k a)) -> quiet (bind m k).
Proof.
  intros Hm Hk s. unfold BatchProcessor.bind. specialize (Hm s).
  destruct (m s) as [[a|e] s1]; simpl in *; [|exact Hm].
  now rewrite Hk.
Qed.

Lemma completes_once_bind {A B : Type} (m : M A) (k : A -> M B) :
  quiet m -> (forall a, completes_once (k a)) -> completes_once (bind m k).
Proof.
  intros Hm Hk s. unfold BatchProcessor.bind. specialize (Hm s).
  destruct (m s) as [[a|e] s1]; simpl in *; [|exact Hm].
  specialize (Hk a s1). destruct (k a s1) as [[b|e] s2]; now rewrite <- Hm.
Qed.

Lemma quiet_ret {A : Type} (a : A) : quiet (BatchProcessor.ret Client a).
Proof. intros s. reflexivity. Qed.

Lemma quiet_get : quiet (BatchProcessor.get Client).
Proof. intros s. reflexivity. Qed.

Lemma quiet_processing_cancelled :
  quiet (BatchProcessor.processing_cancelled Client flag).
Proof. intros s. reflexivity. Qed.

Lemma quiet_suspend : quiet (BatchProcessor.suspend Client cancel_at).
Proof.
  intros s. unfold BatchProcessor.suspend, BatchProcessor.bind,
    BatchProcessor.tick; simpl.
  destruct (cancel_at (BatchProcessor.ticks s)); reflexivity.
Qed.

Lemma quiet_count_cell ok : quiet (BatchProcessor.count_cell Client ok).
Proof. intros s. reflexivity. Qed.

Lemma quiet_extend_results rs : quiet (BatchProcessor.extend_results Client rs).
Proof. intros s. reflexivity. Qed.

Lemma quiet_update_progress cb p ok failed total status :
  quiet (BatchProcessor._update_progress Client cb p ok failed total status).
Proof.
  intros s. destruct cb; simpl; [|reflexivity].
  rewrite completions_app. simpl. now rewrite app_nil_r.
Qed.

Lemma quiet_update_batch_progress cb p ok failed total a b c d :
  quiet (BatchProcessor._update_batch_progress Client cb p ok failed total a b c d).
Proof.
  intros s. destruct cb; simpl; [|reflexivity].
  rewrite completions_app. simpl. now rewrite app_nil_r.
Qed.

Lemma quiet_process_single_cell_async cell sp up temp mt :
  quiet (BatchProcessor._process_single_cell_async
           py_str Client client cancel_at cell sp up temp mt).
Proof.
  unfold BatchProcessor._process_single_cell_async.
  apply quiet_bind.
  - intros s. unfold BatchProcessor.call_client.
    destruct (client _ _); reflexivity.
  - intros r. apply quiet_bind; [apply quiet_suspend|].
    intros _. destruct r; apply quiet_ret.
Qed.

Lemma quiet_for_cells cells sp up temp mt pcb rest :
  forall idx len_batch batch_idx n_batches batch_results,
    quiet (BatchProcessor.for_cells py_str Client client flag cancel_at
             cells sp up temp mt pcb rest idx len_batch batch_idx n_batches
             batch_results).
Proof.
  induction rest as [|cell rest IH]; intros; cbn [BatchProcessor.for_cells];
    [apply quiet_ret|].
  apply quiet_bind; [apply quiet_processing_cancelled|].
  intros []; [apply quiet_ret|].
  apply quiet_bind; [apply quiet_process_single_cell_async|].
  intros [[ok result] error].
  apply quiet_bind; [apply quiet_count_cell|]. intros _.
  apply quiet_bind; [apply quiet_get|]. intros s.
  apply quiet_bind; [apply quiet_update_batch_progress|]. intros _.
  apply quiet_bind; [apply quiet_suspend|]. intros _. apply IH.
Qed.

Lemma quiet_for_batches cells sp up temp mt pcb rest :
  forall batch_idx n_batches,
    quiet (BatchProcessor.for_batches py_str Client client flag cancel_at
             cells sp up temp mt pcb rest batch_idx n_batches).
Proof.
  induction rest as [|batch rest IH]; intros; cbn [BatchProcessor.for_batches];
    [apply quiet_ret|].
  apply quiet_bind; [apply quiet_processing_cancelled|].
  intros []; [apply quiet_ret|].
  apply quiet_bind; [apply quiet_get|]. intros s.
  apply quiet_bind; [apply quiet_update_progress|]. intros _.
  apply quiet_bind; [apply quiet_for_cells|]. intros batch_results.
  apply quiet_bind; [apply quiet_extend_results|]. intros _.
  apply quiet_bind; [apply quiet_get|]. intros s'.
  apply quiet_bind; [apply quiet_update_progress|]. intros _.
  apply quiet_bind; [apply quiet_suspend|]. intros _. apply IH.
Qed.

Lemma quiet_split_batches cells batch_size :
  quiet (BatchProcessor.split_batches Client cells batch_size).
Proof.
  intros s. unfold BatchProcessor.split_batches.
  destruct (range _ _ _); reflexivity.
Qed.

Lemma completes_once_call_completion results ok failed :
  completes_once (BatchProcessor._call_completion Client true results ok failed).
Proof.
  intros s. simpl. exists results, ok, failed. now rewrite completions_app.
Qed.

Lemma completes_once_try_block cells sp up batch_size temp mt pcb :
  completes_once (BatchProcessor.try_block py_str Client client flag cancel_at
                    cells sp up batch_size temp mt pcb true).
Proof.
  unfold BatchProcessor.try_block.
  apply completes_once_bind; [apply quiet_split_batches|]. intros batches.
  apply completes_once_bind; [apply quiet_for_batches|]. intros _.
  unfold BatchProcessor.final_update.
  apply completes_once_bind; [apply quiet_processing_cancelled|]. intros c.
  apply completes_once_bind; [apply quiet_get|]. intros s.
  apply completes_once_bind; [apply quiet_update_progress|]. intros _.
  apply completes_once_call_completion.
Qed.

Lemma except_clauses_complete cells pcb e (s : state) :
  exists s' results ok failed,
    BatchProcessor.except_clauses Client cells pcb true e s = (Returns tt, s')
    /\ delivered s' = delivered s ++ [(results, ok, failed)].
Proof.
  destruct e as [|e], pcb; eexists _, _, _, _;
    (split; [reflexivity|]); cbn -[BatchProcessor.completions];
    rewrite !completions_app; cbn [BatchProcessor.completions flat_map app];
    rewrite ?app_nil_r; reflexivity.
Qed.

(** C1.  Whatever the tasks, the batch size, the client and the other
    threads do, a run of [_process_batches_async] that was given a
    completion callback returns without raising and has scheduled the
    completion callback exactly once: once at the end of the [try] block when
    the run goes through (to the end or to a [break] on the cancellation
    flag), once in the [except] clause when [CancelledError] or another
    exception leaves the batch loop. *)
Theorem completion_called_exactly_once
    (cells : list Cell.t) (sp up : string) (batch_size : Z) (temp : Q)
    (mt : Z) (pcb : bool) (c : Client) (now : nat)
    (queue : list BatchProcessor.ui_call) :
  exists (s' : state) results ok failed,
    BatchProcessor._process_batches_async py_str Client client flag cancel_at
      cells sp up batch_size temp mt pcb true c now queue
    = (Returns tt, s')
    /\ delivered s' = BatchProcessor.completions queue ++ [(results, ok, failed)].
Proof.
  unfold BatchProcessor._process_batches_async.
  match goal with
  | |- context [BatchProcessor.try_block _ _ _ _ _ _ _ _ _ _ _ _ _ ?s0] =>
      pose proof (completes_once_try_block cells sp up batch_size temp mt pcb s0)
        as H;
      destruct (BatchProcessor.try_block py_str Client client flag cancel_at
                  cells sp up batch_size temp mt pcb true s0) as [[[]|e] s1]
  end; simpl in H.
  - destruct H as (results & ok & failed & H). now exists s1, results, ok, failed.
  - destruct (except_clauses_complete cells pcb e s1)
      as (s' & results & ok & failed & E & Hd).
    exists s', results, ok, failed. split; [exact E|]. now rewrite Hd, H.
Qed.

(** *** Runs that are not cancelled *)

(** A computation that returns, whatever the state, and appends to
    [all_results] a list that, with the value returned, satisfies [P]. *)
Definition appends {A : Type} (m : M A)
    (P : A -> list CellResult.t -> Prop) : Prop :=
  forall s : state,
    exists a s' rs,
      m s = (Returns a, s')
      /\ BatchProcessor.all_results s' = BatchProcessor.all_results s ++ rs
      /\ P a rs.

Lemma appends_bind {A B : Type} (m : M A) (k : A -> M B)
    (P : A -> list CellResult.t -> Prop) (Q : B -> list CellResult.t -> Prop) :
  appends m P ->
  (forall a rs1, P a rs1 -> appends (k a) (fun b rs2 => Q b (rs1 ++ rs2))) ->
  appends (bind m k) Q.
Proof.
  intros Hm Hk s. destruct (Hm s) as (a & s1 & rs1 & E1 & Hr1 & HP).
  destruct (Hk a rs1 HP s1) as (b & s2 & rs2 & E2 & Hr2 & HQ).
  exists b, s2, (rs1 ++ rs2). unfold BatchProcessor.bind. rewrite E1.
  split; [exact E2|]. split; [|exact HQ].
  now rewrite Hr2, Hr1, app_assoc.
Qed.

(** A step that leaves [all_results] alone. *)
Lemma appends_nothing {A B : Type} (m : M A) (k : A -> M B)
    (P : A -> Prop) (Q : B -> list CellResult.t -> Prop) :
  appends m (fun a rs => rs = [] /\ P a) ->
  (forall a, P a -> appends (k a) Q) ->
  appends (bind m k) Q.
Proof.
  intros Hm Hk. apply (appends_bind _ _ _ _ Hm).
  intros a rs1 [-> HP]. exact (Hk a HP).
Qed.

Lemma appends_ret {A : Type} (a : A) :
  appends (BatchProcessor.ret Client a) (fun b rs => rs = [] /\ b = a).
Proof. intros s. exists a, s, []. now rewrite app_nil_r. Qed.

Lemma appends_get :
  appends (BatchProcessor.get Client) (fun _ rs => rs = [] /\ True).
Proof. intros s. exists s, s, []. now rewrite app_nil_r. Qed.

Lemma appends_count_cell ok :
  appends (BatchProcessor.count_cell Client ok) (fun _ rs => rs = [] /\ True).
Proof. intros s. eexists tt, _, []. simpl. now rewrite app_nil_r. Qed.

Lemma appends_extend_results brs :
  appends (BatchProcessor.extend_results Client brs) (fun _ rs => rs = brs).
Proof. intros s. eexists tt, _, brs. simpl. auto. Qed.

Lemma appends_update_progress cb p ok failed total status :
  appends (BatchProcessor._update_progress Client cb p ok failed total status)
          (fun _ rs => rs = [] /\ True).
Proof.
  intros s. destruct cb; eexists tt, _, []; simpl; now rewrite app_nil_r.
Qed.

Lemma appends_update_batch_progress cb p ok failed total a b c d :
  appends (BatchProcessor._update_batch_progress Client cb p ok failed total
                                                 a b c d)
          (fun _ rs => rs = [] /\ True).
Proof.
  intros s. destruct cb; eexists tt, _, []; simpl; now rewrite app_nil_r.
Qed.

Section Uncancelled.

Hypothesis flag_down : forall n, flag n = false.
Hypothesis not_cancelled : forall n, cancel_at n = false.

Lemma appends_processing_cancelled :
  appends (BatchProcessor.processing_cancelled Client flag)
          (fun cancelled rs => rs = [] /\ cancelled = false).
Proof.
  intros s. eexists false, _, []. unfold BatchProcessor.processing_cancelled,
    BatchProcessor.bind, BatchProcessor.tick, BatchProcessor.ret.
  rewrite flag_down. simpl. now rewrite app_nil_r.
Qed.

Lemma appends_suspend :
  appends (BatchProcessor.suspend Client cancel_at) (fun _ rs => rs = [] /\ True).
Proof.
  intros s. eexists tt, _, []. unfold BatchProcessor.suspend,
    BatchProcessor.bind, BatchProcessor.tick, BatchProcessor.ret.
  cbn [fst snd BatchProcessor.ticks]. rewrite not_cancelled. simpl.
  now rewrite app_nil_r.
Qed.

Lemma appends_process_single_cell_async cell sp up temp mt :
  appends (BatchProcessor._process_single_cell_async
             py_str Client client cancel_at cell sp up temp mt)
          (fun _ rs => rs = [] /\ True).
Proof.
  unfold BatchProcessor._process_single_cell_async.
  apply (appends_nothing _ _ (fun _ => True)).
  - intros s. unfold BatchProcessor.call_client.
    destruct (client _ _) as [r c']. eexists r, _, []. simpl.
    now rewrite app_nil_r.
  - intros r _. apply (appends_nothing _ _ (fun _ => True));
      [apply appends_suspend|].
    intros _ _. destruct r as [reply|e]; intros s; eexists _, s, [];
      simpl; now rewrite app_nil_r.
Qed.

Lemma appends_for_cells cells sp up temp mt pcb rest :
  forall idx len_batch batch_idx n_batches acc,
    appends (BatchProcessor.for_cells py_str Client client flag cancel_at
               cells sp up temp mt pcb rest idx len_batch batch_idx n_batches
               acc)
            (fun out rs =>
               rs = []
               /\ exists new, out = acc ++ new
                             /\ List.map result_key new = List.map task_key rest).
Proof.
  induction rest as [|cell rest IH]; intros; cbn [BatchProcessor.for_cells].
  - intros s. exists acc, s, []. rewrite !app_nil_r.
    repeat split. exists []. now rewrite app_nil_r.
  - apply (appends_nothing _ _ _ _ appends_processing_cancelled).
    intros cancelled ->.
    apply (appends_nothing _ _ _ _
             (appends_process_single_cell_async cell sp up temp mt)).
    intros [[ok result] error] _.
    apply (appends_nothing _ _ _ _ (appends_count_cell ok)). intros _ _.
    apply (appends_nothing _ _ _ _ appends_get). intros s _.
    apply (appends_nothing _ _ _ _ (appends_update_batch_progress _ _ _ _ _ _ _ _ _)).
    intros _ _.
    apply (appends_nothing _ _ _ _ appends_suspend). intros _ _.
    intros s0.
    destruct (IH (S idx) len_batch batch_idx n_batches
                 (acc ++ [{| CellResult.row := Cell.row cell;
                             CellResult.col := Cell.col cell;
                             CellResult.success := ok;
                             CellResult.result := result;
                             CellResult.error := error |}]) s0)
      as (out & s' & rs & E & Hr & -> & new & -> & Hkeys).
    eexists _, s', []. split; [exact E|]. split; [exact Hr|].
    split; [reflexivity|]. eexists (_ :: new).
    split; [now rewrite <- app_assoc|]. simpl. now rewrite Hkeys.
Qed.

Lemma appends_for_batches cells sp up temp mt pcb rest :
  forall batch_idx n_batches,
    appends (BatchProcessor.for_batches py_str Client client flag cancel_at
               cells sp up temp mt pcb rest batch_idx n_batches)
            (fun _ rs => List.map result_key rs = List.map task_key (concat rest)).
Proof.
  induction rest as [|batch rest IH]; intros; cbn [BatchProcessor.for_batches].
  - intros s. exists tt, s, []. now rewrite app_nil_r.
  - apply (appends_nothing _ _ _ _ appends_processing_cancelled).
    intros cancelled ->.
    apply (appends_nothing _ _ _ _ appends_get). intros s _.
    apply (appends_nothing _ _ _ _ (appends_update_progress _ _ _ _ _ _)).
    intros _ _.
    apply (appends_nothing _ _ _ _
             (appends_for_cells cells sp up temp mt pcb batch 0
                                (length batch) batch_idx n_batches [])).
    intros batch_results (new & -> & Hkeys). simpl.
    apply (appends_bind _ _ _ _ (appends_extend_results new)).
    intros _ rs1 ->.
    apply (appends_nothing _ _ _ _ appends_get). intros s' _.
    apply (appends_nothing _ _ _ _ (appends_update_progress _ _ _ _ _ _)).
    intros _ _.
    apply (appends_nothing _ _ _ _ appends_suspend). intros _ _.
    intros s0. destruct (IH (S batch_idx) n_batches s0)
      as (u & s1 & rs & E & Hr & Hk).
    exists u, s1, rs. split; [exact E|]. split; [exact Hr|].
    cbn [concat]. now rewrite !map_app, Hkeys, Hk.
Qed.

End Uncancelled.

End EngineFacts.

(** *** Partition into batches *)

Lemma firstn_plus {A : Type} (a b : nat) (l : list A) :
  firstn a l ++ firstn b (skipn a l) = firstn (a + b) l.
Proof.
  revert l. induction a as [|a IH]; intros l; [reflexivity|].
  destruct l as [|x l]; simpl.
  - now rewrite firstn_nil.
  - now rewrite IH.
Qed.

Lemma chunks_concat {A : Type} (b : nat) (l : list A) (m : nat) :
  concat (List.map (fun k => firstn b (skipn (k * b) l)) (seq 0 m))
  = firstn (m * b) l.
Proof.
  induction m as [|m IH]; [reflexivity|].
  rewrite seq_S, map_app, concat_app, IH. simpl.
  rewrite app_nil_r, firstn_plus. f_equal. lia.
Qed.

Lemma slice_chunk {A : Type} (l : list A) (i size : Z) :
  0 <= i -> 0 < size ->
  slice l i (i + size) = firstn (Z.to_nat size) (skipn (Z.to_nat i) l).
Proof.
  intros Hi Hsize. unfold slice.
  destruct (Z.ltb_spec i 0); [lia|].
  destruct (Z.ltb_spec (i + size) 0); [lia|].
  set (n := Z.of_nat (length l)).
  destruct (Z.le_gt_cases n i) as [Hout|Hin].
  - rewrite !Z.min_r by lia. rewrite Z.sub_diag. simpl.
    rewrite (skipn_all2 l (n := Z.to_nat i)) by lia. now rewrite firstn_nil.
  - rewrite (Z.min_l i n) by lia.
    destruct (Z.le_gt_cases (i + size) n) as [Hfull|Hshort].
    + rewrite Z.min_l by lia. f_equal. lia.
    + rewrite Z.min_r by lia.
      rewrite !firstn_all2; [reflexivity | |]; rewrite length_skipn; lia.
Qed.

Lemma range_positive (n size : Z) :
  0 < size -> 0 <= n ->
  exists m : nat,
    range 0 n size = Ok (List.map (fun k => Z.of_nat k * size) (seq 0 m))
    /\ n <= Z.of_nat m * size.
Proof.
  intros Hsize Hn. unfold range.
  destruct (Z.eqb_spec size 0); [lia|].
  destruct (Z.ltb_spec 0 size); [|lia].
  destruct (Z.ltb_spec 0 n).
  - exists (Z.to_nat ((n - 0 + size - 1) / size)). split; [reflexivity|].
    rewrite Z2Nat.id by (apply Z.div_pos; lia).
    pose proof (Z.div_mod (n - 0 + size - 1) size ltac:(lia)) as Hdm.
    pose proof (Z.mod_pos_bound (n - 0 + size - 1) size Hsize) as Hb.
    nia.
  - exists 0%nat. split; [reflexivity|]. lia.
Qed.

Lemma split_batches_positive (Client : Type) (cells : list Cell.t)
    (batch_size : Z) (s : BatchProcessor.state Client) :
  0 < batch_size ->
  exists batches,
    BatchProcessor.split_batches Client cells batch_size s = (Returns batches, s)
    /\ concat batches = cells.
Proof.
  intros Hsize. unfold BatchProcessor.split_batches.
  destruct (range_positive (Z.of_nat (length cells)) batch_size Hsize ltac:(lia))
    as (m & -> & Hm).
  eexists. split; [reflexivity|].
  rewrite map_map.
  rewrite (map_ext _ (fun k => firstn (Z.to_nat batch_size)
                                      (skipn (k * Z.to_nat batch_size) cells))).
  - rewrite chunks_concat. apply firstn_all2. nia.
  - intros k. rewrite slice_chunk by lia. do 2 f_equal. nia.
Qed.

(** *** Order of the results *)

(** C2, as it is stated, fails for a batch size that is not positive: with
    batch size -1 the list of batches is empty, the run goes through to
    "Processing completed" without any cancellation, and the completion
    callback receives no result for two tasks. *)
Lemma negative_batch_size_delivers_nothing :
  let cells := [Examples.task 0; Examples.task 1] in
  let out := Examples.run Examples.never Examples.never cells (-1) in
  out.1 = Returns tt
  /\ BatchProcessor.progress_updates (BatchProcessor.ui_queue out.2)
     = [(0, 0, 0, 2, "Processing completed")]%nat
  /\ exists results ok failed,
       BatchProcessor.completions (BatchProcessor.ui_queue out.2)
       = [(results, ok, failed)]
       /\ length results <> length cells.
Proof.
  split; [reflexivity|]. split; [reflexivity|].
  exists [], 0%nat, 0%nat. split; [reflexivity | discriminate].
Qed.

(** C2, amended.  For every task list and every positive batch size, a run
    in which the cancellation flag is never seen raised and the task is
    never cancelled returns with exactly one completion call; its result
    list is as long as the task list, and its i-th result carries the row
    and the column of the i-th task. *)
Theorem results_follow_tasks_in_order
    (py_str : pyval -> string) (Client : Type)
    (client : Client -> cell_request -> fallible cell_reply * Client)
    (flag cancel_at : nat -> bool)
    (cells : list Cell.t) (sp up : string) (batch_size : Z) (temp : Q)
    (mt : Z) (pcb : bool) (c : Client) (now : nat)
    (queue : list BatchProcessor.ui_call) :
  0 < batch_size ->
  (forall n, flag n = false) ->
  (forall n, cancel_at n = false) ->
  exists s' results ok failed,
    BatchProcessor._process_batches_async py_str Client client flag cancel_at
      cells sp up batch_size temp mt pcb true c now queue
    = (Returns tt, s')
    /\ BatchProcessor.completions (BatchProcessor.ui_queue s')
       = BatchProcessor.completions queue ++ [(results, ok, failed)]
    /\ length results = length cells
    /\ List.map result_key results = List.map task_key cells
    /\ forall (i : nat) task,
         cells !! i = Some task ->
         exists r, results !! i = Some r /\ result_key r = task_key task.
Proof.
  intros Hsize Hflag Hcancel.
  unfold BatchProcessor._process_batches_async, BatchProcessor.try_block.
  set (s0 := {| BatchProcessor.api_manager := c; BatchProcessor.ticks := now;
                BatchProcessor.ui_queue := queue;
                BatchProcessor.processed := 0;
                BatchProcessor.success_count := 0;
                BatchProcessor.error_count := 0;
                BatchProcessor.all_results := [] |}).
  destruct (split_batches_positive Client cells batch_size s0 Hsize)
    as (batches & Esplit & Hconcat).
  destruct (appends_for_batches py_str Client client flag cancel_at
              Hflag Hcancel cells sp up temp mt pcb batches 0 (length batches) s0)
    as ([] & s1 & rs & Eloop & Hres & Hkeys).
  pose proof (quiet_for_batches py_str Client client flag cancel_at
                cells sp up temp mt pcb batches 0 (length batches) s0) as Hquiet.
  rewrite Eloop in Hquiet. cbn [snd] in Hquiet.
  unfold BatchProcessor.bind at 1. rewrite Esplit.
  unfold BatchProcessor.bind at 1. rewrite Eloop.
  simpl in Hres. rewrite Hconcat in Hkeys.
  assert (Hlen : length rs = length cells)
    by (rewrite <- (length_map result_key rs), Hkeys; apply length_map).
  subst rs. set (rs := BatchProcessor.all_results s1) in *.
  match goal with
  | |- ex (fun _ => ex (fun _ => ex (fun _ => ex (fun _ => ?rest = _ /\ _)))) =>
      assert (Hend : exists s' ok failed,
        rest = (Returns tt, s')
        /\ BatchProcessor.completions (BatchProcessor.ui_queue s')
           = BatchProcessor.completions (BatchProcessor.ui_queue s1)
               ++ [(rs, ok, failed)])
  end.
  { destruct pcb; eexists _, _, _; (split; [reflexivity|]);
      cbn -[BatchProcessor.completions]; rewrite !completions_app;
      cbn [BatchProcessor.completions flat_map app];
      rewrite ?app_nil_r; reflexivity. }
  destruct Hend as (s' & ok & failed & Eend & Hdelivered).
  exists s', rs, ok, failed.
  split; [exact Eend|].
  split; [now rewrite Hdelivered, Hquiet|].
  split; [exact Hlen|]. split; [exact Hkeys|].
  intros i task Hi.
  assert (Hk : List.map result_key rs !! i = Some (task_key task))
    by (rewrite Hkeys; change (List.map task_key cells) with (task_key <$> cells);
        now rewrite list_lookup_fmap, Hi).
  change (List.map result_key rs) with (result_key <$> rs) in Hk.
  rewrite list_lookup_fmap in Hk.
  destruct (rs !! i) as [r|]; [|discriminate].
  exists r. split; [reflexivity|]. simpl in Hk. congruence.
Qed.

(** *** Counts and results on cancellation *)

(** When the cancellation flag is seen raised before the second cell of a
    batch, the loop breaks, the results of the open batch are added to
    [all_results], and the completion callback receives one result for one
    processed cell. *)
Lemma flag_seen_mid_batch_keeps_results :
  let out :=
    Examples.run (Examples.at_point 4) Examples.never
                 [Examples.task 0; Examples.task 1] 2 in
  out.1 = Returns tt
  /\ BatchProcessor.processed out.2 = 1%nat
  /\ BatchProcessor.completions (BatchProcessor.ui_queue out.2)
     = [([Examples.done 0], 1%nat, 0%nat)].
Proof. repeat split. Qed.

(** C3 fails on the code.  Two tasks in one batch of two, a client that
    succeeds, and the task cancelled while the coroutine sleeps after the
    first cell: [CancelledError] leaves the loop before
    [all_results.extend(batch_results)], so the [except] clause reports one
    processed and one succeeded cell and hands the completion callback an
    empty result list. *)
Theorem task_cancelled_mid_batch_loses_results :
  let out :=
    Examples.run Examples.never (Examples.at_point 3)
                 [Examples.task 0; Examples.task 1] 2 in
  out.1 = Returns tt
  /\ BatchProcessor.processed out.2 = 1%nat
  /\ BatchProcessor.ui_queue out.2
     = [BatchProcessor.Progress 0 0 0 2 "Processing batch 1 of 1...";
        BatchProcessor.Progress 1 1 0 2 "Processing batch 1 of 1: 1/2 cells";
        BatchProcessor.Progress 1 1 0 2 "Processing cancelled";
        BatchProcessor.Completion [] 1 0]
  /\ BatchProcessor.completions (BatchProcessor.ui_queue out.2)
     = [([], 1%nat, 0%nat)]
  /\ length ([] : list CellResult.t) <> BatchProcessor.processed out.2.
Proof. repeat split. discriminate. Qed.

(** *** A batch size that is not positive *)

(** C10, as it is stated, fails for a negative batch size: [range] with a
    negative step is empty, nothing is raised, the [try] block runs to its
    end, and the only progress update says "Processing completed". *)
Lemma negative_batch_size_raises_nothing :
  let cells := [Examples.task 0] in
  let s0 :=
    {| BatchProcessor.api_manager := 0%nat; BatchProcessor.ticks := 0%nat;
       BatchProcessor.ui_queue := []; BatchProcessor.processed := 0%nat;
       BatchProcessor.success_count := 0%nat;
       BatchProcessor.error_count := 0%nat;
       BatchProcessor.all_results := [] |} in
  (BatchProcessor.split_batches nat cells (-2) s0).1 = Returns []
  /\ (BatchProcessor.try_block Examples.str_simple nat Examples.always_ok
        Examples.never Examples.never cells "system" "user" (-2)
        (3 # 10)%Q 150 true true s0).1 = Returns tt
  /\ BatchProcessor.ui_queue
       (Examples.run Examples.never Examples.never cells (-2)).2
     = [BatchProcessor.Progress 0 0 0 1 "Processing completed";
        BatchProcessor.Completion [] 0 0].
Proof. repeat split. Qed.

Lemma range_not_positive (n size : Z) :
  size <= 0 -> 0 <= n ->
  range 0 n size
  = if size =? 0 then Fault (ValueError "range() arg 3 must not be zero")
    else Ok [].
Proof.
  intros Hsize Hn. unfold range.
  destruct (Z.eqb_spec size 0); [reflexivity|].
  destruct (Z.ltb_spec 0 size); [lia|].
  destruct (Z.ltb_spec n 0); [lia|]. reflexivity.
Qed.

(** C10, amended.  With a batch size that is not positive and both
    callbacks given, the run returns without raising and schedules exactly
    one progress update and then exactly one completion call, with an empty
    result list and the counts (0, 0).  For batch size 0 the partitioning
    raises, the error is caught and the progress update carries its text;
    for a negative batch size nothing is raised, there is no batch, and the
    progress update says "Processing completed" (or "Processing cancelled"
    when the flag is up at that moment). *)
Theorem non_positive_batch_size_completes_empty
    (py_str : pyval -> string) (Client : Type)
    (client : Client -> cell_request -> fallible cell_reply * Client)
    (flag cancel_at : nat -> bool)
    (cells : list Cell.t) (sp up : string) (batch_size : Z) (temp : Q)
    (mt : Z) (c : Client) (now : nat) (queue : list BatchProcessor.ui_call) :
  batch_size <= 0 ->
  let status :=
    if batch_size =? 0 then "Error: range() arg 3 must not be zero"
    else if flag now then "Processing cancelled"
    else "Processing completed" in
  exists s',
    BatchProcessor._process_batches_async py_str Client client flag cancel_at
      cells sp up batch_size temp mt true true c now queue
    = (Returns tt, s')
    /\ BatchProcessor.ui_queue s'
       = queue ++ [BatchProcessor.Progress 0 0 0 (length cells) status;
                   BatchProcessor.Completion [] 0 0]
    /\ BatchProcessor.api_manager s' = c.
Proof.
  intros Hsize status. subst status.
  unfold BatchProcessor._process_batches_async, BatchProcessor.try_block.
  unfold BatchProcessor.bind at 1. unfold BatchProcessor.split_batches.
  rewrite range_not_positive by lia.
  destruct (Z.eqb_spec batch_size 0) as [->|Hneg].
  - eexists. split; [reflexivity|]. cbn. now rewrite <- app_assoc.
  - cbn. destruct (flag now); eexists; (split; [reflexivity|]); cbn;
      now rewrite <- app_assoc.
Qed.

(** *** Counts when the task is not cancelled *)

Section Conservation.

Variable py_str : pyval -> string.
Variable Client : Type.
Variable client : Client -> cell_request -> fallible cell_reply * Client.
Variables flag cancel_at : nat -> bool.
Hypothesis not_cancelled : forall n, cancel_at n = false.

Local Abbreviation M := (BatchProcessor.M Client).
Local Abbreviation state := (BatchProcessor.state Client).
Local Abbreviation bind := (@BatchProcessor.bind Client _ _).

(** A property of the counters and of the results held. *)
Definition on_counters
    (F : nat -> nat -> nat -> list CellResult.t -> Prop) (s : state) : Prop :=
  F (BatchProcessor.processed s) (BatchProcessor.success_count s)
    (BatchProcessor.error_count s) (BatchProcessor.all_results s).

(** From a state in [P] the computation returns, in a state in [Q]. *)
Definition hoare {A : Type} (P : state -> Prop) (m : M A)
    (Q : A -> state -> Prop) : Prop :=
  forall s, P s -> exists a s', m s = (Returns a, s') /\ Q a s'.

(** The computation returns and leaves counters and results alone. *)
Definition steady {A : Type} (m : M A) : Prop :=
  forall s : state,
    exists a s',
      m s = (Returns a, s')
      /\ BatchProcessor.processed s' = BatchProcessor.processed s
      /\ BatchProcessor.success_count s' = BatchProcessor.success_count s
      /\ BatchProcessor.error_count s' = BatchProcessor.error_count s
      /\ BatchProcessor.all_results s' = BatchProcessor.all_results s.

Lemma hoare_bind {A B : Type} (P : state -> Prop) (m : M A)
    (Q : A -> state -> Prop) (k : A -> M B) (R : B -> state -> Prop) :
  hoare P m Q -> (forall a, hoare (Q a) (k a) R) -> hoare P (bind m k) R.
Proof.
  intros Hm Hk s HP. destruct (Hm s HP) as (a & s1 & E1 & HQ).
  destruct (Hk a s1 HQ) as (b & s2 & E2 & HR).
  exists b, s2. unfold BatchProcessor.bind. rewrite E1. now split.
Qed.

Lemma hoare_steady {A B : Type} F (m : M A) (k : A -> M B)
    (R : B -> state -> Prop) :
  steady m ->
  (forall a, hoare (on_counters F) (k a) R) ->
  hoare (on_counters F) (bind m k) R.
Proof.
  intros Hm Hk. apply (hoare_bind _ _ (fun _ => on_counters F)); [|exact Hk].
  intros s HP. destruct (Hm s) as (a & s' & E & Hp & Hs & He & Hr).
  exists a, s'. split; [exact E|]. unfold on_counters in *.
  now rewrite Hp, Hs, He, Hr.
Qed.

Lemma steady_get : steady (BatchProcessor.get Client).
Proof. intros s. exists s, s. auto. Qed.

Lemma steady_processing_cancelled :
  steady (BatchProcessor.processing_cancelled Client flag).
Proof. intros s. eexists _, _. split; [reflexivity|]. simpl. auto. Qed.

Lemma steady_suspend : steady (BatchProcessor.suspend Client cancel_at).
Proof.
  intros s. unfold BatchProcessor.suspend, BatchProcessor.bind,
    BatchProcessor.tick. cbn [fst snd BatchProcessor.ticks].
  rewrite not_cancelled. eexists _, _. split; [reflexivity|]. simpl. auto.
Qed.

Lemma steady_update_progress cb p ok failed total status :
  steady (BatchProcessor._update_progress Client cb p ok failed total status).
Proof.
  intros s. destruct cb; eexists _, _; (split; [reflexivity|]); simpl; auto.
Qed.

Lemma steady_update_batch_progress cb p ok failed total a b c d :
  steady (BatchProcessor._update_batch_progress Client cb p ok failed total
                                                a b c d).
Proof.
  intros s. destruct cb; eexists _, _; (split; [reflexivity|]); simpl; auto.
Qed.

Lemma steady_process_single_cell_async cell sp up temp mt :
  steady (BatchProcessor._process_single_cell_async
            py_str Client client cancel_at cell sp up temp mt).
Proof.
  intros s. unfold BatchProcessor._process_single_cell_async,
    BatchProcessor.bind, BatchProcessor.call_client, BatchProcessor.suspend,
    BatchProcessor.bind, BatchProcessor.tick.
  destruct (client _ _) as [r c']. cbn [fst snd BatchProcessor.ticks].
  rewrite not_cancelled.
  destruct r; eexists _, _; (split; [reflexivity|]); simpl; auto.
Qed.

(** The invariant of the loops: every processed cell is counted once, as a
    success or as a failure, and its result is held, in [all_results] or
    among the [pending] results of the open batch. *)
Definition balanced (pending : list CellResult.t) (held : nat)
    (p ok failed : nat) (rs : list CellResult.t) : Prop :=
  p = (ok + failed)%nat
  /\ p = (length rs + length pending)%nat
  /\ length rs = held.

Lemma for_cells_balanced cells sp up temp mt pcb rest :
  forall idx len_batch batch_idx n_batches acc held,
    hoare (on_counters (balanced acc held))
          (BatchProcessor.for_cells py_str Client client flag cancel_at
             cells sp up temp mt pcb rest idx len_batch batch_idx n_batches
             acc)
          (fun out s =>
             on_counters (balanced out held) s
             /\ (length out <= length acc + length rest)%nat).
Proof.
  induction rest as [|cell rest IH]; intros; cbn [BatchProcessor.for_cells].
  - intros s HP. exists acc, s. split; [reflexivity|]. split; [exact HP | lia].
  - apply hoare_steady; [apply steady_processing_cancelled|].
    intros [].
    + intros s HP. exists acc, s. split; [reflexivity|].
      split; [exact HP | simpl; lia].
    + apply hoare_steady; [apply steady_process_single_cell_async|].
      intros [[ok result] error].
      set (acc' := acc ++ [_]).
      apply (hoare_bind _ _ (fun _ => on_counters (balanced acc' held))).
      * intros s (Hsum & Hheld & Hlen). eexists tt, _.
        split; [reflexivity|]. unfold on_counters, balanced; simpl.
        subst acc'. rewrite length_app; simpl.
        destruct ok; repeat split; lia.
      * intros _.
        apply hoare_steady; [apply steady_get|]. intros s.
        apply hoare_steady; [apply steady_update_batch_progress|]. intros _.
        apply hoare_steady; [apply steady_suspend|]. intros _.
        intros s0 HP.
        destruct (IH (S idx) len_batch batch_idx n_batches acc' held s0 HP)
          as (out & s1 & E & HQ & Hle).
        exists out, s1. split; [exact E|]. split; [exact HQ|].
        subst acc'. rewrite length_app in Hle. simpl in *. lia.
Qed.

Lemma hoare_weaken {A : Type} (P : state -> Prop) (m : M A)
    (Q Q' : A -> state -> Prop) :
  hoare P m Q -> (forall a s, Q a s -> Q' a s) -> hoare P m Q'.
Proof.
  intros Hm HQ s HP. destruct (Hm s HP) as (a & s' & E & H).
  exists a, s'. split; [exact E | now apply HQ].
Qed.

Lemma extend_results_balanced out held :
  hoare (on_counters (balanced out held))
        (BatchProcessor.extend_results Client out)
        (fun _ => on_counters (balanced [] (held + length out))).
Proof.
  intros s (Hsum & Hheld & Hlen). eexists tt, _. split; [reflexivity|].
  unfold on_counters, balanced; simpl. rewrite length_app.
  repeat split; lia.
Qed.

Lemma for_batches_balanced cells sp up temp mt pcb rest :
  forall batch_idx n_batches held,
    hoare (on_counters (balanced [] held))
          (BatchProcessor.for_batches py_str Client client flag cancel_at
             cells sp up temp mt pcb rest batch_idx n_batches)
          (fun _ s =>
             exists held',
               on_counters (balanced [] held') s
               /\ (held' <= held + length (concat rest))%nat).
Proof.
  induction rest as [|batch rest IH]; intros; cbn [BatchProcessor.for_batches].
  - intros s HP. exists tt, s. split; [reflexivity|]. exists held.
    split; [exact HP | lia].
  - apply hoare_steady; [apply steady_processing_cancelled|].
    intros [].
    + intros s HP. exists tt, s. split; [reflexivity|]. exists held.
      split; [exact HP | lia].
    + apply hoare_steady; [apply steady_get|]. intros s.
      apply hoare_steady; [apply steady_update_progress|]. intros _.
      eapply hoare_bind; [apply for_cells_balanced|].
      intros out s1 [Hbal Hle]. revert s1 Hbal.
      change (hoare (on_counters (balanced out held))
                (bind (BatchProcessor.extend_results Client out)
                   (fun _ =>
                      bind (BatchProcessor.get Client)
                        (fun s' =>
                           bind (BatchProcessor._update_progress Client pcb
                                   (BatchProcessor.processed s')
                                   (BatchProcessor.success_count s')
                                   (BatchProcessor.error_count s')
                                   (length cells)
                                   ("Completed batch "
                                      +:+ str_nat (batch_idx + 1)
                                      +:+ " of " +:+ str_nat n_batches))
                             (fun _ =>
                                bind (BatchProcessor.suspend Client cancel_at)
                                  (fun _ =>
                                     BatchProcessor.for_batches
                                       py_str Client client flag cancel_at
                                       cells sp up temp mt pcb rest
                                       (S batch_idx) n_batches)))))
                (fun _ s =>
                   exists held',
                     on_counters (balanced [] held') s
                     /\ (held' <= held + length (concat (batch :: rest)))%nat)).
      eapply hoare_bind; [apply extend_results_balanced|]. intros u. cbv beta.
      apply hoare_steady; [apply steady_get|]. intros s'.
      apply hoare_steady; [apply steady_update_progress|]. intros _.
      apply hoare_steady; [apply steady_suspend|]. intros _.
      eapply hoare_weaken; [apply IH|].
      intros _ s2 (held' & HQ & Hle'). exists held'. split; [exact HQ|].
      cbn [concat]. rewrite length_app. simpl in Hle. lia.
Qed.

Lemma final_update_delivers cells pcb (s : state) :
  exists s',
    BatchProcessor.final_update Client flag cells pcb true s = (Returns tt, s')
    /\ BatchProcessor.completions (BatchProcessor.ui_queue s')
       = BatchProcessor.completions (BatchProcessor.ui_queue s)
           ++ [(BatchProcessor.all_results s, BatchProcessor.success_count s,
                BatchProcessor.error_count s)]
    /\ BatchProcessor.processed s' = BatchProcessor.processed s.
Proof.
  destruct pcb; eexists; (split; [cbn; reflexivity|]); (split; [|reflexivity]);
    cbn -[BatchProcessor.completions]; rewrite !completions_app;
    cbn [BatchProcessor.completions flat_map app];
    rewrite ?app_nil_r; reflexivity.
Qed.

Lemma except_clauses_deliver cells pcb e (s : state) :
  exists s',
    BatchProcessor.except_clauses Client cells pcb true e s = (Returns tt, s')
    /\ BatchProcessor.completions (BatchProcessor.ui_queue s')
       = BatchProcessor.completions (BatchProcessor.ui_queue s)
           ++ [(BatchProcessor.all_results s, BatchProcessor.success_count s,
                BatchProcessor.error_count s)]
    /\ BatchProcessor.processed s' = BatchProcessor.processed s.
Proof.
  destruct e as [|e], pcb; eexists; (split; [reflexivity|]);
    (split; [|reflexivity]);
    cbn -[BatchProcessor.completions]; rewrite !completions_app;
    cbn [BatchProcessor.completions flat_map app];
    rewrite ?app_nil_r; reflexivity.
Qed.

(** As long as the task itself is not cancelled, and whatever the batch
    size and the cancellation flag do, the counts handed to the completion
    callback add up to the number of results handed to it, which is the
    number of cells processed and at most the number of tasks. *)
Lemma counts_conserved_unless_task_cancelled
    (cells : list Cell.t) (sp up : string) (batch_size : Z) (temp : Q)
    (mt : Z) (pcb : bool) (c : Client) (now : nat)
    (queue : list BatchProcessor.ui_call) :
  exists (s' : state) results ok failed,
    BatchProcessor._process_batches_async py_str Client client flag cancel_at
      cells sp up batch_size temp mt pcb true c now queue
    = (Returns tt, s')
    /\ BatchProcessor.completions (BatchProcessor.ui_queue s')
       = BatchProcessor.completions queue ++ [(results, ok, failed)]
    /\ (ok + failed)%nat = length results
    /\ BatchProcessor.processed s' = length results
    /\ (length results <= length cells)%nat.
Proof.
  unfold BatchProcessor._process_batches_async, BatchProcessor.try_block.
  set (s0 := {| BatchProcessor.api_manager := c; BatchProcessor.ticks := now;
                BatchProcessor.ui_queue := queue;
                BatchProcessor.processed := 0;
                BatchProcessor.success_count := 0;
                BatchProcessor.error_count := 0;
                BatchProcessor.all_results := [] |}).
  assert (Hbatches :
    (exists e, BatchProcessor.split_batches Client cells batch_size s0
               = (Raises (Exc e), s0))
    \/ exists batches,
         BatchProcessor.split_batches Client cells batch_size s0
         = (Returns batches, s0)
         /\ (length (concat batches) <= length cells)%nat).
  { destruct (Z.lt_trichotomy batch_size 0) as [Hneg|[->|Hpos]].
    - right. exists []. unfold BatchProcessor.split_batches.
      rewrite range_not_positive by lia.
      destruct (Z.eqb_spec batch_size 0); [lia|]. split; [reflexivity|].
      simpl. lia.
    - left. eexists. reflexivity.
    - right. destruct (split_batches_positive Client cells batch_size s0 Hpos)
        as (batches & E & Hconcat).
      exists batches. split; [exact E|]. rewrite Hconcat. lia. }
  destruct Hbatches as [[e Esplit]|(batches & Esplit & Hbound)].
  - unfold BatchProcessor.bind at 1. rewrite Esplit.
    destruct (except_clauses_deliver cells pcb (Exc e) s0)
      as (s' & E & Hd & Hp).
    exists s', [], 0%nat, 0%nat. split; [exact E|].
    split; [exact Hd|]. rewrite Hp. simpl. repeat split; lia.
  - unfold BatchProcessor.bind at 1. rewrite Esplit.
    destruct (for_batches_balanced cells sp up temp mt pcb batches 0
                (length batches) 0 s0) as ([] & s1 & Eloop & held & HQ & Hle).
    { unfold on_counters, balanced. simpl. repeat split. }
    pose proof (quiet_for_batches py_str Client client flag cancel_at
                  cells sp up temp mt pcb batches 0 (length batches) s0)
      as Hquiet.
    rewrite Eloop in Hquiet. cbn [snd] in Hquiet.
    unfold BatchProcessor.bind at 1. rewrite Eloop.
    destruct (final_update_delivers cells pcb s1) as (s' & E & Hd & Hp).
    destruct HQ as (Hsum & Hheld & Hlen).
    exists s', (BatchProcessor.all_results s1),
      (BatchProcessor.success_count s1), (BatchProcessor.error_count s1).
    split; [now rewrite E|]. split; [now rewrite Hd, Hquiet|].
    simpl in Hheld. repeat split; lia.
Qed.

End Conservation.

(** ** The properties on concrete inputs *)

(** C2 on three tasks in batches of two. *)
Lemma results_follow_tasks_in_order_witness :
  (0 < 2 /\ (forall n, Examples.never n = false))
  /\ exists s' results ok failed,
       Examples.run Examples.never Examples.never
         [Examples.task 0; Examples.task 1; Examples.task 2] 2
       = (Returns tt, s')
       /\ BatchProcessor.completions (BatchProcessor.ui_queue s')
          = BatchProcessor.completions [] ++ [(results, ok, failed)]
       /\ length results = 3%nat
       /\ List.map result_key results
          = List.map task_key [Examples.task 0; Examples.task 1; Examples.task 2]
       /\ forall (i : nat) task,
            [Examples.task 0; Examples.task 1; Examples.task 2] !! i = Some task ->
            exists r, results !! i = Some r /\ result_key r = task_key task.
Proof.
  split; [split; [lia | reflexivity]|].
  apply (results_follow_tasks_in_order
           Examples.str_simple nat Examples.always_ok
           Examples.never Examples.never
           [Examples.task 0; Examples.task 1; Examples.task 2]
           "system" "user" 2 (3 # 10)%Q 150 true 0%nat 0%nat []);
    [lia | reflexivity | reflexivity].
Defined.

(** C10 on batch size 0. *)
Lemma non_positive_batch_size_completes_empty_witness :
  0 <= 0
  /\ exists s',
       Examples.run Examples.never Examples.never [Examples.task 0] 0
       = (Returns tt, s')
       /\ BatchProcessor.ui_queue s'
          = [] ++ [BatchProcessor.Progress 0 0 0 1
                     "Error: range() arg 3 must not be zero";
                   BatchProcessor.Completion [] 0 0]
       /\ BatchProcessor.api_manager s' = 0%nat.
Proof.
  split; [lia|].
  apply (non_positive_batch_size_completes_empty
           Examples.str_simple nat Examples.always_ok
           Examples.never Examples.never [Examples.task 0]
           "system" "user" 0 (3 # 10)%Q 150 0%nat 0%nat []).
  lia.
Defined.

(** C8 on a request whose context holds an age and the headers. *)
Lemma outbound_prompt_lists_context_witness :
  formatted_prompt Examples.str_simple Examples.request_with_context
  = "Capitalise" +:+ nl +:+ nl +:+ "Cell content: John" +:+ nl +:+ nl
      +:+ "Context information:" +:+ nl
      +:+ "- Age: 30" +:+ nl +:+ "- headers: {...}" +:+ nl
  /\ substring_of "Age"
       (formatted_prompt Examples.str_simple Examples.request_with_context)
  /\ substring_of "30"
       (formatted_prompt Examples.str_simple Examples.request_with_context).
Proof.
  destruct (outbound_prompt_lists_context
              Examples.str_simple (Examples.answering 1)
              Examples.hosted_client Examples.request_with_context
              [("Age", PInt 30);
               ("headers", PDict [("Name", "Name"); ("Age", "Age")])]
              eq_refl ltac:(discriminate))
    as (Hprompt & _ & Hin).
  split; [reflexivity|].
  rewrite Hprompt. exact (Hin "Age" (PInt 30) (or_introl eq_refl)).
Defined.

(** C4 with a ceiling of two: two calls at seconds 1 and 2 succeed, a
    third at second 30 is refused without a request, and a call at second 61
    passes again. *)
Lemma rate_limiter_window_witness :
  let calls :=
    [(Examples.answering 1, Examples.request_with_context);
     (Examples.answering 2, Examples.request_with_context)] in
  let after :=
    (APIManager.process_cells Examples.str_simple Examples.hosted_client calls).2 in
  List.map fst
    (APIManager.process_cells Examples.str_simple Examples.hosted_client calls).1
  = [Returns (true, Some "DONE", None); Returns (true, Some "DONE", None)]
  /\ APIManager.process_single_cell Examples.str_simple (Examples.answering 30)
       after Examples.request_with_context
     = (Returns (false, None, Some rate_limit_message), [], after)
  /\ exists value call after',
       APIManager.process_single_cell Examples.str_simple (Examples.answering 61)
         after Examples.request_with_context
       = (Returns (true, Some value, None), [call], after')
       /\ request_count (active_limits after') = 1.
Proof.
  intros calls after.
  destruct (rate_limiter_window
              Examples.str_simple 2 Examples.hosted_client calls
              (Examples.answering 30) Examples.request_with_context
              (APIManager.process_cells
                 Examples.str_simple Examples.hosted_client calls).1
              after)
    as (_ & Hrefused & _).
  - intros _. reflexivity.
  - reflexivity.
  - reflexivity.
  - reflexivity.
  - intros c [<-|[<-|[]]]; (split; [|split]);
      try (unfold in_window; simpl; lra);
      eexists _, _; reflexivity.
  - reflexivity.
  - destruct (rate_limiter_window
                Examples.str_simple 2 Examples.hosted_client calls
                (Examples.answering 61) Examples.request_with_context
                (APIManager.process_cells
                   Examples.str_simple Examples.hosted_client calls).1
                after)
      as (_ & _ & Hpasses).
    + intros _. reflexivity.
    + reflexivity.
    + reflexivity.
    + reflexivity.
    + intros c [<-|[<-|[]]]; (split; [|split]);
        try (unfold in_window; simpl; lra);
        eexists _, _; reflexivity.
    + reflexivity.
    + split; [reflexivity|]. split.
      * apply Hrefused. unfold in_window; simpl; lra.
      * apply Hpasses; [simpl; lra | eexists _, _; reflexivity].
Defined.

(** C7 on the table of names and ages: one valid update, one beyond the
    last row, one for a column that does not exist. *)
Lemma write_range_applies_valid_and_counts_rest_witness :
  let updates :=
    [Examples.set_cell 0 "Name" "valid";
     Examples.set_cell 999 "Name" "invalid row";
     Examples.set_cell 0 "Invalid" "invalid col"] in
  let out :=
    DataManager.update_range Examples.read_only_disk Examples.people updates
                             false in
  DataManager.df Examples.people = Some Examples.people_frame
  /\ out.1 = (1%nat, 2%nat)
  /\ DataManager.get_cell_value out.2 0 "Name" = PStr "valid".
Proof.
  intros updates out. split; [reflexivity|].
  destruct (write_range_applies_valid_and_counts_rest
              Examples.read_only_disk Examples.people Examples.people_frame
              updates false eq_refl)
    as (_ & _ & Hthree).
  apply (Hthree (Examples.set_cell 0 "Name" "valid")
                (Examples.set_cell 999 "Name" "invalid row")
                (Examples.set_cell 0 "Invalid" "invalid col")
                0 "Name" (PStr "valid") 999 "Invalid");
    try reflexivity; try discriminate; simpl; lia.
Defined.

(** C6 on the table of names and ages: the rows 0 and 1 of "Name" with
    "Age" as context. *)
Lemma read_range_clamps_filters_and_attaches_context_witness :
  let cells :=
    DataManager.get_range Examples.people (-3) 7 ["Name"; "Unknown"]
                          (Some ["Age"]) in
  cells = DataManager.get_range Examples.people 0 2 ["Name"] (Some ["Age"])
  /\ List.map (fun c => (task_key c, Cell.context_data c)) cells
     = [((0, "Name"),
         Some [("Age", PInt 30);
               ("headers", PDict [("Name", "Name"); ("Age", "Age")])]);
        ((1, "Name"),
         Some [("Age", PInt 25);
               ("headers", PDict [("Name", "Name"); ("Age", "Age")])])].
Proof.
  intros cells.
  destruct (read_range_clamps_filters_and_attaches_context
              Examples.people (-3) 7 ["Name"; "Unknown"] (Some ["Age"]))
    as (_ & Hloaded).
  destruct (Hloaded Examples.people_frame eq_refl) as (Hclamp & Hcols & _).
  split; [|reflexivity].
  exact Hclamp.
Defined.

(** C9 on a store without a table, and on a failed cell among two valid
    updates. *)
Lemma write_range_without_table_or_field_witness :
  DataManager.update_range Examples.read_only_disk Examples.unloaded
    [Examples.set_cell 0 "Name" "a"; Examples.failed_cell 1 "Name"] true
  = ((0%nat, 2%nat), Examples.unloaded)
  /\ DataManager.update_range Examples.read_only_disk Examples.people
       [Examples.set_cell 0 "Name" "a"; Examples.failed_cell 1 "Name";
        Examples.set_cell 1 "Age" "b"] false
     = ((2%nat, 1%nat),
        (DataManager.update_range Examples.read_only_disk Examples.people
           [Examples.set_cell 0 "Name" "a"; Examples.set_cell 1 "Age" "b"]
           false).2).
Proof.
  split.
  - apply (write_range_without_table_or_field
             Examples.read_only_disk Examples.unloaded
             [Examples.set_cell 0 "Name" "a"; Examples.failed_cell 1 "Name"]
             true).
    reflexivity.
  - destruct (write_range_without_table_or_field
                Examples.read_only_disk Examples.people
                [Examples.set_cell 0 "Name" "a"; Examples.failed_cell 1 "Name";
                 Examples.set_cell 1 "Age" "b"] false)
      as (_ & _ & Hskip).
    apply (Hskip (Examples.failed_cell 1 "Name")
                 [Examples.set_cell 0 "Name" "a"]
                 [Examples.set_cell 1 "Age" "b"]);
      [right; right; left; reflexivity | reflexivity].
Defined.

(** * Further properties *)
(** * Further properties of the data manager *)

(** What a successful [update_cell] has met and done. *)
Lemma update_cell_guard self row col value :
  (DataManager.update_cell self row col value).1 = true ->
  exists frame,
    DataManager.df self = Some frame
    /\ 0 <= row < DataManager.len frame
    /\ in_list col (DataManager.columns frame) = true
    /\ DataManager.accepts frame row col value = true
    /\ (DataManager.update_cell self row col value).2
       = {| DataManager.df := Some (DataManager.set_loc frame row col value);
            DataManager.file_path := DataManager.file_path self;
            DataManager.file_type := DataManager.file_type self;
            DataManager.modified := true |}.
Proof.
  unfold DataManager.update_cell.
  destruct (DataManager.df self) as [frame|]; [|discriminate].
  destruct (row <? 0) eqn:E1; [discriminate|].
  destruct (row >=? DataManager.len frame) eqn:E2; [discriminate|].
  destruct (in_list col (DataManager.columns frame)) eqn:E3; [|discriminate].
  simpl.
  destruct (DataManager.accepts frame row col value) eqn:E4; [|discriminate].
  intros _. exists frame.
  repeat split; try lia; try assumption; reflexivity.
Qed.

(** X1: a cell write reports success exactly when a table is loaded, the
    cell lies in it and the table accepts the value; a write that reports
    success can be read back with [get_cell_value], and changes what no
    other cell reads; a write that reports failure changes nothing. *)
Theorem update_cell_reads_back
    (self : DataManager.t) (row : Z) (col : string) (value : pyval) :
  let out := DataManager.update_cell self row col value in
  (out.1 = true <->
   exists frame,
     DataManager.df self = Some frame
     /\ 0 <= row < DataManager.len frame
     /\ in_list col (DataManager.columns frame) = true
     /\ DataManager.accepts frame row col value = true)
  /\ (out.1 = true ->
      DataManager.get_cell_value out.2 row col = value
      /\ forall row' col',
           (row', col') <> (row, col) ->
           DataManager.get_cell_value out.2 row' col'
           = DataManager.get_cell_value self row' col')
  /\ (out.1 = false -> out.2 = self).
Proof.
  intros out. split; [|split].
  - split.
    + intros Hok. destruct (update_cell_guard _ _ _ _ Hok)
        as (frame & Hdf & Hrow & Hcol & Hacc & _).
      exists frame. auto.
    + intros (frame & Hdf & Hrow & Hcol & Hacc). subst out.
      unfold DataManager.update_cell. rewrite Hdf, Hcol, Hacc.
      replace (row <? 0) with false by lia.
      replace (row >=? DataManager.len frame) with false by lia.
      reflexivity.
  - intros Hok. destruct (update_cell_guard _ _ _ _ Hok)
      as (frame & Hdf & Hrow & Hcol & _ & Hout).
    subst out. rewrite Hout. unfold DataManager.get_cell_value. simpl.
    rewrite Hdf. split.
    + replace (row <? 0) with false by lia.
      replace (row >=? DataManager.len (DataManager.set_loc frame row col value))
        with false by (unfold DataManager.len in *; simpl; lia).
      rewrite Hcol. simpl. unfold DataManager.loc. simpl.
      now rewrite lookup_insert_eq.
    + intros row' col' Hne.
      change (DataManager.len (DataManager.set_loc frame row col value))
        with (DataManager.len frame).
      destruct (row' <? 0) eqn:E1; [reflexivity|].
      destruct (row' >=? DataManager.len frame) eqn:E2; [reflexivity|].
      destruct (in_list col' (DataManager.columns frame)); [|reflexivity].
      simpl. unfold DataManager.loc. simpl.
      rewrite lookup_insert_ne; [reflexivity|].
      intros Heq. apply Hne. inversion Heq as [[Hr Hc]].
      f_equal. lia.
  - subst out. unfold DataManager.update_cell.
    destruct (DataManager.df self) as [frame|]; [|reflexivity].
    destruct ((row <? 0) || (row >=? DataManager.len frame)
              || negb (in_list col (DataManager.columns frame)));
      [reflexivity|].
    destruct (DataManager.accepts frame row col value);
      [discriminate | reflexivity].
Qed.

Lemma filter_split_length {A : Type} (f : A -> bool) (l : list A) :
  (length (List.filter f l) + length (List.filter (fun x => negb (f x)) l))%nat
  = length l.
Proof.
  induction l as [|x l IH]; [reflexivity|].
  simpl. destruct (f x); simpl; lia.
Qed.

Lemma writes_keep_shape (l : list Update.t) :
  forall frame,
    DataManager.nrows (fold_left write l frame) = DataManager.nrows frame
    /\ DataManager.columns (fold_left write l frame) = DataManager.columns frame.
Proof.
  induction l as [|u l IH]; intros frame; [now split|].
  simpl. destruct (IH (write frame u)) as [-> ->]. apply write_keeps_shape.
Qed.

(** The loop of [update_range] in closed form, with the flag it leaves. *)
Lemma update_loop_flag (n : nat) (cols : list string)
    (ok : Z -> string -> pyval -> bool) (updates : list Update.t) :
  forall frame path type m s e,
    DataManager.nrows frame = n ->
    DataManager.columns frame = cols ->
    DataManager.accepts frame = ok ->
    fold_left DataManager.update_step updates
      ({| DataManager.df := Some frame; DataManager.file_path := path;
          DataManager.file_type := type; DataManager.modified := m |}, s, e)
    = ({| DataManager.df :=
            Some (fold_left write (List.filter (applicable n cols ok) updates)
                            frame);
          DataManager.file_path := path;
          DataManager.file_type := type;
          DataManager.modified :=
            m || (0 <? length (List.filter (applicable n cols ok) updates))%nat |},
       (s + length (List.filter (applicable n cols ok) updates))%nat,
       (e + length (List.filter (fun u => negb (applicable n cols ok u))
                                updates))%nat).
Proof.
  induction updates as [|u updates IH]; intros frame path type m s e Hn Hc Ha.
  - simpl. now rewrite !Nat.add_0_r, orb_false_r.
  - cbn [fold_left List.filter]. rewrite (applicable_step n cols ok) by assumption.
    destruct (applicable n cols ok u); cbn [negb].
    + destruct (write_keeps_shape frame u) as [Hn' Hc'].
      pose proof (write_keeps_accepts frame u) as Ha'.
      rewrite IH by congruence.
      cbn [fold_left length]. rewrite orb_true_r. simpl orb.
      do 2 f_equal. lia.
    + rewrite IH by assumption. cbn [length]. f_equal. lia.
Qed.

(** [update_range] on a loaded manager, in closed form. *)
Lemma update_range_state d self frame updates auto_save :
  DataManager.df self = Some frame ->
  let applied :=
    List.filter (applicable (DataManager.nrows frame) (DataManager.columns frame)
                            (DataManager.accepts frame))
                updates in
  (DataManager.update_range d self updates auto_save).2
  = if (0 <? length applied)%nat
    then if auto_save && DataManager.has_path self
         then (DataManager.save_file d (marked self (apply_writes frame updates))
                                     None).2
         else marked self (apply_writes frame updates)
    else self.
Proof.
  intros Hdf applied. unfold DataManager.update_range. rewrite Hdf.
  destruct self as [f path type m]; simpl in Hdf; subst f.
  rewrite (update_loop_flag _ _ _ updates frame path type m 0 0
             eq_refl eq_refl eq_refl).
  fold applied. cbn [fst snd Nat.add].
  destruct (0 <? length applied)%nat eqn:E.
  - unfold marked, apply_writes. fold applied. cbn.
    rewrite andb_true_r. reflexivity.
  - cbn. rewrite orb_false_r.
    destruct applied; [reflexivity | discriminate].
Qed.

(** X2: every update handed to [update_range] is counted once, as applied
    or as failed, whether a table is loaded or not. *)
Theorem update_range_counts_every_update
    (d : DataManager.disk) (self : DataManager.t) (updates : list Update.t)
    (auto_save : bool) :
  let out := DataManager.update_range d self updates auto_save in
  (out.1.1 + out.1.2)%nat = length updates.
Proof.
  intros out. subst out.
  destruct (DataManager.df self) as [frame|] eqn:Hdf.
  - destruct (update_range_loaded d self frame updates auto_save Hdf) as [-> _].
    apply filter_split_length.
  - unfold DataManager.update_range. rewrite Hdf. reflexivity.
Qed.

(** X3: when [update_range] applies nothing, the manager is left exactly
    as it was: no flag is raised and nothing is saved, even with auto-save
    on. *)
Theorem update_range_without_success_changes_nothing
    (d : DataManager.disk) (self : DataManager.t) (updates : list Update.t)
    (auto_save : bool) :
  (DataManager.update_range d self updates auto_save).1.1 = 0%nat ->
  (DataManager.update_range d self updates auto_save).2 = self.
Proof.
  destruct (DataManager.df self) as [frame|] eqn:Hdf.
  - destruct (update_range_loaded d self frame updates auto_save Hdf) as [-> _].
    rewrite (update_range_state d self frame updates auto_save Hdf).
    cbn [fst]. intros ->. reflexivity.
  - unfold DataManager.update_range. rewrite Hdf. reflexivity.
Qed.

(** X4: auto-save is the plain update followed by [save_file()], run only
    when something was applied and a path is known; the counts returned
    and the table in memory are those of the plain update, whatever the
    save does. *)
Theorem auto_save_is_update_then_save
    (d : DataManager.disk) (self : DataManager.t) (updates : list Update.t) :
  let plain := DataManager.update_range d self updates false in
  let saved := DataManager.update_range d self updates true in
  saved.1 = plain.1
  /\ DataManager.df saved.2 = DataManager.df plain.2
  /\ saved.2
     = if (0 <? plain.1.1)%nat && DataManager.has_path self
       then (DataManager.save_file d plain.2 None).2
       else plain.2.
Proof.
  intros plain saved. subst plain saved.
  destruct (DataManager.df self) as [frame|] eqn:Hdf.
  - destruct (update_range_loaded d self frame updates false Hdf) as [Hp Hpd].
    destruct (update_range_loaded d self frame updates true Hdf) as [Hs Hsd].
    rewrite Hp, Hs, Hpd, Hsd. repeat split.
    rewrite !(update_range_state d self frame updates _ Hdf). cbn [fst].
    destruct (0 <? _)%nat; reflexivity.
  - unfold DataManager.update_range. rewrite Hdf. repeat split.
Qed.

Lemma get_cell_value_frame self frame row col :
  DataManager.df self = Some frame ->
  DataManager.get_cell_value self row col
  = if (row <? 0) || (row >=? Z.of_nat (DataManager.nrows frame))
       || negb (in_list col (DataManager.columns frame))
    then PNone
    else DataManager.loc frame row col.
Proof. intros Hdf. unfold DataManager.get_cell_value. now rewrite Hdf. Qed.

Lemma applicable_resolves n cols ok u :
  applicable n cols ok u = true -> resolves n cols u = true.
Proof. unfold applicable. intros H. now apply andb_prop in H as [H _]. Qed.

Lemma loc_write_other n cols frame u row col :
  0 <= row ->
  resolves n cols u = true ->
  ~ targets row col u ->
  DataManager.loc (write frame u) row col = DataManager.loc frame row col.
Proof.
  intros Hrow Happ Hmiss. unfold resolves in Happ. unfold write, targets in *.
  destruct (Update.get (Update.row u)) as [r|]; [|reflexivity].
  destruct (Update.get (Update.col u)) as [c|]; [|reflexivity].
  destruct (Update.get (Update.result u)) as [v|]; [|reflexivity].
  unfold DataManager.loc, DataManager.set_loc. simpl.
  rewrite lookup_insert_ne; [reflexivity|].
  intros Heq. inversion Heq as [[Hr Hc]]. apply Hmiss.
  apply andb_prop in Happ as [Happ _]. apply andb_prop in Happ as [Happ _].
  apply andb_prop in Happ as [Hlo _]. apply Z.leb_le in Hlo.
  split; f_equal; [lia | assumption].
Qed.

Lemma loc_write_target frame u row col value :
  targets row col u ->
  Update.get (Update.result u) = Some value ->
  DataManager.loc (write frame u) row col = value.
Proof.
  intros [Hr Hc] Hv. unfold write. rewrite Hr, Hc, Hv.
  unfold DataManager.loc, DataManager.set_loc. simpl.
  now rewrite lookup_insert_eq.
Qed.

Lemma loc_writes_other n cols row col (l : list Update.t) :
  forall frame,
    0 <= row ->
    (forall u, In u l -> resolves n cols u = true /\ ~ targets row col u) ->
    DataManager.loc (fold_left write l frame) row col
    = DataManager.loc frame row col.
Proof.
  induction l as [|u l IH]; intros frame Hrow Hl; [reflexivity|].
  simpl. rewrite IH; [|assumption|intros u' Hu'; apply Hl; now right].
  destruct (Hl u (or_introl eq_refl)) as [Happ Hmiss].
  now apply (loc_write_other n cols).
Qed.

Lemma applied_miss n cols ok row col (l : list Update.t) :
  (forall u, In u l -> ~ targets row col u) ->
  forall u, In u (List.filter (applicable n cols ok) l) ->
       resolves n cols u = true /\ ~ targets row col u.
Proof.
  intros Hl u Hu. apply filter_In in Hu as [Hin Happ].
  split; [now apply (applicable_resolves n cols ok) | auto].
Qed.

Lemma get_cell_value_after_update_range d self frame updates auto_save row col :
  DataManager.df self = Some frame ->
  DataManager.get_cell_value
    (DataManager.update_range d self updates auto_save).2 row col
  = if (row <? 0) || (row >=? Z.of_nat (DataManager.nrows frame))
       || negb (in_list col (DataManager.columns frame))
    then PNone
    else DataManager.loc (apply_writes frame updates) row col.
Proof.
  intros Hdf.
  destruct (update_range_loaded d self frame updates auto_save Hdf) as [_ Hout].
  rewrite (get_cell_value_frame _ _ row col Hout).
  unfold apply_writes at 1 2.
  destruct (writes_keep_shape
              (List.filter (applicable (DataManager.nrows frame)
                                       (DataManager.columns frame)
                                       (DataManager.accepts frame)) updates)
              frame) as [-> ->].
  reflexivity.
Qed.

(** X5: [update_range] changes no cell other than those its updates name:
    a cell that no update names reads after the call as it did before. *)
Theorem update_range_leaves_other_cells
    (d : DataManager.disk) (self : DataManager.t) (updates : list Update.t)
    (auto_save : bool) (row : Z) (col : string) :
  (forall u, In u updates -> ~ targets row col u) ->
  DataManager.get_cell_value
    (DataManager.update_range d self updates auto_save).2 row col
  = DataManager.get_cell_value self row col.
Proof.
  intros Hmiss. destruct (DataManager.df self) as [frame|] eqn:Hdf.
  - rewrite (get_cell_value_after_update_range d self frame updates auto_save
               row col Hdf).
    rewrite (get_cell_value_frame self frame row col Hdf).
    destruct (row <? 0) eqn:Hrow; [reflexivity|].
    destruct (_ || _); [reflexivity|].
    unfold apply_writes.
    apply (loc_writes_other (DataManager.nrows frame) (DataManager.columns frame));
      [lia | now apply (applied_miss _ _ (DataManager.accepts frame))].
  - unfold DataManager.update_range. rewrite Hdf. reflexivity.
Qed.

(** X6: when several updates name the same cell, the last one that is
    applied decides its value: after [update_range] the cell reads as the
    value of an update that resolves to it, that the table accepts, and
    that no later update names again. *)
Theorem update_range_last_write_wins
    (d : DataManager.disk) (self : DataManager.t)
    (frame : DataManager.DataFrame) (before after : list Update.t)
    (u : Update.t) (auto_save : bool) (row : Z) (col : string) (value : pyval) :
  DataManager.df self = Some frame ->
  resolves (DataManager.nrows frame) (DataManager.columns frame) u = true ->
  targets row col u ->
  Update.get (Update.result u) = Some value ->
  DataManager.accepts frame row col value = true ->
  (forall u', In u' after -> ~ targets row col u') ->
  DataManager.get_cell_value
    (DataManager.update_range d self (before ++ u :: after) auto_save).2 row col
  = value.
Proof.
  intros Hdf Hres Htarget Hvalue Haccepts Hafter.
  rewrite (get_cell_value_after_update_range d self frame _ auto_save row col Hdf).
  assert (Happ : applicable (DataManager.nrows frame) (DataManager.columns frame)
                            (DataManager.accepts frame) u = true).
  { unfold applicable. rewrite Hres. destruct Htarget as [-> ->].
    now rewrite Hvalue. }
  assert (Hguard : 0 <= row < Z.of_nat (DataManager.nrows frame)
                   /\ in_list col (DataManager.columns frame) = true).
  { destruct Htarget as [Hr Hc]. unfold resolves in Hres.
    rewrite Hr, Hc, Hvalue in Hres.
    apply andb_prop in Hres as [Hres _]. apply andb_prop in Hres as [Hres Hcol].
    apply andb_prop in Hres as [Hlo Hhi].
    apply Z.leb_le in Hlo. apply Z.ltb_lt in Hhi. repeat split; assumption. }
  destruct Hguard as [Hrow Hcol].
  replace (row <? 0) with false by lia.
  replace (row >=? Z.of_nat (DataManager.nrows frame)) with false by lia.
  rewrite Hcol. simpl.
  unfold apply_writes. rewrite List.filter_app. cbn [List.filter]. rewrite Happ.
  rewrite fold_left_app. cbn [fold_left].
  rewrite (loc_writes_other (DataManager.nrows frame) (DataManager.columns frame));
    [|lia|now apply (applied_miss _ _ (DataManager.accepts frame))].
  now apply loc_write_target.
Qed.

Lemma length_range2 (lo hi : Z) : length (range2 lo hi) = Z.to_nat (hi - lo).
Proof. unfold range2. now rewrite length_map, length_seq. Qed.

Lemma length_flat_map_rows {A B C : Type} (f : A -> B -> C) (cols : list B)
    (rows : list A) :
  length (flat_map (fun row => List.map (f row) cols) rows)
  = (length rows * length cols)%nat.
Proof.
  induction rows as [|row rows IH]; [reflexivity|].
  simpl. now rewrite length_app, length_map, IH.
Qed.

Lemma in_present frame cols c :
  In c (present frame cols) <-> In c cols /\ In c (DataManager.columns frame).
Proof.
  unfold present. rewrite filter_In, in_list_In. reflexivity.
Qed.

(** Every task [get_range] builds names a cell of the table. *)
Lemma get_range_cells_in_table self frame start_row end_row cols ctx cell :
  DataManager.df self = Some frame ->
  In cell (DataManager.get_range self start_row end_row cols ctx) ->
  0 <= Cell.row cell < DataManager.len frame
  /\ in_list (Cell.col cell) (DataManager.columns frame) = true.
Proof.
  intros Hdf. rewrite (get_range_loaded _ _ _ _ _ _ Hdf).
  rewrite in_flat_map. intros (row & Hrow & Hcell).
  apply in_map_iff in Hcell as (c & <- & Hc).
  apply in_range2 in Hrow. apply in_present in Hc as [_ Hc].
  simpl. split; [lia | now apply in_list_In].
Qed.

(** X7: [get_range] returns one task for every row of the clamped range
    and every requested column that exists, and the content of each is what
    [get_cell_value] reads in that cell. *)
Theorem get_range_covers_selection
    (self : DataManager.t) (frame : DataManager.DataFrame)
    (start_row end_row : Z) (cols : list string)
    (ctx : option (list string)) :
  DataManager.df self = Some frame ->
  let cells := DataManager.get_range self start_row end_row cols ctx in
  let lo := Z.max 0 start_row in
  let hi := Z.min end_row (DataManager.len frame) in
  length cells = (Z.to_nat (hi - lo) * length (present frame cols))%nat
  /\ forall row col,
       lo <= row < hi -> In col cols -> In col (DataManager.columns frame) ->
       exists cell,
         In cell cells /\ Cell.row cell = row /\ Cell.col cell = col
         /\ Cell.content cell = DataManager.get_cell_value self row col.
Proof.
  intros Hdf cells lo hi. subst cells.
  rewrite (get_range_loaded _ _ _ _ _ _ Hdf). fold lo hi. split.
  - now rewrite length_flat_map_rows, length_range2.
  - intros row col Hrow Hcol Hcol'.
    exists (cell_at frame (present frame cols) (valid_context frame cols ctx)
                    row col).
    split; [|split; [reflexivity|split; [reflexivity|]]].
    + apply in_flat_map. exists row. split; [now apply in_range2|].
      apply in_map. now apply in_present.
    + simpl. rewrite (get_cell_value_frame self frame row col Hdf).
      apply in_list_In in Hcol'. rewrite Hcol'.
      unfold DataManager.len in hi.
      replace (row <? 0) with false by lia.
      replace (row >=? Z.of_nat (DataManager.nrows frame)) with false by lia.
      reflexivity.
Qed.

Lemma filter_all {A : Type} (f : A -> bool) (l : list A) :
  (forall x, In x l -> f x = true) ->
  List.filter f l = l /\ List.filter (fun x => negb (f x)) l = [].
Proof.
  induction l as [|x l IH]; intros Hl; [now split|].
  simpl. rewrite (Hl x (or_introl eq_refl)). simpl.
  destruct IH as [-> ->]; [intros y Hy; apply Hl; now right|]. now split.
Qed.

Lemma cells_to_process_range dm start_row end_row cols ctx cells :
  MainWindow.cells_to_process dm start_row end_row cols ctx = Some cells ->
  exists frame,
    DataManager.df dm = Some frame
    /\ 0 <= start_row < DataManager.len frame
    /\ cells <> []
    /\ cells = DataManager.get_range dm start_row end_row cols ctx.
Proof.
  unfold MainWindow.cells_to_process.
  destruct (DataManager.df dm) as [frame|] eqn:Hdf; [|discriminate].
  destruct cols as [|c cols]; [discriminate|].
  destruct (start_row <? 0) eqn:E1; [discriminate|].
  destruct (start_row >=? DataManager.len frame) eqn:E2; [discriminate|].
  cbn [orb].
  assert (Hsame :
    DataManager.get_range dm start_row
      (if end_row >? DataManager.len frame then DataManager.len frame
       else end_row) (c :: cols) ctx
    = DataManager.get_range dm start_row end_row (c :: cols) ctx).
  { rewrite !(get_range_loaded _ _ _ _ _ _ Hdf). f_equal. f_equal.
    rewrite Z.gtb_ltb.
    destruct (Z.ltb_spec (DataManager.len frame) end_row); lia. }
  rewrite Hsame.
  destruct (DataManager.get_range dm start_row end_row (c :: cols) ctx)
    as [|cell rest] eqn:Hcells; [discriminate|].
  intros [= <-]. exists frame. repeat split; try lia; try assumption; discriminate.
Qed.

Lemma filter_map_length {A B : Type} (f : B -> bool) (g : A -> B)
    (l : list A) :
  length (List.filter f (List.map g l))
  = length (List.filter (fun x => f (g x)) l).
Proof.
  induction l as [|x l IH]; [reflexivity|].
  simpl. destruct (f (g x)); simpl; now rewrite IH.
Qed.

(** Writing back results that name cells of the table: what
    [update_range] returns for the successful ones. *)
Lemma write_back_counts d dm frame results auto_save :
  DataManager.df dm = Some frame ->
  (forall r, In r results ->
     0 <= CellResult.row r < DataManager.len frame
     /\ in_list (CellResult.col r) (DataManager.columns frame) = true) ->
  (forall r, In r results -> writable r) ->
  let written := MainWindow.successful_results results in
  (DataManager.update_range d dm (List.map MainWindow.as_update written)
                            auto_save).1
  = (length (List.filter (accepted frame) written),
     length (List.filter (fun r => negb (accepted frame r)) written)).
Proof.
  intros Hdf Hkeys Htext written.
  destruct (update_range_loaded d dm frame
              (List.map MainWindow.as_update written) auto_save Hdf)
    as [-> _].
  rewrite !filter_map_length.
  assert (Hsame : forall r, In r written ->
            applicable (DataManager.nrows frame) (DataManager.columns frame)
                       (DataManager.accepts frame) (MainWindow.as_update r)
            = accepted frame r).
  { intros r Hr. apply filter_In in Hr as [Hr Hok].
    destruct (Hkeys r Hr) as [Hrow Hcol].
    unfold applicable, resolves, accepted, MainWindow.as_update. simpl.
    destruct (CellResult.result r) eqn:Hres; [|now destruct (Htext r Hr Hok)].
    simpl. rewrite Hcol. unfold DataManager.len in Hrow.
    replace (0 <=? CellResult.row r) with true by lia.
    replace (CellResult.row r <? Z.of_nat (DataManager.nrows frame))
      with true by lia.
    reflexivity. }
  f_equal; f_equal; apply filter_ext_in; intros r Hr;
    now rewrite (Hsame r Hr).
Qed.

Lemma processing_completed_counts d r w dm results success_count auto_save :
  (MainWindow._processing_completed d r w dm results success_count
                                    auto_save).1
  = if MainWindow.progress_window_exists w
    then Some (DataManager.update_range d dm
                 (List.map MainWindow.as_update
                           (MainWindow.successful_results results))
                 auto_save).1
    else None.
Proof.
  unfold MainWindow._processing_completed.
  destruct (MainWindow.progress_window_exists w); [|reflexivity]. cbn [negb].
  destruct (DataManager.update_range d dm _ auto_save) as [counts dm'].
  now destruct (MainWindow.update_batch w).
Qed.

(** X8: what the main window writes back after a run.  When the progress
    window has been closed nothing is written and the data manager is as
    before.  Otherwise, for results that name tasks read from the table by
    [_run_transformation], [update_range] is given the successful ones
    and applies those the table accepts, failing the others; when the
    table accepts them all, the count applied is the number of successful
    results and none fails. *)
Theorem write_back_applies_accepted_results
    (d : DataManager.disk) (r : reader) (w : MainWindow.window) (dm : DataManager.t)
    (frame : DataManager.DataFrame)
    (start_row end_row : Z) (cols : list string) (ctx : option (list string))
    (cells : list Cell.t) (results : list CellResult.t) (success_count : nat)
    (auto_save : bool) :
  MainWindow.cells_to_process dm start_row end_row cols ctx = Some cells ->
  DataManager.df dm = Some frame ->
  (forall r, In r results -> In (result_key r) (List.map task_key cells)) ->
  (forall r, In r results -> writable r) ->
  let written := MainWindow.successful_results results in
  let out :=
    MainWindow._processing_completed d r w dm results success_count
                                     auto_save in
  (MainWindow.progress_window_exists w = false -> out = (None, dm))
  /\ (MainWindow.progress_window_exists w = true ->
      out.1 = Some (length (List.filter (accepted frame) written),
                    length (List.filter (fun r => negb (accepted frame r))
                                        written))
      /\ ((forall r, In r written -> accepted frame r = true) ->
          out.1 = Some (succeeded_count results, 0%nat))).
Proof.
  intros Hcells Hdf Hkeys Htext written out.
  destruct (cells_to_process_range _ _ _ _ _ _ Hcells)
    as (frame' & Hdf' & _ & _ & ->).
  assert (frame' = frame) by congruence. subst frame'.
  split.
  - intros Hgone. subst out. unfold MainWindow._processing_completed.
    now rewrite Hgone.
  - intros Hopen. subst out.
    rewrite processing_completed_counts, Hopen.
    assert (Htable : forall r, In r results ->
              0 <= CellResult.row r < DataManager.len frame
              /\ in_list (CellResult.col r) (DataManager.columns frame) = true).
    { intros r0 Hr. specialize (Hkeys r0 Hr).
      apply in_map_iff in Hkeys as (cell & Hkey & Hcell).
      destruct (get_range_cells_in_table _ _ _ _ _ _ _ Hdf Hcell)
        as [Hrow Hcol].
      unfold task_key, result_key in Hkey. injection Hkey as Hr1 Hr2.
      now rewrite <- Hr1, <- Hr2. }
    rewrite (write_back_counts d dm frame results auto_save Hdf Htable Htext).
    fold written. split; [reflexivity|].
    intros Hall.
    destruct (filter_all (accepted frame) written Hall) as [-> ->].
    reflexivity.
Qed.

(** X9: [save_file] never touches the table or the recorded file type;
    when it reports failure the manager is exactly as before, and when it
    reports success the unsaved-changes flag is down and a path is
    recorded. *)
Theorem save_file_effects
    (d : DataManager.disk) (self : DataManager.t) (path : option string) :
  let out := DataManager.save_file d self path in
  DataManager.df out.2 = DataManager.df self
  /\ DataManager.file_type out.2 = DataManager.file_type self
  /\ (out.1.1 = false -> out.2 = self)
  /\ (out.1.1 = true ->
      DataManager.modified out.2 = false
      /\ DataManager.df self <> None
      /\ exists p, DataManager.file_path out.2 = Some p).
Proof.
  intros out. subst out. unfold DataManager.save_file.
  destruct (DataManager.df self) as [frame|] eqn:Hdf;
    [|repeat split; try discriminate; now rewrite ?Hdf].
  destruct (match path with Some p => Some p | None => DataManager.file_path self end)
    as [p|]; [|repeat split; try discriminate; now rewrite ?Hdf].
  match goal with
  | |- context [match ?w with Ok _ => _ | Fault _ => _ end] =>
      destruct w as [p'|[m|m|m|m|m]]
  end; simpl; rewrite ?Hdf; repeat split; try discriminate; eauto.
Qed.

(** X10: a path whose extension is none of [.xlsx], [.xls], [.csv] but
    whose base name contains a dot is reported as saved although no writer
    is called: the result is success, whatever the writers would do, and
    the unsaved-changes flag is cleared. *)
Theorem save_file_skips_unknown_extension
    (d : DataManager.disk) (self : DataManager.t)
    (frame : DataManager.DataFrame) (p : string) :
  DataManager.df self = Some frame ->
  DataManager.splitext_lower d p <> ".xlsx" ->
  DataManager.splitext_lower d p <> ".xls" ->
  DataManager.splitext_lower d p <> ".csv" ->
  contains_char "." (DataManager.basename d p) = true ->
  DataManager.save_file d self (Some p)
  = ((true, ""),
     {| DataManager.df := Some frame;
        DataManager.file_path := Some p;
        DataManager.file_type := DataManager.file_type self;
        DataManager.modified := false |}).
Proof.
  intros Hdf H1 H2 H3 Hdot. unfold DataManager.save_file. rewrite Hdf.
  apply String.eqb_neq in H1, H2, H3. rewrite H1, H2, H3, Hdot. reflexivity.
Qed.

(** * Properties of [load_file] *)

Lemma check_and_clean_effects self frame path :
  let out := DataLoading.check_and_clean self frame path in
  (out.1.1 = false ->
   out.2 = self
   /\ (out.1.2 = "File contains no data" /\ DataManager.len frame = 0
       \/ exists msg,
            DataManager.label_fault frame = Some msg
            /\ out.1.2 = "Failed to load file: " +:+ msg))
  /\ (out.1.1 = true ->
      DataManager.len frame <> 0
      /\ out = ((true, ""),
                {| DataManager.df := Some (DataLoading.strip_columns frame);
                   DataManager.file_path := Some path;
                   DataManager.file_type := DataManager.file_type self;
                   DataManager.modified := false |})).
Proof.
  unfold DataLoading.check_and_clean.
  destruct (Z.eqb_spec (DataManager.len frame) 0); simpl.
  - split; [auto | discriminate].
  - destruct (DataManager.label_fault frame) as [msg|]; simpl.
    + split; [eauto | discriminate].
    + split; [discriminate | auto].
Qed.

(** X11: a load that reports failure leaves the manager as it was, unless
    a table had been read: a file without rows is reported as "File
    contains no data", and a table whose column labels are not strings as
    "Failed to load file: ...", after the table read has replaced the loaded
    one (and, for a workbook, the file type has been set), while the
    recorded path and the unsaved-changes flag stay those of the previous
    file. *)
Theorem failed_load_keeps_manager_unless_table_was_read
    (d : DataManager.disk) (r : reader) (self : DataManager.t)
    (path : string) :
  let out := DataLoading.load_file d r self path in
  out.1.1 = false ->
  out.2 = self
  \/ (DataManager.file_path out.2 = DataManager.file_path self
      /\ DataManager.modified out.2 = DataManager.modified self
      /\ exists frame,
           DataManager.df out.2 = Some frame
           /\ (read_excel r path = inr frame
               \/ exists encoding, read_csv r path encoding = inr frame)
           /\ (out.1.2 = "File contains no data" /\ DataManager.len frame = 0
               \/ exists msg,
                    DataManager.label_fault frame = Some msg
                    /\ out.1.2 = "Failed to load file: " +:+ msg)).
Proof.
  intros out. subst out. unfold DataLoading.load_file.
  destruct (path_exists r path); [|now left]. cbn [negb].
  destruct (_ || _).
  - destruct (read_excel r path) as [f|frame] eqn:Hread; [now left|].
    intros Hfail.
    destruct (check_and_clean_effects
                (DataLoading.with_file_type (DataLoading.with_df self frame) "excel")
                frame path) as [Hc _].
    destruct (Hc Hfail) as [Hstate Hmsg]. right. rewrite Hstate. simpl.
    repeat split. exists frame. auto.
  - destruct (String.eqb _ ".csv"); [|now left].
    destruct (read_csv r path None) as [f|frame] eqn:Hread.
    + destruct f; try (now left).
      assert (Hloop : forall encodings,
                match DataLoading.try_encodings r path encodings with
                | Some (inr frame) =>
                    exists encoding, read_csv r path encoding = inr frame
                | _ => True
                end).
      { induction encodings as [|e es IH]; [exact I|]. simpl.
        destruct (read_csv r path (Some e)) as [[]|frame] eqn:He;
          try exact I; [exact IH | eauto]. }
      specialize (Hloop DataLoading.csv_encodings).
      destruct (DataLoading.try_encodings r path DataLoading.csv_encodings)
        as [[f|frame]|]; try (now left).
      intros Hfail.
      destruct (check_and_clean_effects (DataLoading.with_df self frame)
                                        frame path) as [Hc _].
      destruct (Hc Hfail) as [Hstate Hmsg]. right. rewrite Hstate. simpl.
      repeat split. exists frame. auto.
    + intros Hfail.
      destruct (check_and_clean_effects (DataLoading.with_df self frame)
                                        frame path) as [Hc _].
      destruct (Hc Hfail) as [Hstate Hmsg]. right. rewrite Hstate. simpl.
      repeat split. exists frame. eauto.
Qed.

(** X12: a load that reports success records the path, clears the
    unsaved-changes flag and holds a table with at least one row whose
    labels are stripped; the file type becomes ['excel'] for a workbook but
    is left as it was for a CSV file, so after a workbook a CSV file is
    still recorded as ['excel']. *)
Theorem successful_load_effects
    (d : DataManager.disk) (r : reader) (self : DataManager.t)
    (path : string) :
  let out := DataLoading.load_file d r self path in
  out.1.1 = true ->
  out.1.2 = ""
  /\ DataManager.file_path out.2 = Some path
  /\ DataManager.modified out.2 = false
  /\ DataManager.file_type out.2
     = (if excel_extension (DataManager.splitext_lower d path)
        then Some "excel" else DataManager.file_type self)
  /\ exists frame,
       DataManager.df out.2 = Some (DataLoading.strip_columns frame)
       /\ 0 < DataManager.len frame
       /\ (forall c, In c (DataManager.columns (DataLoading.strip_columns frame)) ->
             trimmed c).
Proof.
  intros out. subst out. unfold DataLoading.load_file, excel_extension.
  assert (Hlabels : forall frame c,
            In c (DataManager.columns (DataLoading.strip_columns frame)) ->
            trimmed c).
  { intros frame c Hc. simpl in Hc. apply in_map_iff in Hc as (c' & <- & _).
    apply strip_trimmed. }
  assert (Hpos : forall frame, DataManager.len frame <> 0 ->
                               0 < DataManager.len frame).
  { unfold DataManager.len. lia. }
  destruct (path_exists r path); [|discriminate]. cbn [negb].
  destruct (_ || _).
  - destruct (read_excel r path) as [f|frame]; [discriminate|].
    intros Hok.
    destruct (check_and_clean_effects
                (DataLoading.with_file_type (DataLoading.with_df self frame) "excel")
                frame path) as [_ Hc].
    destruct (Hc Hok) as [Hlen ->]. simpl. repeat split. exists frame.
    split; [reflexivity | split; [auto | exact (Hlabels frame)]].
  - destruct (String.eqb _ ".csv"); [|discriminate].
    destruct (read_csv r path None) as [f|frame].
    + destruct f; try discriminate.
      destruct (DataLoading.try_encodings r path DataLoading.csv_encodings)
        as [[f|frame]|]; try discriminate.
      intros Hok.
      destruct (check_and_clean_effects (DataLoading.with_df self frame)
                                        frame path) as [_ Hc].
      destruct (Hc Hok) as [Hlen ->]. simpl. repeat split. exists frame.
    split; [reflexivity | split; [auto | exact (Hlabels frame)]].
    + intros Hok.
      destruct (check_and_clean_effects (DataLoading.with_df self frame)
                                        frame path) as [_ Hc].
      destruct (Hc Hok) as [Hlen ->]. simpl. repeat split. exists frame.
    split; [reflexivity | split; [auto | exact (Hlabels frame)]].
Qed.

Lemma try_encodings_first r path (pre post : list string) (enc : string)
    (outcome : read_fault + DataManager.DataFrame) :
  (forall e, In e pre ->
     exists m, read_csv r path (Some e) = inl (UnicodeDecodeError m)) ->
  read_csv r path (Some enc) = outcome ->
  (forall m, outcome <> inl (UnicodeDecodeError m)) ->
  DataLoading.try_encodings r path (pre ++ enc :: post) = Some outcome.
Proof.
  intros Hpre Henc Hout. induction pre as [|e pre IH]; simpl.
  - rewrite Henc. destruct outcome as [[]|]; try reflexivity.
    now destruct (Hout msg).
  - destruct (Hpre e (or_introl eq_refl)) as [m ->].
    apply IH. intros e' He'. apply Hpre. now right.
Qed.

Lemma try_encodings_none r path (encodings : list string) :
  (forall e, In e encodings ->
     exists m, read_csv r path (Some e) = inl (UnicodeDecodeError m)) ->
  DataLoading.try_encodings r path encodings = None.
Proof.
  induction encodings as [|e es IH]; intros Hall; [reflexivity|].
  simpl. destruct (Hall e (or_introl eq_refl)) as [m ->].
  apply IH. intros e' He'. apply Hall. now right.
Qed.

(** X13: a CSV file that the default reader cannot decode is read with the
    first of utf-8, latin1, iso-8859-1, cp1252 that decodes it, and the
    later ones are not consulted; when none decodes it the load fails with
    "Could not decode file with any common encoding" and the manager is
    unchanged. *)
Theorem csv_encoding_fallback
    (d : DataManager.disk) (r : reader) (self : DataManager.t)
    (path msg : string) :
  path_exists r path = true ->
  DataManager.splitext_lower d path = ".csv" ->
  read_csv r path None = inl (UnicodeDecodeError msg) ->
  (forall pre enc post frame,
     DataLoading.csv_encodings = pre ++ enc :: post ->
     (forall e, In e pre ->
        exists m, read_csv r path (Some e) = inl (UnicodeDecodeError m)) ->
     read_csv r path (Some enc) = inr frame ->
     DataLoading.load_file d r self path
     = DataLoading.check_and_clean (DataLoading.with_df self frame) frame path)
  /\ ((forall e, In e DataLoading.csv_encodings ->
         exists m, read_csv r path (Some e) = inl (UnicodeDecodeError m)) ->
      DataLoading.load_file d r self path
      = ((false, "Could not decode file with any common encoding"), self)).
Proof.
  intros Hexists Hext Hdefault. split.
  - intros pre enc post frame Hsplit Hpre Henc.
    unfold DataLoading.load_file. rewrite Hexists, Hext, Hdefault.
    cbn -[DataLoading.csv_encodings DataLoading.try_encodings].
    rewrite Hsplit.
    rewrite (try_encodings_first r path pre post enc (inr frame) Hpre Henc);
      [reflexivity | discriminate].
  - intros Hall.
    unfold DataLoading.load_file. rewrite Hexists, Hext, Hdefault.
    cbn -[DataLoading.csv_encodings DataLoading.try_encodings].
    now rewrite (try_encodings_none r path _ Hall).
Qed.

(** X14: a workbook with the extension [.xlsm] is accepted by [load_file]
    but skipped by [save_file]: saving it back to its own path reports
    success and clears the unsaved-changes flag without any writer being
    called, so the result does not depend on what the writers would do. *)
Theorem loaded_xlsm_is_reported_saved_unwritten
    (d : DataManager.disk) (r : reader) (self : DataManager.t)
    (path : string) :
  DataManager.splitext_lower d path = ".xlsm" ->
  contains_char "." (DataManager.basename d path) = true ->
  (DataLoading.load_file d r self path).1.1 = true ->
  let loaded := (DataLoading.load_file d r self path).2 in
  DataManager.save_file d loaded None
  = ((true, ""),
     {| DataManager.df := DataManager.df loaded;
        DataManager.file_path := Some path;
        DataManager.file_type := Some "excel";
        DataManager.modified := false |}).
Proof.
  intros Hext Hdot. unfold DataLoading.load_file. rewrite Hext.
  destruct (path_exists r path); [|discriminate]. cbn [negb].
  change (String.eqb ".xlsm" ".xlsx" || String.eqb ".xlsm" ".xls"
          || String.eqb ".xlsm" ".xlsm") with true. cbv iota.
  destruct (read_excel r path) as [f|frame]; [discriminate|].
  intros Hok.
  destruct (check_and_clean_effects
              (DataLoading.with_file_type (DataLoading.with_df self frame) "excel")
              frame path) as [_ Hc].
  destruct (Hc Hok) as [_ ->]. cbn [snd fst].
  unfold DataManager.save_file. cbn [DataManager.df DataManager.file_path].
  rewrite Hext, Hdot. reflexivity.
Qed.

(** * Properties of the transformation client *)

Lemma ollama_limits_after_call py_str w (self : OllamaAPIManager.t) rq :
  let out := OllamaAPIManager.process_single_cell py_str w self rq in
  OllamaAPIManager.base_url out.2 = OllamaAPIManager.base_url self
  /\ OllamaAPIManager.model out.2 = OllamaAPIManager.model self
  /\ OllamaAPIManager.limits out.2
     = limiter_after w (answered APIManager.OLLAMA w)
                     (OllamaAPIManager.limits self).
Proof.
  unfold OllamaAPIManager.process_single_cell,
    OllamaAPIManager._check_rate_limit, limiter_after, answered.
  destruct (RateLimit._check_rate_limit (time_check w)
              (OllamaAPIManager.limits self)) as [[] l]; simpl.
  - unfold OllamaAPIManager._generate_streaming.
    destruct (http_post w) as [response|e]; simpl; [|auto].
    destruct (status_code response =? 200); simpl; [|auto].
    destruct (OllamaAPIManager.stream_chunks (lines response)); simpl; auto.
  - auto.
Qed.

Ltac hosted_call_cases w lim :=
  unfold APIManager._check_rate_limit; simpl;
  destruct (RateLimit._check_rate_limit (time_check w) lim) as [[] ?]; simpl;
  [destruct (chat_create w) as [[|[?|] ?]|[]]; simpl; auto | auto].

Lemma hosted_limits_after_call py_str w (self : APIManager.t) rq :
  APIManager.api_type self = APIManager.OPENAI ->
  let out := APIManager._process_openai py_str w self rq in
  APIManager.api_type out.2 = APIManager.api_type self
  /\ APIManager.model out.2 = APIManager.model self
  /\ APIManager.ollama_manager out.2 = APIManager.ollama_manager self
  /\ APIManager.limits out.2
     = if initialises w self
       then limiter_after w (answered APIManager.OPENAI w)
                          (APIManager.limits self)
       else APIManager.limits self.
Proof.
  intros Hty. unfold initialises. rewrite Hty.
  unfold APIManager._process_openai, limiter_after, answered.
  destruct self as [key mdl ty cl om lim]; simpl in *.
  destruct cl as [c|].
  - hosted_call_cases w lim.
  - unfold APIManager.initialize. simpl. rewrite Hty. simpl.
    destruct (APIManager.nonempty key); simpl; [|auto].
    destruct (new_client w) as [c|e]; simpl; [|auto].
    hosted_call_cases w lim.
Qed.

(** The limiter of the active backend after any call. *)
Lemma limiter_after_call py_str w (self : APIManager.t) rq :
  let out := APIManager.process_single_cell py_str w self rq in
  APIManager.api_type out.2 = APIManager.api_type self
  /\ active_limits out.2
     = if initialises w self
       then limiter_after w (answered (APIManager.api_type self) w)
                          (active_limits self)
       else active_limits self.
Proof.
  unfold APIManager.process_single_cell.
  destruct (APIManager.api_type self) eqn:Hty.
  - destruct (hosted_limits_after_call py_str w self rq Hty)
      as (Hty' & _ & _ & Hlim).
    cbv zeta. split; [congruence|].
    unfold active_limits. rewrite Hty', Hty. exact Hlim.
  - destruct (ollama_limits_after_call py_str w (APIManager.ollama_manager self) rq)
      as (_ & _ & Hlim).
    destruct (OllamaAPIManager.process_single_cell py_str w
                (APIManager.ollama_manager self) rq) as [[r calls] o].
    cbv zeta. simpl in *. split; [assumption|].
    unfold active_limits, initialises. simpl. rewrite Hty. exact Hlim.
Qed.

Lemma limiter_after_within w answer (l : limiter) :
  1 <= max_requests_per_minute l ->
  within_ceiling l ->
  within_ceiling (limiter_after w answer l)
  /\ max_requests_per_minute (limiter_after w answer l)
     = max_requests_per_minute l.
Proof.
  unfold within_ceiling, limiter_after, RateLimit._check_rate_limit,
    RateLimit._increment_request_count.
  intros Hmax Hl.
  destruct (Qlt_le_dec 60 (time_check w - request_start_time l)); simpl.
  - destruct answer; simpl; [|lia].
    destruct (Qlt_le_dec 60 (time_incr w - time_check w)); simpl; lia.
  - destruct (Z.ltb_spec (request_count l) (max_requests_per_minute l)); simpl;
      [|lia].
    destruct answer; simpl; [|lia].
    destruct (Qlt_le_dec 60 (time_incr w - request_start_time l)); simpl; lia.
Qed.

(** X15: a request is counted against the ceiling exactly when the call
    reached the rate check, the check passed and the backend answered: a
    refused call, a failed initialisation and a backend fault are not
    counted; and a call that returns success has always been counted. *)
Theorem request_counted_when_backend_answered
    (py_str : pyval -> string) (w : io) (self : APIManager.t)
    (rq : cell_request) :
  let out := APIManager.process_single_cell py_str w self rq in
  active_limits out.2
  = (if initialises w self
     then limiter_after w (answered (APIManager.api_type self) w)
                        (active_limits self)
     else active_limits self)
  /\ ((exists value, out.1.1 = Returns (true, Some value, None)) ->
      initialises w self = true
      /\ (RateLimit._check_rate_limit (time_check w) (active_limits self)).1
         = true
      /\ answered (APIManager.api_type self) w = true).
Proof.
  split; [apply limiter_after_call|].
  unfold APIManager.process_single_cell, active_limits, initialises, answered.
  destruct self as [key mdl ty cl om lim]; simpl.
  destruct ty; simpl.
  - unfold APIManager._process_openai. simpl.
    destruct cl as [c|]; simpl.
    + unfold APIManager._check_rate_limit; simpl.
      destruct (RateLimit._check_rate_limit (time_check w) lim) as [[] ?]; simpl;
        [|intros [v [=]]].
      destruct (chat_create w) as [[|[?|] ?]|[]]; simpl;
        intros [v Hv]; try discriminate; auto.
    + unfold APIManager.initialize. simpl.
      destruct (APIManager.nonempty key); simpl; [|intros [v [=]]].
      destruct (new_client w) as [c|e]; simpl; [|intros [v [=]]].
      unfold APIManager._check_rate_limit; simpl.
      destruct (RateLimit._check_rate_limit (time_check w) lim) as [[] ?]; simpl;
        [|intros [v [=]]].
      destruct (chat_create w) as [[|[?|] ?]|[]]; simpl;
        intros [v Hv]; try discriminate; auto.
  - unfold OllamaAPIManager.process_single_cell,
      OllamaAPIManager._check_rate_limit.
    destruct (RateLimit._check_rate_limit (time_check w)
                (OllamaAPIManager.limits om)) as [[] l]; simpl;
      [|intros [v [=]]].
    unfold OllamaAPIManager._generate_streaming.
    destruct (http_post w) as [response|e]; simpl; [|intros [v [=]]].
    destruct (status_code response =? 200); simpl; [|intros [v [=]]].
    destruct (OllamaAPIManager.stream_chunks (lines response)); simpl;
      intros [v Hv]; try discriminate; auto.
Qed.

Lemma calls_keep_within_ceiling py_str (calls : list (io * cell_request)) :
  forall (self : APIManager.t),
    1 <= max_requests_per_minute (active_limits self) ->
    within_ceiling (active_limits self) ->
    let self' := (APIManager.process_cells py_str self calls).2 in
    within_ceiling (active_limits self')
    /\ max_requests_per_minute (active_limits self')
       = max_requests_per_minute (active_limits self)
    /\ APIManager.api_type self' = APIManager.api_type self.
Proof.
  induction calls as [|[w rq] calls IH]; intros self Hmax Hin; [now simpl|].
  cbn [APIManager.process_cells].
  destruct (limiter_after_call py_str w self rq) as [Hty Hlim].
  destruct (APIManager.process_single_cell py_str w self rq)
    as [[r s] self1] eqn:Hcall.
  cbn [snd] in Hty, Hlim.
  assert (Hstep : within_ceiling (active_limits self1)
                  /\ max_requests_per_minute (active_limits self1)
                     = max_requests_per_minute (active_limits self)).
  { rewrite Hlim. destruct (initialises w self); [|now split].
    now apply limiter_after_within. }
  destruct Hstep as [Hin1 Hmax1].
  specialize (IH self1). rewrite Hmax1 in IH. specialize (IH Hmax Hin1).
  destruct (APIManager.process_cells py_str self1 calls) as [rs self2].
  cbv zeta in IH. cbn [snd] in *.
  destruct IH as (? & ? & ?). split; [assumption|]. split; congruence.
Qed.

(** X16: the request counter never passes its ceiling: on a client whose
    ceiling is at least 1 and whose counter lies between 0 and the ceiling,
    any sequence of calls, whatever the clock reads and whatever the
    backends answer, leaves the counter between 0 and the same ceiling. *)
Theorem request_count_stays_within_ceiling
    (py_str : pyval -> string) (calls : list (io * cell_request))
    (self : APIManager.t) :
  1 <= max_requests_per_minute (active_limits self) ->
  within_ceiling (active_limits self) ->
  let self' := (APIManager.process_cells py_str self calls).2 in
  within_ceiling (active_limits self')
  /\ max_requests_per_minute (active_limits self')
     = max_requests_per_minute (active_limits self).
Proof.
  intros Hmax Hin self'.
  destruct (calls_keep_within_ceiling py_str calls self Hmax Hin) as (? & ? & _).
  now split.
Qed.

(** X17: the hosted client is created on first use: a call on a manager
    without a client either fails with "API client not initialized" without
    sending anything or changing the manager (no key, or the constructor
    raises), or behaves exactly as the same call on the manager with its
    client created. *)
Theorem hosted_client_initialises_lazily
    (py_str : pyval -> string) (w : io) (self : APIManager.t)
    (rq : cell_request) :
  APIManager.api_type self = APIManager.OPENAI ->
  APIManager.client self = None ->
  let out := APIManager.process_single_cell py_str w self rq in
  if initialises w self
  then out = APIManager.process_single_cell py_str w
               (APIManager.with_client self (APIManager.api_key self) (Some tt))
               rq
  else out = (Returns (false, None, Some "API client not initialized"), [], self).
Proof.
  intros Hty Hcl. unfold initialises, APIManager.process_single_cell.
  destruct self as [key mdl ty cl om lim]; simpl in *. subst ty cl. simpl.
  unfold APIManager._process_openai, APIManager.initialize. simpl.
  destruct (APIManager.nonempty key); simpl; [|reflexivity].
  destruct (new_client w) as [[]|e]; simpl; reflexivity.
Qed.

(** The requests a call sends name the model and address of the active
    backend. *)
Lemma calls_name_active_backend py_str w (self : APIManager.t) rq call :
  In call (APIManager.process_single_cell py_str w self rq).1.2 ->
  match APIManager.api_type self with
  | APIManager.OPENAI =>
      exists system user temp max_tok,
        call = ChatCompletion (APIManager.model self) system user temp max_tok
  | APIManager.OLLAMA =>
      exists prompt system temp max_tok,
        call = Generate
                 (OllamaAPIManager.base_url (APIManager.ollama_manager self)
                    +:+ "/api/generate")
                 (OllamaAPIManager.model (APIManager.ollama_manager self))
                 prompt system temp max_tok
  end.
Proof.
  unfold APIManager.process_single_cell.
  destruct self as [key mdl ty cl om lim]; simpl.
  destruct ty; simpl.
  - unfold APIManager._process_openai. simpl.
    destruct cl as [c|]; simpl.
    + unfold APIManager._check_rate_limit; simpl.
      destruct (RateLimit._check_rate_limit (time_check w) lim) as [[] ?]; simpl;
        [|intros []].
      destruct (chat_create w) as [[|[?|] ?]|[]]; simpl;
        intros [<-|[]]; eauto.
    + unfold APIManager.initialize. simpl.
      destruct (APIManager.nonempty key); simpl; [|intros []].
      destruct (new_client w) as [c|e]; simpl; [|intros []].
      unfold APIManager._check_rate_limit; simpl.
      destruct (RateLimit._check_rate_limit (time_check w) lim) as [[] ?]; simpl;
        [|intros []].
      destruct (chat_create w) as [[|[?|] ?]|[]]; simpl;
        intros [<-|[]]; eauto.
  - unfold OllamaAPIManager.process_single_cell,
      OllamaAPIManager._check_rate_limit.
    destruct (RateLimit._check_rate_limit (time_check w)
                (OllamaAPIManager.limits om)) as [[] l]; simpl;
      [|intros []].
    unfold OllamaAPIManager._generate_streaming.
    destruct (http_post w) as [response|e]; simpl; [|intros [<-|[]]; eauto].
    destruct (status_code response =? 200); simpl; [|intros [<-|[]]; eauto].
    destruct (OllamaAPIManager.stream_chunks (lines response)); simpl;
      intros [<-|[]]; eauto.
Qed.

(** X18: a call touches only the active backend: the kind and the hosted
    model name never change; a hosted call leaves the local manager as it
    was; a local call leaves the key, the client and the hosted request
    counter as they were, and the address and model of the local
    manager too. *)
Theorem call_touches_only_active_backend
    (py_str : pyval -> string) (w : io) (self : APIManager.t)
    (rq : cell_request) :
  let out := APIManager.process_single_cell py_str w self rq in
  APIManager.api_type out.2 = APIManager.api_type self
  /\ APIManager.model out.2 = APIManager.model self
  /\ match APIManager.api_type self with
     | APIManager.OPENAI =>
         APIManager.ollama_manager out.2 = APIManager.ollama_manager self
     | APIManager.OLLAMA =>
         APIManager.api_key out.2 = APIManager.api_key self
         /\ APIManager.client out.2 = APIManager.client self
         /\ APIManager.limits out.2 = APIManager.limits self
         /\ OllamaAPIManager.base_url (APIManager.ollama_manager out.2)
            = OllamaAPIManager.base_url (APIManager.ollama_manager self)
         /\ OllamaAPIManager.model (APIManager.ollama_manager out.2)
            = OllamaAPIManager.model (APIManager.ollama_manager self)
     end.
Proof.
  unfold APIManager.process_single_cell.
  destruct (APIManager.api_type self) eqn:Hty.
  - destruct (hosted_limits_after_call py_str w self rq Hty)
      as (Hty' & Hm & Ho & _).
    cbv zeta. repeat split; congruence.
  - destruct (ollama_limits_after_call py_str w (APIManager.ollama_manager self) rq)
      as (Hu & Hm & _).
    destruct (OllamaAPIManager.process_single_cell py_str w
                (APIManager.ollama_manager self) rq) as [[r calls] o].
    cbv zeta. simpl in *. repeat split; assumption.
Qed.

(** X19: the model a request names is the one of the active backend, so
    the order of the setters matters: a model set while the hosted backend
    is active is recorded but not passed to the local manager, and after
    switching to the local backend requests still name the local manager's
    earlier model; set after the switch, it is the model the requests
    name. *)
Theorem model_set_before_switch_is_not_sent
    (py_str : pyval -> string) (w : io) (self : APIManager.t)
    (m : string) (rq : cell_request) :
  APIManager.api_type self = APIManager.OPENAI ->
  (exists early,
     APISetup.set_api_type (APISetup.set_model self m) "ollama" = Ok early
     /\ APIManager.model early = m
     /\ forall call,
          In call (APIManager.process_single_cell py_str w early rq).1.2 ->
          model_of call
          = OllamaAPIManager.model (APIManager.ollama_manager self))
  /\ (exists switched,
        APISetup.set_api_type self "ollama" = Ok switched
        /\ forall call,
             In call (APIManager.process_single_cell py_str w
                        (APISetup.set_model switched m) rq).1.2 ->
             model_of call = m).
Proof.
  intros Hty. split.
  - eexists. split; [reflexivity|]. split; [reflexivity|].
    intros call Hcall. apply calls_name_active_backend in Hcall.
    cbn in Hcall. rewrite Hty in Hcall.
    destruct Hcall as (? & ? & ? & ? & ->). reflexivity.
  - eexists. split; [reflexivity|].
    intros call Hcall. apply calls_name_active_backend in Hcall.
    cbn in Hcall. destruct Hcall as (? & ? & ? & ? & ->). reflexivity.
Qed.

(** X20: the reading loop of the stream skips keep-alive lines and lines
    that are not JSON, and stops at the first chunk marked done: whatever
    follows that chunk, even a failing connection, does not change the
    result. *)
Theorem stream_skips_noise_and_stops_at_done
    (ls pre post : list stream_line) (response : option string) :
  OllamaAPIManager.stream_chunks (List.filter (fun l => negb (noise l)) ls)
  = OllamaAPIManager.stream_chunks ls
  /\ OllamaAPIManager.stream_chunks (pre ++ Chunk response true :: post)
     = OllamaAPIManager.stream_chunks (pre ++ [Chunk response true]).
Proof.
  split.
  - induction ls as [|[| |r done|e] ls IH]; simpl; auto.
    destruct done; [reflexivity|]. now rewrite IH.
  - induction pre as [|[| |r done|e] pre IH]; simpl; auto.
    destruct done; [reflexivity|]. now rewrite IH.
Qed.

(** X21: the backend kinds are named "openai" and "ollama", exactly:
    [set_api_type] accepts the name of a kind and then only changes the
    kind, and raises [ValueError] for every other string. *)
Theorem api_type_names_round_trip (self : APIManager.t) :
  (forall ty,
     APISetup.set_api_type self (APISetup.value ty)
     = Ok {| APIManager.api_key := APIManager.api_key self;
             APIManager.model := APIManager.model self;
             APIManager.api_type := ty;
             APIManager.client := APIManager.client self;
             APIManager.ollama_manager := APIManager.ollama_manager self;
             APIManager.limits := APIManager.limits self |})
  /\ (forall s ty self',
        APISetup.set_api_type self s = Ok self' ->
        APIManager.api_type self' = ty -> s = APISetup.value ty)
  /\ (forall s,
        (forall ty, s <> APISetup.value ty) ->
        exists msg, APISetup.set_api_type self s = Fault (ValueError msg)).
Proof.
  split; [|split].
  - intros []; reflexivity.
  - intros s ty self'. unfold APISetup.set_api_type, APISetup.APIType_of.
    destruct (String.eqb_spec s "openai") as [->|_];
      [intros [= <-] <-; reflexivity|].
    destruct (String.eqb_spec s "ollama") as [->|_];
      [intros [= <-] <-; reflexivity | discriminate].
  - intros s Hs. unfold APISetup.set_api_type, APISetup.APIType_of.
    destruct (String.eqb_spec s "openai") as [->|_];
      [now destruct (Hs APIManager.OPENAI)|].
    destruct (String.eqb_spec s "ollama") as [->|_];
      [now destruct (Hs APIManager.OLLAMA)|].
    eexists. reflexivity.
Qed.

Lemma names_of_some (names : list string) :
  OllamaSetup.names_of (Some <$> names) = Ok names.
Proof.
  induction names as [|n names IH]; [reflexivity|].
  rewrite fmap_cons. simpl. now rewrite IH.
Qed.

Lemma names_of_ok (entries : list (option string)) (names : list string) :
  OllamaSetup.names_of entries = Ok names -> entries = Some <$> names.
Proof.
  revert names. induction entries as [|[n|] entries IH]; intros names; simpl.
  - now intros [= <-].
  - destruct (OllamaSetup.names_of entries) as [ns|e]; [|discriminate].
    intros [= <-]. rewrite fmap_cons. f_equal. now apply IH.
  - discriminate.
Qed.

(** X22: the local models are listed when, and only when, the server
    answers 200 with a body that parses and in which every entry has a
    name; the list shown then has one entry per name, in the order of the
    server, with the name as id and as label; in every other case, and
    when the server lists no model, the list shown is empty. *)
Theorem ollama_model_listing
    (w : setup_io) (self : APIManager.t) :
  APIManager.api_type self = APIManager.OLLAMA ->
  let found :=
    OllamaSetup.list_available_models w (APIManager.ollama_manager self) in
  let shown := APISetup.get_available_models w self in
  (forall names,
     found = (true, Some names, None)
     <-> exists response,
           get_tags w = Ok response /\ tags_status response = 200
           /\ tags_models response = Ok (Some <$> names))
  /\ (forall names,
        found = (true, Some names, None) ->
        shown = List.map (fun model => {| entry_id := model;
                                          entry_name := model;
                                          entry_api := "ollama" |}) names)
  /\ (found.1.1 = false -> shown = [])
  /\ (found.1.1 = true -> exists names, found = (true, Some names, None)).
Proof.
  intros Hty found shown. subst found shown.
  unfold APISetup.get_available_models. rewrite Hty.
  unfold OllamaSetup.list_available_models.
  destruct (get_tags w) as [response|e].
  2:{ simpl. repeat split; try discriminate.
      intros (response & [=] & _). }
  destruct (Z.eqb_spec (tags_status response) 200) as [Hst|Hst].
  2:{ simpl. repeat split; try discriminate.
      intros (response' & [= <-] & Hst' & _). contradiction. }
  destruct (tags_models response) as [entries|e] eqn:Hm.
  2:{ simpl. repeat split; try discriminate.
      intros (response' & [= <-] & _ & Hm'). congruence. }
  destruct (OllamaSetup.names_of entries) as [names|e] eqn:Hn.
  2:{ simpl. repeat split; try discriminate.
      intros (response' & [= <-] & _ & Hm').
      rewrite Hm in Hm'. injection Hm' as ->.
      rewrite names_of_some in Hn. discriminate. }
  apply names_of_ok in Hn. subst entries. split; [|split; [|split]].
  - intros names'. split.
    + intros [= <-]. exists response. auto.
    + intros (response' & [= <-] & _ & Hm').
      rewrite Hm in Hm'. injection Hm' as Hm'.
      apply (inj (fmap Some)) in Hm'. now subst.
  - intros names' [= <-]. destruct names; reflexivity.
  - discriminate.
  - intros _. eauto.
Qed.

(** X23: the connection test of the local backend succeeds exactly when
    the model listing succeeds and the one-word generation request is
    answered with status 200. *)
Theorem ollama_connection_test
    (w : setup_io) (self : OllamaAPIManager.t) :
  (OllamaSetup.test_connection w self).1 = true
  <-> (OllamaSetup.list_available_models w self).1.1 = true
      /\ exists response,
           post_hello w = inr response /\ status_code response = 200.
Proof.
  unfold OllamaSetup.test_connection.
  destruct (OllamaSetup.list_available_models w self) as [[success models] error].
  destruct success; simpl.
  2:{ split; [discriminate | intros [[=] _]]. }
  destruct (post_hello w) as [[msg|e]|response].
  - split; [discriminate | intros [_ (r & [=] & _)]].
  - split; [discriminate | intros [_ (r & [=] & _)]].
  - destruct (Z.eqb_spec (status_code response) 200) as [Hst|Hst]; simpl.
    + split; [eauto | reflexivity].
    + split; [discriminate | intros [_ (r & [= <-] & Hr)]; contradiction].
Qed.

(** X24: testing the connection is not rate limited and is not counted:
    the verdict does not depend on the request counters, and the counters,
    the kind, the model and the local manager are the same afterwards. *)
Theorem connection_test_is_not_rate_limited
    (w : io) (sw : setup_io) (self : APIManager.t) (l l' : limiter) :
  let out := APISetup.test_connection w sw self in
  let other :=
    APISetup.test_connection w sw
      (APIManager.with_limits
         (APIManager.with_ollama self
            (OllamaAPIManager.with_limits (APIManager.ollama_manager self) l'))
         l) in
  other.1 = out.1
  /\ APIManager.limits out.2 = APIManager.limits self
  /\ APIManager.ollama_manager out.2 = APIManager.ollama_manager self
  /\ APIManager.api_type out.2 = APIManager.api_type self
  /\ APIManager.model out.2 = APIManager.model self.
Proof.
  unfold APISetup.test_connection.
  destruct self as [key mdl ty cl om lim]; simpl.
  destruct ty; simpl.
  - destruct cl as [c|]; simpl.
    + destruct (chat_create w) as [[|? ?]|[]]; simpl; auto.
    + unfold APIManager.initialize; simpl.
      destruct (APIManager.nonempty key); simpl; [|auto].
      destruct (new_client w); simpl; [|auto].
      destruct (chat_create w) as [[|? ?]|[]]; simpl; auto.
  - repeat split.
Qed.

(** The batches [split_batches] cuts, for any batch size: none for a
    negative size, the tasks in order in chunks of the size for a positive
    one; a size of zero raises. *)
Lemma split_batches_shape (Client : Type) (cells : list Cell.t)
    (batch_size : Z) (s : BatchProcessor.state Client) :
  (exists e, BatchProcessor.split_batches Client cells batch_size s
             = (Raises (Exc e), s))
  \/ exists batches,
       BatchProcessor.split_batches Client cells batch_size s
       = (Returns batches, s)
       /\ concat batches `sublist_of` cells
       /\ Forall (fun batch => (length batch <= Z.to_nat batch_size)%nat) batches
       /\ (0 < batch_size -> concat batches = cells).
Proof.
  destruct (Z.lt_trichotomy batch_size 0) as [Hneg|[->|Hpos]].
  - right. exists []. unfold BatchProcessor.split_batches.
    rewrite range_not_positive by lia.
    destruct (Z.eqb_spec batch_size 0); [lia|]. split; [reflexivity|].
    split; [apply sublist_nil_l|]. split; [constructor | lia].
  - left. eexists. reflexivity.
  - right. unfold BatchProcessor.split_batches.
    destruct (range_positive (Z.of_nat (length cells)) batch_size Hpos ltac:(lia))
      as (m & -> & Hm).
    eexists. split; [reflexivity|].
    assert (Hconcat :
      concat (List.map (fun i => slice cells i (i + batch_size))
                (List.map (fun k => Z.of_nat k * batch_size) (seq 0 m)))
      = cells).
    { rewrite map_map.
      rewrite (map_ext _ (fun k => firstn (Z.to_nat batch_size)
                                     (skipn (k * Z.to_nat batch_size) cells))).
      - rewrite chunks_concat. apply firstn_all2. nia.
      - intros k. rewrite slice_chunk by lia. do 2 f_equal. nia. }
    split; [now rewrite Hconcat|]. split; [|intros _; exact Hconcat].
    apply List.Forall_forall. intros batch Hin.
    apply in_map_iff in Hin as (i & <- & Hi).
    apply in_map_iff in Hi as (k & <- & _).
    rewrite slice_chunk by lia. rewrite length_take. lia.
Qed.

(** * Further properties of the batch engine *)

Lemma succeeded_count_snoc rs r :
  succeeded_count (rs ++ [r])
  = (succeeded_count rs + if CellResult.success r then 1 else 0)%nat.
Proof.
  unfold succeeded_count. rewrite List.filter_app, length_app. simpl.
  now destruct (CellResult.success r).
Qed.

Lemma failed_count_snoc rs r :
  failed_count (rs ++ [r])
  = (failed_count rs + if CellResult.success r then 0 else 1)%nat.
Proof.
  unfold failed_count. rewrite List.filter_app, length_app. simpl.
  now destruct (CellResult.success r).
Qed.

Lemma counts_split rs :
  (succeeded_count rs + failed_count rs)%nat = length rs.
Proof. apply filter_split_length. Qed.

Section RunSemantics.

Variable py_str : pyval -> string.
Variable Client : Type.
Variable client : Client -> cell_request -> fallible cell_reply * Client.
Variables flag cancel_at : nat -> bool.
Variable cells : list Cell.t.
Variables sp up : string.
Variable temp : Q.
Variable mt : Z.
Variable pcb : bool.
Variable c0 : Client.

Local Abbreviation M := (BatchProcessor.M Client).
Local Abbreviation state := (BatchProcessor.state Client).
Local Abbreviation bind := (@BatchProcessor.bind Client _ _).
Local Abbreviation served done := (serve py_str Client client sp up temp mt c0 done).

Lemma serve_snoc (done : list Cell.t) (cell : Cell.t) :
  forall c : Client,
    serve py_str Client client sp up temp mt c (done ++ [cell])
    = let '(rs, c1) := serve py_str Client client sp up temp mt c done in
      let '(r, c2) := serve_cell py_str Client client sp up temp mt c1 cell in
      (rs ++ [r], c2).
Proof.
  induction done as [|d done IH]; intros c; simpl.
  - now destruct (serve_cell _ _ _ _ _ _ _ c cell).
  - destruct (serve_cell _ _ _ _ _ _ _ c d) as [r c1]. rewrite IH.
    destruct (serve _ _ _ _ _ _ _ c1 done) as [rs c2].
    now destruct (serve_cell _ _ _ _ _ _ _ c2 cell).
Qed.

(** What a run has done so far, against the plain loop: the results held,
    in [all_results] or among the [pending] ones of the open batch, are
    those of the tasks [done], and the counters count them. *)
Definition tallies (done : list Cell.t) (pending : list CellResult.t)
    (s : state) : Prop :=
  BatchProcessor.all_results s ++ pending = (served done).1
  /\ BatchProcessor.processed s = length done
  /\ BatchProcessor.success_count s
     = succeeded_count (BatchProcessor.all_results s ++ pending)
  /\ BatchProcessor.error_count s
     = failed_count (BatchProcessor.all_results s ++ pending).

(** The same, and the client is in the state the plain loop leaves. *)
Definition tracks (done : list Cell.t) (pending : list CellResult.t)
    (s : state) : Prop :=
  tallies done pending s /\ BatchProcessor.api_manager s = (served done).2.

(** A step that returns with [Q], or is cancelled with [E]; nothing but
    [CancelledError] is raised, and only when the task was cancelled. *)
Definition triple {A : Type} (P : state -> Prop) (m : M A)
    (Q : A -> state -> Prop) (E : state -> Prop) : Prop :=
  forall s, P s ->
    match m s with
    | (Returns a, s') => Q a s'
    | (Raises e, s') =>
        e = CancelledError /\ (exists n, cancel_at n = true) /\ E s'
    end.

Lemma triple_bind {A B : Type} (P : state -> Prop) (m : M A)
    (Q : A -> state -> Prop) (k : A -> M B) (R : B -> state -> Prop)
    (E : state -> Prop) :
  triple P m Q E -> (forall a, triple (Q a) (k a) R E) -> triple P (bind m k) R E.
Proof.
  intros Hm Hk s HP. specialize (Hm s HP). unfold BatchProcessor.bind.
  destruct (m s) as [[a|e] s1]; [now apply Hk | exact Hm].
Qed.

Lemma triple_weaken {A : Type} (P P' : state -> Prop) (m : M A)
    (Q Q' : A -> state -> Prop) (E E' : state -> Prop) :
  triple P m Q E ->
  (forall s, P' s -> P s) ->
  (forall a s, Q a s -> Q' a s) ->
  (forall s, E s -> E' s) ->
  triple P' m Q' E'.
Proof.
  intros Hm HP HQ HE s HP'. specialize (Hm s (HP s HP')).
  destruct (m s) as [[a|e] s1]; [now apply HQ|].
  destruct Hm as (? & ? & ?). auto.
Qed.

Lemma triple_ret {A : Type} (P : state -> Prop) (a : A)
    (Q : A -> state -> Prop) (E : state -> Prop) :
  (forall s, P s -> Q a s) -> triple P (BatchProcessor.ret Client a) Q E.
Proof. intros H s HP. now apply H. Qed.

(** The fields the invariants read. *)
Definition same_core (s s' : state) : Prop :=
  BatchProcessor.api_manager s' = BatchProcessor.api_manager s
  /\ BatchProcessor.processed s' = BatchProcessor.processed s
  /\ BatchProcessor.success_count s' = BatchProcessor.success_count s
  /\ BatchProcessor.error_count s' = BatchProcessor.error_count s
  /\ BatchProcessor.all_results s' = BatchProcessor.all_results s.

(** A step that leaves those fields alone. *)
Definition idle {A : Type} (m : M A) : Prop :=
  forall s,
    same_core s (m s).2
    /\ match (m s).1 with
       | Returns _ => True
       | Raises e => e = CancelledError /\ exists n, cancel_at n = true
       end.

Definition stable (P : state -> Prop) : Prop :=
  forall s s', same_core s s' -> P s -> P s'.

Lemma tallies_stable done pending : stable (tallies done pending).
Proof.
  intros s s' (_ & Hp & Hs & He & Hr) (H1 & H2 & H3 & H4).
  unfold tallies. now rewrite Hp, Hs, He, Hr.
Qed.

Lemma tracks_stable done pending : stable (tracks done pending).
Proof.
  intros s s' Hcore [Ht Hc]. split; [now apply (tallies_stable _ _ s)|].
  destruct Hcore as (-> & _). exact Hc.
Qed.

Lemma triple_idle {A B : Type} (P : state -> Prop) (m : M A) (k : A -> M B)
    (R : B -> state -> Prop) (E : state -> Prop) :
  idle m -> stable P -> (forall s, P s -> E s) ->
  (forall a, triple P (k a) R E) ->
  triple P (bind m k) R E.
Proof.
  intros Hm HP HE Hk. apply (triple_bind _ _ (fun _ => P)); [|exact Hk].
  intros s Hs. destruct (Hm s) as [Hcore Hout].
  destruct (m s) as [[a|e] s1]; simpl in *.
  - now apply (HP s).
  - destruct Hout as [-> Hn]. repeat split; [exact Hn|].
    apply HE. now apply (HP s).
Qed.

Lemma idle_get : idle (BatchProcessor.get Client).
Proof. intros s. simpl. unfold same_core. repeat split. Qed.

Lemma idle_suspend : idle (BatchProcessor.suspend Client cancel_at).
Proof.
  intros s. unfold BatchProcessor.suspend, BatchProcessor.bind,
    BatchProcessor.tick. cbn [fst snd BatchProcessor.ticks].
  destruct (cancel_at (BatchProcessor.ticks s)) eqn:Hn; simpl;
    unfold same_core; simpl; repeat split; eauto.
Qed.

Lemma idle_update_progress cb p ok failed total status :
  idle (BatchProcessor._update_progress Client cb p ok failed total status).
Proof. intros s. destruct cb; simpl; unfold same_core; simpl; repeat split. Qed.

Lemma idle_update_batch_progress cb p ok failed total a b c d :
  idle (BatchProcessor._update_batch_progress Client cb p ok failed total
                                              a b c d).
Proof. intros s. destruct cb; simpl; unfold same_core; simpl; repeat split. Qed.

(** Reading the flag: the value read is one the flag had. *)
Lemma triple_flag {B : Type} (P : state -> Prop) (k : bool -> M B)
    (R : B -> state -> Prop) (E : state -> Prop) :
  stable P ->
  (forall b, (exists n, flag n = b) -> triple P (k b) R E) ->
  triple P (bind (BatchProcessor.processing_cancelled Client flag) k) R E.
Proof.
  intros HP Hk s Hs. unfold BatchProcessor.bind,
    BatchProcessor.processing_cancelled, BatchProcessor.bind,
    BatchProcessor.tick, BatchProcessor.ret.
  apply (Hk _ (ex_intro _ (BatchProcessor.ticks s) eq_refl)).
  apply (HP s); [|exact Hs]. unfold same_core. simpl. repeat split.
Qed.

(** The call for one task: the client moves as in the plain loop; when the
    task is cancelled while the call is awaited, nothing has been
    counted. *)
Lemma process_single_cell_async_tracks cell done acc :
  triple (tracks done acc)
         (BatchProcessor._process_single_cell_async
            py_str Client client cancel_at cell sp up temp mt)
         (fun reply s =>
            tallies done acc s
            /\ serve_cell py_str Client client sp up temp mt (served done).2 cell
               = (result_of cell reply, BatchProcessor.api_manager s))
         (tallies done acc).
Proof.
  intros s [Ht Hc]. unfold BatchProcessor._process_single_cell_async,
    BatchProcessor.bind, BatchProcessor.call_client, BatchProcessor.suspend,
    BatchProcessor.bind, BatchProcessor.tick, serve_cell, request_of.
  rewrite <- Hc.
  destruct (client _ _) as [r c']. cbn [fst snd BatchProcessor.ticks].
  destruct (cancel_at (BatchProcessor.ticks s)) eqn:Hn.
  - simpl. split; [reflexivity|]. split; [eauto|]. exact Ht.
  - destruct r; simpl; (split; [exact Ht | reflexivity]).
Qed.

Lemma count_cell_tracks cell reply done acc :
  triple (fun s =>
            tallies done acc s
            /\ serve_cell py_str Client client sp up temp mt (served done).2 cell
               = (result_of cell reply, BatchProcessor.api_manager s))
         (BatchProcessor.count_cell Client reply.1.1)
         (fun _ => tracks (done ++ [cell]) (acc ++ [result_of cell reply]))
         (fun _ => False).
Proof.
  intros s [(Hr & Hp & Hs & He) Hcall]. simpl.
  unfold tracks, tallies. simpl.
  rewrite serve_snoc. destruct (served done) as [rs c1]. simpl in *.
  rewrite Hcall. simpl.
  subst rs. rewrite app_assoc, length_app, succeeded_count_snoc, failed_count_snoc.
  rewrite Hp, Hs, He. simpl.
  destruct reply as [[success result] error]. simpl.
  destruct success; repeat split; lia.
Qed.

Lemma for_cells_tracks rest :
  forall idx len_batch batch_idx n_batches acc done,
    triple (tracks done acc)
           (BatchProcessor.for_cells py_str Client client flag cancel_at
              cells sp up temp mt pcb rest idx len_batch batch_idx n_batches
              acc)
           (fun out s =>
              exists new,
                tracks (done ++ new) out s
                /\ new `sublist_of` rest
                /\ (length out <= length acc + length rest)%nat
                /\ ((forall n, flag n = false) -> new = rest))
           (fun s =>
              exists new pending,
                tallies (done ++ new) pending s
                /\ new `sublist_of` rest
                /\ (length pending <= length acc + length rest)%nat).
Proof.
  induction rest as [|cell rest IH]; intros; cbn [BatchProcessor.for_cells].
  - apply triple_ret. intros s Hs. exists []. rewrite app_nil_r.
    split; [exact Hs|]. split; [apply sublist_nil_l|]. split; [lia|].
    reflexivity.
  - apply triple_flag; [apply tracks_stable|]. intros [] [n Hn].
    + apply triple_ret. intros s Hs. exists []. rewrite app_nil_r.
      split; [exact Hs|]. split; [apply sublist_nil_l|]. split; [lia|].
      intros Hdown. rewrite Hdown in Hn. discriminate.
    + eapply triple_bind.
      { eapply triple_weaken;
          [apply (process_single_cell_async_tracks cell done acc)
          | intros s0 H; exact H | intros reply s H; exact H |].
        intros s Hs. exists [], acc. rewrite app_nil_r.
        split; [exact Hs|]. split; [apply sublist_nil_l | lia]. }
      intros reply.
      replace (let '(success, result, error) := reply in _)
        with (bind (BatchProcessor.count_cell Client reply.1.1)
                (fun _ =>
                   bind (BatchProcessor.get Client)
                     (fun s =>
                        bind (BatchProcessor._update_batch_progress Client pcb
                                (BatchProcessor.processed s)
                                (BatchProcessor.success_count s)
                                (BatchProcessor.error_count s)
                                (length cells) (idx + 1) len_batch batch_idx
                                n_batches)
                          (fun _ =>
                             bind (BatchProcessor.suspend Client cancel_at)
                               (fun _ =>
                                  BatchProcessor.for_cells
                                    py_str Client client flag cancel_at
                                    cells sp up temp mt pcb rest (S idx)
                                    len_batch batch_idx n_batches
                                    (acc ++ [result_of cell reply]))))))
        by (now destruct reply as [[success result] error]).
      set (acc' := acc ++ [result_of cell reply]).
      assert (Hcut : forall s, tracks (done ++ [cell]) acc' s ->
                exists new pending,
                  tallies (done ++ new) pending s
                  /\ new `sublist_of` cell :: rest
                  /\ (length pending <= length acc + length (cell :: rest))%nat).
      { intros s [Hs _]. exists [cell], acc'. split; [exact Hs|].
        split; [apply sublist_skip, sublist_nil_l|].
        subst acc'. rewrite length_app. simpl. lia. }
      eapply triple_bind.
      { eapply triple_weaken;
          [apply (count_cell_tracks cell reply done acc)
          | intros s0 H; exact H | intros u s H; exact H | intros s []]. }
      intros u. cbv beta.
      apply triple_idle; [apply idle_get | apply tracks_stable | exact Hcut |].
      intros s.
      apply triple_idle;
        [apply idle_update_batch_progress | apply tracks_stable | exact Hcut |].
      intros _.
      apply triple_idle; [apply idle_suspend | apply tracks_stable | exact Hcut |].
      intros _.
      eapply triple_weaken;
        [apply (IH (S idx) len_batch batch_idx n_batches acc' (done ++ [cell]))
        | intros s0 H; exact H | |].
      * intros out s1 (new & Ht & Hsub & Hlen & Hall).
        exists (cell :: new). rewrite <- app_assoc in Ht.
        split; [exact Ht|]. split; [now apply sublist_skip|].
        split; [subst acc'; rewrite length_app in Hlen; simpl in *; lia|].
        intros Hdown. now rewrite (Hall Hdown).
      * intros s1 (new & pending & Ht & Hsub & Hlen).
        exists (cell :: new), pending. rewrite <- app_assoc in Ht.
        split; [exact Ht|]. split; [now apply sublist_skip|].
        subst acc'. rewrite length_app in Hlen. simpl in *. lia.
Qed.

Lemma extend_results_tracks out done :
  triple (tracks done out)
         (BatchProcessor.extend_results Client out)
         (fun _ => tracks done [])
         (fun _ => False).
Proof.
  intros s [(Hr & Hp & Hs & He) Hc]. simpl. unfold tracks, tallies. simpl.
  rewrite !app_nil_r. repeat split; assumption.
Qed.

Lemma for_batches_tracks (bound : nat) rest :
  Forall (fun batch => (length batch <= bound)%nat) rest ->
  forall batch_idx n_batches done,
    triple (tracks done [])
           (BatchProcessor.for_batches py_str Client client flag cancel_at
              cells sp up temp mt pcb rest batch_idx n_batches)
           (fun _ s =>
              exists sub,
                tracks (done ++ sub) [] s
                /\ sub `sublist_of` concat rest
                /\ ((forall n, flag n = false) -> sub = concat rest))
           (fun s =>
              exists sub pending,
                tallies (done ++ sub) pending s
                /\ sub `sublist_of` concat rest
                /\ (length pending <= bound)%nat).
Proof.
  induction rest as [|batch rest IH]; intros Hbound batch_idx n_batches done;
    cbn [BatchProcessor.for_batches].
  - apply triple_ret. intros s Hs. exists []. rewrite app_nil_r.
    split; [exact Hs|]. split; [apply sublist_nil_l | reflexivity].
  - apply Forall_cons in Hbound as [Hbatch Hbound].
    assert (Hcut : forall s, tracks done [] s ->
              exists sub pending,
                tallies (done ++ sub) pending s
                /\ sub `sublist_of` concat (batch :: rest)
                /\ (length pending <= bound)%nat).
    { intros s [Hs _]. exists [], []. rewrite app_nil_r.
      split; [exact Hs|]. split; [apply sublist_nil_l | simpl; lia]. }
    apply triple_flag; [apply tracks_stable|]. intros [] [n Hn].
    + apply triple_ret. intros s Hs. exists []. rewrite app_nil_r.
      split; [exact Hs|]. split; [apply sublist_nil_l|].
      intros Hdown. rewrite Hdown in Hn. discriminate.
    + apply triple_idle; [apply idle_get | apply tracks_stable | exact Hcut |].
      intros s.
      apply triple_idle;
        [apply idle_update_progress | apply tracks_stable | exact Hcut |].
      intros _.
      eapply triple_bind.
      { eapply triple_weaken;
          [apply (for_cells_tracks batch 0 (length batch) batch_idx n_batches
                    [] done)
          | intros s0 H; exact H | intros out s1 H; exact H |].
        intros s1 (new & pending & Ht & Hsub & Hlen).
        exists new, pending. split; [exact Ht|].
        split; [cbn [concat]; now apply sublist_inserts_r|].
        simpl in Hlen. lia. }
      intros out.
      apply (triple_weaken
               (fun s => exists new,
                           tracks (done ++ new) out s
                           /\ new `sublist_of` batch
                           /\ ((forall n, flag n = false) -> new = batch))
               _ _
               (fun _ s =>
                  exists sub,
                    tracks (done ++ sub) [] s
                    /\ sub `sublist_of` concat (batch :: rest)
                    /\ ((forall n, flag n = false) -> sub = concat (batch :: rest)))
               _
               (fun s =>
                  exists sub pending,
                    tallies (done ++ sub) pending s
                    /\ sub `sublist_of` concat (batch :: rest)
                    /\ (length pending <= bound)%nat));
        [| intros s1 (new & Ht & Hsub & _ & Hall); eauto | auto | auto].
      intros s1 (new & Ht & Hsub & Hall). revert s1 Ht.
      change (triple (tracks (done ++ new) out)
                (bind (BatchProcessor.extend_results Client out)
                   (fun _ =>
                      bind (BatchProcessor.get Client)
                        (fun s' =>
                           bind (BatchProcessor._update_progress Client pcb
                                   (BatchProcessor.processed s')
                                   (BatchProcessor.success_count s')
                                   (BatchProcessor.error_count s')
                                   (length cells)
                                   ("Completed batch "
                                      +:+ str_nat (batch_idx + 1)
                                      +:+ " of " +:+ str_nat n_batches))
                             (fun _ =>
                                bind (BatchProcessor.suspend Client cancel_at)
                                  (fun _ =>
                                     BatchProcessor.for_batches
                                       py_str Client client flag cancel_at
                                       cells sp up temp mt pcb rest
                                       (S batch_idx) n_batches)))))
                (fun _ s =>
                   exists sub,
                     tracks (done ++ sub) [] s
                     /\ sub `sublist_of` concat (batch :: rest)
                     /\ ((forall n, flag n = false) ->
                         sub = concat (batch :: rest)))
                (fun s =>
                   exists sub pending,
                     tallies (done ++ sub) pending s
                     /\ sub `sublist_of` concat (batch :: rest)
                     /\ (length pending <= bound)%nat)).
      assert (Hcut' : forall s, tracks (done ++ new) [] s ->
                exists sub pending,
                  tallies (done ++ sub) pending s
                  /\ sub `sublist_of` concat (batch :: rest)
                  /\ (length pending <= bound)%nat).
      { intros s2 [Hs _]. exists new, [].
        split; [exact Hs|].
        split; [cbn [concat]; now apply sublist_inserts_r | simpl; lia]. }
      eapply triple_bind.
      { eapply triple_weaken;
          [apply (extend_results_tracks out (done ++ new))
          | intros s0 H; exact H | intros u s0 H; exact H | intros s0 []]. }
      intros u. cbv beta.
      apply triple_idle; [apply idle_get | apply tracks_stable | exact Hcut' |].
      intros s'.
      apply triple_idle;
        [apply idle_update_progress | apply tracks_stable | exact Hcut' |].
      intros _.
      apply triple_idle;
        [apply idle_suspend | apply tracks_stable | exact Hcut' |].
      intros _.
      eapply triple_weaken;
        [apply (IH Hbound (S batch_idx) n_batches (done ++ new))
        | intros s0 H; exact H | |].
      * intros _ s2 (sub & Ht & Hsub' & Hall').
        exists (new ++ sub). rewrite <- app_assoc in Ht.
        split; [exact Ht|]. split; [cbn [concat]; now apply sublist_app|].
        intros Hdown. cbn [concat]. now rewrite (Hall Hdown), (Hall' Hdown).
      * intros s2 (sub & pending & Ht & Hsub' & Hlen).
        exists (new ++ sub), pending. rewrite <- app_assoc in Ht.
        split; [exact Ht|]. split; [cbn [concat]; now apply sublist_app|].
        exact Hlen.
Qed.

Lemma final_update_result (s : state) :
  exists s',
    BatchProcessor.final_update Client flag cells pcb true s = (Returns tt, s')
    /\ BatchProcessor.completions (BatchProcessor.ui_queue s')
       = BatchProcessor.completions (BatchProcessor.ui_queue s)
           ++ [(BatchProcessor.all_results s, BatchProcessor.success_count s,
                BatchProcessor.error_count s)]
    /\ same_core s s'.
Proof.
  destruct pcb; eexists; (split; [cbn; reflexivity|]);
    (split; [|repeat split]);
    cbn -[BatchProcessor.completions]; rewrite !completions_app;
    cbn [BatchProcessor.completions flat_map app];
    rewrite ?app_nil_r; reflexivity.
Qed.

Lemma except_clauses_result e (s : state) :
  exists s',
    BatchProcessor.except_clauses Client cells pcb true e s = (Returns tt, s')
    /\ BatchProcessor.completions (BatchProcessor.ui_queue s')
       = BatchProcessor.completions (BatchProcessor.ui_queue s)
           ++ [(BatchProcessor.all_results s, BatchProcessor.success_count s,
                BatchProcessor.error_count s)]
    /\ same_core s s'.
Proof.
  destruct e as [|e], pcb; eexists; (split; [reflexivity|]);
    (split; [|repeat split]);
    cbn -[BatchProcessor.completions]; rewrite !completions_app;
    cbn [BatchProcessor.completions flat_map app];
    rewrite ?app_nil_r; reflexivity.
Qed.

(** Every run against the plain loop. *)
Lemma run_outcome (batch_size : Z) (now : nat)
    (queue : list BatchProcessor.ui_call) :
  exists (s' : state) results ok failed done lost,
    BatchProcessor._process_batches_async py_str Client client flag cancel_at
      cells sp up batch_size temp mt pcb true c0 now queue
    = (Returns tt, s')
    /\ BatchProcessor.completions (BatchProcessor.ui_queue s')
       = BatchProcessor.completions queue ++ [(results, ok, failed)]
    /\ done `sublist_of` cells
    /\ results ++ lost = (served done).1
    /\ BatchProcessor.processed s' = length done
    /\ ok = succeeded_count (results ++ lost)
    /\ failed = failed_count (results ++ lost)
    /\ (length lost <= Z.to_nat batch_size)%nat
    /\ ((forall n, cancel_at n = false) -> lost = [])
    /\ (0 < batch_size ->
        (forall n, flag n = false) -> (forall n, cancel_at n = false) ->
        done = cells /\ BatchProcessor.api_manager s' = (served cells).2).
Proof.
  unfold BatchProcessor._process_batches_async, BatchProcessor.try_block.
  set (s0 := {| BatchProcessor.api_manager := c0; BatchProcessor.ticks := now;
                BatchProcessor.ui_queue := queue;
                BatchProcessor.processed := 0;
                BatchProcessor.success_count := 0;
                BatchProcessor.error_count := 0;
                BatchProcessor.all_results := [] |}).
  assert (Hstart : tracks [] [] s0) by (repeat split).
  destruct (split_batches_shape Client cells batch_size s0)
    as [[e Esplit]|(batches & Esplit & Hsub & Hbound & Hall)].
  - unfold BatchProcessor.bind at 1. rewrite Esplit.
    destruct (except_clauses_result (Exc e) s0) as (s' & E & Hd & Hcore).
    exists s', [], 0%nat, 0%nat, [], [].
    split; [exact E|]. split; [exact Hd|].
    destruct Hcore as (_ & Hp & _).
    split; [apply sublist_nil_l|]. repeat split; try (rewrite Hp; reflexivity).
    + simpl. lia.
    + destruct (Z.eqb_spec batch_size 0) as [->|Hne]; [lia|].
      unfold BatchProcessor.split_batches in Esplit.
      unfold range in Esplit.
      destruct (batch_size =? 0) eqn:Hz; [lia | discriminate].
    + destruct (Z.eqb_spec batch_size 0) as [->|Hne]; [lia|].
      unfold BatchProcessor.split_batches in Esplit.
      unfold range in Esplit.
      destruct (batch_size =? 0) eqn:Hz; [lia | discriminate].
  - unfold BatchProcessor.bind at 1. rewrite Esplit.
    pose proof (for_batches_tracks (Z.to_nat batch_size) batches Hbound 0
                  (length batches) [] s0 Hstart) as Hloop.
    pose proof (quiet_for_batches py_str Client client flag cancel_at
                  cells sp up temp mt pcb batches 0 (length batches) s0)
      as Hquiet.
    unfold BatchProcessor.bind at 1.
    destruct (BatchProcessor.for_batches py_str Client client flag cancel_at
                cells sp up temp mt pcb batches 0 (length batches) s0)
      as [[[]|e] s1]; cbn [snd] in Hquiet.
    + destruct Hloop as (sub & [(Hr & Hp & Hs & He) Hc] & Hsub' & Hdown).
      destruct (final_update_result s1) as (s' & E & Hd & Hcore).
      rewrite app_nil_r in Hr, Hs, He. simpl in Hr, Hc, Hp.
      exists s', (BatchProcessor.all_results s1),
        (BatchProcessor.success_count s1), (BatchProcessor.error_count s1),
        sub, [].
      split; [now rewrite E|]. split; [now rewrite Hd, Hquiet|].
      destruct Hcore as (Hc' & Hp' & _).
      rewrite app_nil_r.
      split; [now transitivity (concat batches)|].
      split; [exact Hr|]. split; [congruence|].
      split; [exact Hs|]. split; [exact He|]. split; [simpl; lia|].
      split; [reflexivity|].
      intros Hpos Hflag _. rewrite (Hdown Hflag), (Hall Hpos).
      split; [reflexivity|]. rewrite Hc', Hc, (Hdown Hflag), (Hall Hpos).
      reflexivity.
    + destruct Hloop as (-> & [n Hn] & sub & pending & (Hr & Hp & Hs & He)
                         & Hsub' & Hlen).
      destruct (except_clauses_result CancelledError s1)
        as (s' & E & Hd & Hcore).
      simpl in Hr, Hp.
      exists s', (BatchProcessor.all_results s1),
        (BatchProcessor.success_count s1), (BatchProcessor.error_count s1),
        sub, pending.
      split; [exact E|]. split; [now rewrite Hd, Hquiet|].
      destruct Hcore as (_ & Hp' & _).
      split; [now transitivity (concat batches)|].
      split; [exact Hr|]. split; [congruence|].
      split; [exact Hs|]. split; [exact He|]. split; [exact Hlen|].
      split; [intros Hnone; rewrite Hnone in Hn; discriminate|].
      intros _ _ Hnone. rewrite Hnone in Hn. discriminate.
Qed.

End RunSemantics.

(** X25: a run that nobody cancels is the plain loop over the tasks: the
    completion callback receives, for every task in task order, the result
    of one call of the client, made in that order on the client as the
    previous call left it (an exception of the client becomes a failed
    result carrying its text); the two counts are the numbers of successful
    and of failed results; and the client ends in the state the loop
    leaves. *)
Theorem uncancelled_run_is_the_plain_loop
    (py_str : pyval -> string) (Client : Type)
    (client : Client -> cell_request -> fallible cell_reply * Client)
    (flag cancel_at : nat -> bool)
    (cells : list Cell.t) (sp up : string) (batch_size : Z) (temp : Q)
    (mt : Z) (pcb : bool) (c : Client) (now : nat)
    (queue : list BatchProcessor.ui_call) :
  0 < batch_size ->
  (forall n, flag n = false) ->
  (forall n, cancel_at n = false) ->
  let expected := serve py_str Client client sp up temp mt c cells in
  exists s',
    BatchProcessor._process_batches_async py_str Client client flag cancel_at
      cells sp up batch_size temp mt pcb true c now queue
    = (Returns tt, s')
    /\ BatchProcessor.completions (BatchProcessor.ui_queue s')
       = BatchProcessor.completions queue
           ++ [(expected.1, succeeded_count expected.1,
                failed_count expected.1)]
    /\ BatchProcessor.api_manager s' = expected.2
    /\ BatchProcessor.processed s' = length cells.
Proof.
  intros Hpos Hflag Hcancel expected.
  destruct (run_outcome py_str Client client flag cancel_at cells sp up temp mt
              pcb c batch_size now queue)
    as (s' & results & ok & failed & done & lost & E & Hd & _ & Hr & Hp
        & -> & -> & _ & Hlost & Hall).
  destruct (Hall Hpos Hflag Hcancel) as [-> Hc].
  rewrite (Hlost Hcancel), app_nil_r in *.
  exists s'. split; [exact E|]. subst expected. rewrite <- Hr.
  repeat split; assumption.
Qed.

(** X26: in every run, cancelled or not and with any batch size, the
    tasks processed are some of the tasks, in task order; each was served
    by one call of the client in that order; the counts given to the
    completion callback count all of them; and the results given to it
    are theirs except for the last ones, fewer than or as many as one batch,
    which are dropped only when the task itself was cancelled. *)
Theorem cancelled_run_drops_at_most_one_batch
    (py_str : pyval -> string) (Client : Type)
    (client : Client -> cell_request -> fallible cell_reply * Client)
    (flag cancel_at : nat -> bool)
    (cells : list Cell.t) (sp up : string) (batch_size : Z) (temp : Q)
    (mt : Z) (pcb : bool) (c : Client) (now : nat)
    (queue : list BatchProcessor.ui_call) :
  exists s' results ok failed done lost,
    BatchProcessor._process_batches_async py_str Client client flag cancel_at
      cells sp up batch_size temp mt pcb true c now queue
    = (Returns tt, s')
    /\ BatchProcessor.completions (BatchProcessor.ui_queue s')
       = BatchProcessor.completions queue ++ [(results, ok, failed)]
    /\ done `sublist_of` cells
    /\ results ++ lost = (serve py_str Client client sp up temp mt c done).1
    /\ BatchProcessor.processed s' = length done
    /\ ok = succeeded_count (results ++ lost)
    /\ failed = failed_count (results ++ lost)
    /\ (length lost <= Z.to_nat batch_size)%nat
    /\ ((forall n, cancel_at n = false) -> lost = []).
Proof.
  destruct (run_outcome py_str Client client flag cancel_at cells sp up temp mt
              pcb c batch_size now queue)
    as (s' & results & ok & failed & done & lost & E & Hd & Hsub & Hr & Hp
        & Hok & Hfailed & Hlen & Hlost & _).
  exists s', results, ok, failed, done, lost. repeat split; assumption.
Qed.

Section Reporting.

Variable py_str : pyval -> string.
Variable Client : Type.
Variable client : Client -> cell_request -> fallible cell_reply * Client.
Variables flag cancel_at : nat -> bool.
Variable cells : list Cell.t.
Variables sp up : string.
Variable temp : Q.
Variable mt : Z.
Variable pcb : bool.

Local Abbreviation M := (BatchProcessor.M Client).
Local Abbreviation state := (BatchProcessor.state Client).
Local Abbreviation bind := (@BatchProcessor.bind Client _ _).
Local Abbreviation update c :=
  (pcb = true /\ progress_for (length cells) c).

(** A step that schedules nothing but progress updates for this run, and
    none without a progress callback. *)
Definition reports {A : Type} (m : M A) : Prop :=
  forall s : state,
    exists updates,
      BatchProcessor.ui_queue (m s).2 = BatchProcessor.ui_queue s ++ updates
      /\ Forall (fun c => update c) updates.

Lemma reports_bind {A B : Type} (m : M A) (k : A -> M B) :
  reports m -> (forall a, reports (k a)) -> reports (bind m k).
Proof.
  intros Hm Hk s. unfold BatchProcessor.bind.
  destruct (Hm s) as (u1 & E1 & H1).
  destruct (m s) as [[a|e] s1]; simpl in *; [|eauto].
  destruct (Hk a s1) as (u2 & E2 & H2).
  exists (u1 ++ u2). rewrite E2, E1, app_assoc.
  split; [reflexivity | now apply Forall_app].
Qed.

Lemma bind_assoc {A B C : Type} (m : M A) (f : A -> M B) (g : B -> M C)
    (s : state) :
  bind (bind m f) g s = bind m (fun a => bind (f a) g) s.
Proof. unfold BatchProcessor.bind. now destruct (m s) as [[a|e] s1]. Qed.

Lemma reports_nothing {A : Type} (m : M A) :
  (forall s, BatchProcessor.ui_queue (m s).2 = BatchProcessor.ui_queue s) ->
  reports m.
Proof.
  intros H s. exists []. rewrite app_nil_r. split; [apply H | constructor].
Qed.

Lemma reports_processing_cancelled :
  reports (BatchProcessor.processing_cancelled Client flag).
Proof. now apply reports_nothing. Qed.

Lemma reports_suspend : reports (BatchProcessor.suspend Client cancel_at).
Proof.
  apply reports_nothing. intros s.
  unfold BatchProcessor.suspend, BatchProcessor.bind, BatchProcessor.tick.
  cbn [fst snd BatchProcessor.ticks].
  now destruct (cancel_at (BatchProcessor.ticks s)).
Qed.

Lemma reports_update_progress p ok failed status :
  reports (BatchProcessor._update_progress Client pcb p ok failed
                                           (length cells) status).
Proof.
  intros s. unfold BatchProcessor._update_progress.
  destruct pcb eqn:Hpcb; simpl.
  - eexists. split; [reflexivity|]. repeat constructor.
  - exists []. now rewrite app_nil_r.
Qed.

Lemma reports_update_batch_progress p ok failed a b c d :
  reports (BatchProcessor._update_batch_progress Client pcb p ok failed
                                                 (length cells) a b c d).
Proof.
  intros s. unfold BatchProcessor._update_batch_progress.
  destruct pcb eqn:Hpcb; simpl.
  - eexists. split; [reflexivity|]. repeat constructor.
  - exists []. now rewrite app_nil_r.
Qed.

Lemma reports_process_single_cell_async cell :
  reports (BatchProcessor._process_single_cell_async
             py_str Client client cancel_at cell sp up temp mt).
Proof.
  apply reports_nothing. intros s.
  unfold BatchProcessor._process_single_cell_async,
    BatchProcessor.bind, BatchProcessor.call_client, BatchProcessor.suspend,
    BatchProcessor.bind, BatchProcessor.tick.
  destruct (client _ _) as [r c']. cbn [fst snd BatchProcessor.ticks].
  destruct (cancel_at _); [reflexivity|]. now destruct r.
Qed.

Lemma reports_for_cells rest :
  forall idx len_batch batch_idx n_batches acc,
    reports (BatchProcessor.for_cells py_str Client client flag cancel_at
               cells sp up temp mt pcb rest idx len_batch batch_idx n_batches
               acc).
Proof.
  induction rest as [|cell rest IH]; intros; cbn [BatchProcessor.for_cells].
  - now apply reports_nothing.
  - apply reports_bind; [apply reports_processing_cancelled|].
    intros []; [now apply reports_nothing|].
    apply reports_bind; [apply reports_process_single_cell_async|].
    intros [[ok result] error].
    apply reports_bind; [now apply reports_nothing|]. intros _.
    apply reports_bind; [now apply reports_nothing|]. intros s.
    apply reports_bind; [apply reports_update_batch_progress|]. intros _.
    apply reports_bind; [apply reports_suspend|]. intros _.
    apply IH.
Qed.

Lemma reports_for_batches rest :
  forall batch_idx n_batches,
    reports (BatchProcessor.for_batches py_str Client client flag cancel_at
               cells sp up temp mt pcb rest batch_idx n_batches).
Proof.
  induction rest as [|batch rest IH]; intros; cbn [BatchProcessor.for_batches].
  - now apply reports_nothing.
  - apply reports_bind; [apply reports_processing_cancelled|].
    intros []; [now apply reports_nothing|].
    apply reports_bind; [now apply reports_nothing|]. intros s.
    apply reports_bind; [apply reports_update_progress|]. intros _.
    apply reports_bind; [apply reports_for_cells|]. intros out.
    apply reports_bind; [now apply reports_nothing|]. intros _.
    apply reports_bind; [now apply reports_nothing|]. intros s'.
    apply reports_bind; [apply reports_update_progress|]. intros _.
    apply reports_bind; [apply reports_suspend|]. intros _.
    apply IH.
Qed.

Lemma reports_split_batches batch_size :
  reports (BatchProcessor.split_batches Client cells batch_size).
Proof.
  apply reports_nothing. intros s. unfold BatchProcessor.split_batches.
  now destruct (range _ _ _).
Qed.

Lemma final_update_closes (s : state) :
  exists s' updates results ok failed,
    BatchProcessor.final_update Client flag cells pcb true s = (Returns tt, s')
    /\ BatchProcessor.ui_queue s'
       = BatchProcessor.ui_queue s
           ++ updates ++ [BatchProcessor.Completion results ok failed]
    /\ Forall (fun c => update c) updates.
Proof.
  unfold BatchProcessor.final_update.
  destruct pcb eqn:Hpcb.
  - eexists _, [_], _, _, _. split; [cbn; reflexivity|].
    split; [cbn; now rewrite <- app_assoc | repeat constructor].
  - eexists _, [], _, _, _. split; [cbn; reflexivity|].
    split; [reflexivity | constructor].
Qed.

Lemma except_clauses_close e (s : state) :
  exists s' updates results ok failed,
    BatchProcessor.except_clauses Client cells pcb true e s = (Returns tt, s')
    /\ BatchProcessor.ui_queue s'
       = BatchProcessor.ui_queue s
           ++ updates ++ [BatchProcessor.Completion results ok failed]
    /\ Forall (fun c => update c) updates.
Proof.
  unfold BatchProcessor.except_clauses.
  destruct pcb eqn:Hpcb, e as [|e].
  - eexists _, [_], _, _, _. split; [cbn; reflexivity|].
    split; [cbn; now rewrite <- app_assoc | repeat constructor].
  - eexists _, [_], _, _, _. split; [cbn; reflexivity|].
    split; [cbn; now rewrite <- app_assoc | repeat constructor].
  - eexists _, [], _, _, _. split; [cbn; reflexivity|].
    split; [reflexivity | constructor].
  - eexists _, [], _, _, _. split; [cbn; reflexivity|].
    split; [reflexivity | constructor].
Qed.

Lemma run_schedule (batch_size : Z) (c : Client) (now : nat)
    (queue : list BatchProcessor.ui_call) :
  exists (s' : state) updates results ok failed,
    BatchProcessor._process_batches_async py_str Client client flag cancel_at
      cells sp up batch_size temp mt pcb true c now queue
    = (Returns tt, s')
    /\ BatchProcessor.ui_queue s'
       = queue ++ updates ++ [BatchProcessor.Completion results ok failed]
    /\ Forall (fun c => update c) updates.
Proof.
  unfold BatchProcessor._process_batches_async, BatchProcessor.try_block.
  set (s0 := {| BatchProcessor.api_manager := c; BatchProcessor.ticks := now;
                BatchProcessor.ui_queue := queue;
                BatchProcessor.processed := 0;
                BatchProcessor.success_count := 0;
                BatchProcessor.error_count := 0;
                BatchProcessor.all_results := [] |}).
  set (loops :=
         bind (BatchProcessor.split_batches Client cells batch_size)
           (fun batches =>
              BatchProcessor.for_batches py_str Client client flag cancel_at
                cells sp up temp mt pcb batches 0 (length batches))).
  assert (Hloops : reports loops).
  { apply reports_bind; [apply reports_split_batches|].
    intros batches. apply reports_for_batches. }
  rewrite <- (bind_assoc
                (BatchProcessor.split_batches Client cells batch_size)
                (fun batches =>
                   BatchProcessor.for_batches py_str Client client flag
                     cancel_at cells sp up temp mt pcb batches 0
                     (length batches))
                (fun _ => BatchProcessor.final_update Client flag cells pcb
                            true) s0).
  fold loops. unfold BatchProcessor.bind at 1.
  destruct (Hloops s0) as (u1 & E1 & H1).
  destruct (loops s0) as [[[]|e] s1]; cbn [snd] in E1.
  - destruct (final_update_closes s1)
      as (s' & u2 & results & ok & failed & E & E2 & H2).
    exists s', (u1 ++ u2), results, ok, failed.
    split; [now rewrite E|].
    split; [rewrite E2, E1; simpl; now rewrite !app_assoc | now apply Forall_app].
  - destruct (except_clauses_close e s1)
      as (s' & u2 & results & ok & failed & E & E2 & H2).
    exists s', (u1 ++ u2), results, ok, failed.
    split; [exact E|].
    split; [rewrite E2, E1; simpl; now rewrite !app_assoc | now apply Forall_app].
Qed.

End Reporting.

(** X27: the completion call is the last thing a run schedules on the
    main loop, and everything it schedules before is a progress update
    whose total is the number of tasks given; without a progress
    callback the completion call is the only call. *)
Theorem completion_is_scheduled_last
    (py_str : pyval -> string) (Client : Type)
    (client : Client -> cell_request -> fallible cell_reply * Client)
    (flag cancel_at : nat -> bool)
    (cells : list Cell.t) (sp up : string) (batch_size : Z) (temp : Q)
    (mt : Z) (pcb : bool) (c : Client) (now : nat)
    (queue : list BatchProcessor.ui_call) :
  exists s' updates results ok failed,
    BatchProcessor._process_batches_async py_str Client client flag cancel_at
      cells sp up batch_size temp mt pcb true c now queue
    = (Returns tt, s')
    /\ BatchProcessor.ui_queue s'
       = queue ++ updates ++ [BatchProcessor.Completion results ok failed]
    /\ Forall (progress_for (length cells)) updates
    /\ (pcb = false -> updates = []).
Proof.
  destruct (run_schedule py_str Client client flag cancel_at cells sp up temp mt
              pcb batch_size c now queue)
    as (s' & updates & results & ok & failed & E & Hq & Hu).
  exists s', updates, results, ok, failed.
  split; [exact E|]. split; [exact Hq|]. split.
  - eapply Forall_impl; [exact Hu|]. now intros u [_ H].
  - intros Hpcb. destruct updates as [|u updates]; [reflexivity|].
    apply Forall_cons in Hu as [[Hu _] _]. congruence.
Qed.

(** * The components together *)

Lemma serve_keys py_str Client client sp up temp mt (cells : list Cell.t) :
  forall c : Client,
    List.map result_key (serve py_str Client client sp up temp mt c cells).1
    = List.map task_key cells.
Proof.
  induction cells as [|cell cells IH]; intros c; [reflexivity|].
  simpl. unfold serve_cell at 1.
  destruct (client c _) as [r c1].
  specialize (IH c1). destruct (serve _ _ _ _ _ _ _ c1 cells) as [rs c2].
  simpl in *. rewrite IH. f_equal.
  now destruct (reply_of r) as [[success result] error].
Qed.

Lemma serve_writable py_str Client client sp up temp mt (cells : list Cell.t) :
  (forall c rq result error,
     (client c rq).1 <> Ok (true, result, error) \/ result <> None) ->
  forall c : Client,
    Forall writable (serve py_str Client client sp up temp mt c cells).1.
Proof.
  intros Hclient. induction cells as [|cell cells IH]; intros c; [constructor|].
  simpl. unfold serve_cell at 1.
  pose proof (Hclient c (request_of py_str sp up temp mt cell)) as Hc.
  destruct (client c _) as [r c1].
  specialize (IH c1). destruct (serve _ _ _ _ _ _ _ c1 cells) as [rs c2].
  simpl in *. constructor; [|exact IH].
  unfold writable. destruct r as [[[success result] error]|e]; simpl;
    [|discriminate].
  intros ->. destruct (Hc result error) as [H|H]; [now destruct H | exact H].
Qed.

Lemma api_client_writable py_str world st rq result error :
  (api_client py_str world st rq).1 <> Ok (true, result, error)
  \/ result <> None.
Proof.
  unfold api_client. destruct st as [self n].
  assert (Hshape : exists r calls self',
            APIManager.process_single_cell py_str (world n) self rq
            = (Returns r, calls, self') /\ reply_shape r).
  { unfold APIManager.process_single_cell.
    destruct (APIManager.api_type self); [apply openai_reply_shape|].
    destruct (ollama_reply_shape py_str (world n)
                (APIManager.ollama_manager self) rq)
      as (r & calls & o & -> & Hr).
    eauto. }
  destruct Hshape as (r & calls & self' & -> & Hr). simpl.
  destruct Hr as [(value & -> & _)|(message & ->)].
  - destruct result; [right; discriminate | left; discriminate].
  - left. discriminate.
Qed.

(** X28: from the table to the client and back.  For tasks read from the
    table by [_run_transformation] and a run of the engine on the
    transformation client, cancelled or not, every successful result the
    completion callback receives names a cell of the table and carries a
    text: unless the progress window has been closed, [update_range] is
    given them all and applies those the table accepts, failing the
    others; when the table accepts every text, it applies them all and
    fails none; and unless the task was cancelled the number of successful
    results is the success count the callback was given. *)
Theorem delivered_results_are_written_back
    (py_str : pyval -> string) (world : nat -> io)
    (flag cancel_at : nat -> bool)
    (d : DataManager.disk) (r : reader) (w : MainWindow.window)
    (dm : DataManager.t) (frame : DataManager.DataFrame)
    (start_row end_row : Z) (cols : list string) (ctx : option (list string))
    (cells : list Cell.t) (sp up : string) (batch_size : Z) (temp : Q)
    (mt : Z) (pcb : bool) (self : APIManager.t) (now : nat)
    (queue : list BatchProcessor.ui_call) (auto_save : bool) :
  MainWindow.cells_to_process dm start_row end_row cols ctx = Some cells ->
  DataManager.df dm = Some frame ->
  exists s' results ok failed,
    BatchProcessor._process_batches_async py_str (APIManager.t * nat)
      (api_client py_str world) flag cancel_at
      cells sp up batch_size temp mt pcb true (self, 0%nat) now queue
    = (Returns tt, s')
    /\ BatchProcessor.completions (BatchProcessor.ui_queue s')
       = BatchProcessor.completions queue ++ [(results, ok, failed)]
    /\ (MainWindow._processing_completed d r w dm results ok auto_save).1
       = (if MainWindow.progress_window_exists w
          then Some (length (List.filter (accepted frame)
                               (MainWindow.successful_results results)),
                     length (List.filter (fun r => negb (accepted frame r))
                               (MainWindow.successful_results results)))
          else None)
    /\ ((forall row col value,
           DataManager.accepts frame row col (PStr value) = true) ->
        MainWindow.progress_window_exists w = true ->
        (MainWindow._processing_completed d r w dm results ok auto_save).1
        = Some (succeeded_count results, 0%nat))
    /\ ((forall n, cancel_at n = false) -> succeeded_count results = ok).
Proof.
  intros Hcells Hdf.
  destruct (cells_to_process_range _ _ _ _ _ _ Hcells)
    as (frame' & Hdf' & _ & _ & Hrange).
  assert (frame' = frame) by congruence. subst frame'.
  destruct (run_outcome py_str (APIManager.t * nat) (api_client py_str world)
              flag cancel_at cells sp up temp mt pcb (self, 0%nat)
              batch_size now queue)
    as (s' & results & ok & failed & done & lost & E & Hd & Hsub & Hr & _
        & Hok & _ & _ & Hlost & _).
  exists s', results, ok, failed.
  split; [exact E|]. split; [exact Hd|].
  pose proof (serve_keys py_str _ (api_client py_str world) sp up temp mt
                done (self, 0%nat)) as Hkeys.
  pose proof (serve_writable py_str _ (api_client py_str world) sp up temp mt
                done (api_client_writable py_str world) (self, 0%nat))
    as Hwr.
  rewrite <- Hr in Hkeys, Hwr.
  apply Forall_app in Hwr as [Hwr _]. rewrite List.Forall_forall in Hwr.
  assert (Htable : forall r, In r results ->
            0 <= CellResult.row r < DataManager.len frame
            /\ in_list (CellResult.col r) (DataManager.columns frame) = true).
  { intros r0 Hin.
    assert (Hkey : In (result_key r0) (List.map task_key done)).
    { rewrite <- Hkeys, map_app. apply in_or_app. left. now apply in_map. }
    apply in_map_iff in Hkey as (cell & Hkey & Hcell).
    assert (Hcell' : In cell cells).
    { apply list_elem_of_In. eapply elem_of_sublist; [|exact Hsub].
      now apply list_elem_of_In. }
    rewrite Hrange in Hcell'.
    destruct (get_range_cells_in_table _ _ _ _ _ _ _ Hdf Hcell')
      as [Hrow Hcol].
    unfold task_key, result_key in Hkey. injection Hkey as Hr1 Hr2.
    now rewrite <- Hr1, <- Hr2. }
  pose proof (write_back_counts d dm frame results auto_save Hdf Htable Hwr)
    as Hcounts. cbv zeta in Hcounts.
  split; [|split].
  - rewrite processing_completed_counts, Hcounts. reflexivity.
  - intros Hall Hopen.
    rewrite processing_completed_counts, Hopen, Hcounts.
    destruct (filter_all (accepted frame)
                (MainWindow.successful_results results)) as [-> ->];
      [|reflexivity].
    intros r0 Hr0. apply filter_In in Hr0 as [Hin Hsucc].
    unfold accepted.
    destruct (CellResult.result r0) eqn:Hres;
      [apply Hall | now destruct (Hwr r0 Hin Hsucc)].
  - intros Hnone. rewrite (Hlost Hnone), app_nil_r in Hok. now rewrite Hok.
Qed.

(** * Instances of the further properties *)

Lemma update_range_without_success_changes_nothing_witness :
  let updates :=
    [Examples.failed_cell 1 "Name"; Examples.set_cell 9 "Name" "late"] in
  let out :=
    DataManager.update_range Examples.read_only_disk Scenarios.edited_people
                             updates true in
  out.1.1 = 0%nat /\ out.2 = Scenarios.edited_people.
Proof.
  intros updates out. split; [reflexivity|].
  apply (update_range_without_success_changes_nothing
           Examples.read_only_disk Scenarios.edited_people updates true).
  reflexivity.
Defined.

Lemma update_range_leaves_other_cells_witness :
  DataManager.get_cell_value
    (DataManager.update_range Examples.read_only_disk Examples.people
       [Examples.set_cell 0 "Name" "a"] false).2 1 "Name"
  = PStr "Jane".
Proof.
  rewrite (update_range_leaves_other_cells
             Examples.read_only_disk Examples.people
             [Examples.set_cell 0 "Name" "a"] false 1 "Name");
    [reflexivity|].
  intros u [<-|[]] [Hrow _]. discriminate.
Defined.

Lemma update_range_last_write_wins_witness :
  DataManager.get_cell_value
    (DataManager.update_range Examples.read_only_disk Examples.people
       ([Examples.set_cell 0 "Name" "a"]
          ++ Examples.set_cell 0 "Name" "b" :: [Examples.set_cell 1 "Name" "c"])
       false).2 0 "Name"
  = PStr "b".
Proof.
  apply (update_range_last_write_wins
           Examples.read_only_disk Examples.people Examples.people_frame
           [Examples.set_cell 0 "Name" "a"] [Examples.set_cell 1 "Name" "c"]
           (Examples.set_cell 0 "Name" "b") false 0 "Name" (PStr "b"));
    try reflexivity.
  - split; reflexivity.
  - intros u [<-|[]] [Hrow _]. discriminate.
Defined.

Lemma get_range_covers_selection_witness :
  let cells :=
    DataManager.get_range Examples.people (-3) 7 ["Name"; "Unknown"]
                          (Some ["Age"]) in
  length cells = 2%nat
  /\ exists cell,
       In cell cells /\ Cell.row cell = 1 /\ Cell.col cell = "Name"
       /\ Cell.content cell = PStr "Jane".
Proof.
  intros cells.
  destruct (get_range_covers_selection
              Examples.people Examples.people_frame (-3) 7 ["Name"; "Unknown"]
              (Some ["Age"]) eq_refl) as [Hlen Hcover].
  split; [exact Hlen|].
  apply (Hcover 1 "Name"); [unfold DataManager.len; simpl; lia | now left | now left].
Defined.

Lemma write_back_applies_accepted_results_witness :
  let out :=
    MainWindow._processing_completed
      Examples.read_only_disk Scenarios.readable Scenarios.open_window
      Examples.typed_people Scenarios.typed_results 2 false in
  MainWindow.cells_to_process Examples.typed_people 0 2 ["Name"; "Age"] None
  = Some (DataManager.get_range Examples.typed_people 0 2 ["Name"; "Age"] None)
  /\ out.1 = Some (1%nat, 1%nat).
Proof.
  intros out. split; [reflexivity|].
  destruct (write_back_applies_accepted_results
              Examples.read_only_disk Scenarios.readable Scenarios.open_window
              Examples.typed_people Examples.typed_people_frame
              0 2 ["Name"; "Age"] None
              (DataManager.get_range Examples.typed_people 0 2 ["Name"; "Age"]
                                     None)
              Scenarios.typed_results 2 false eq_refl eq_refl)
    as [_ Hopen].
  - intros r [<-|[<-|[<-|[]]]]; simpl; auto.
  - intros r [<-|[<-|[<-|[]]]]; unfold writable; simpl; discriminate.
  - exact (proj1 (Hopen eq_refl)).
Defined.

Lemma save_file_skips_unknown_extension_witness :
  DataManager.save_file Scenarios.macro_disk Scenarios.edited_people
                        (Some "book.xlsm")
  = ((true, ""),
     {| DataManager.df := Some Examples.people_frame;
        DataManager.file_path := Some "book.xlsm";
        DataManager.file_type := Some "excel";
        DataManager.modified := false |}).
Proof.
  apply (save_file_skips_unknown_extension
           Scenarios.macro_disk Scenarios.edited_people Examples.people_frame
           "book.xlsm");
    try reflexivity; discriminate.
Defined.

Lemma failed_load_keeps_manager_unless_table_was_read_witness :
  let out :=
    DataLoading.load_file Scenarios.macro_disk Scenarios.numbered_labels
                          Scenarios.edited_people "book.xlsm" in
  out.1 = (false,
           "Failed to load file: Can only use .str accessor with string values")
  /\ (out.2 = Scenarios.edited_people
      \/ (DataManager.file_path out.2 = Some "people.csv"
          /\ DataManager.modified out.2 = true
          /\ exists frame,
               DataManager.df out.2 = Some frame
               /\ (read_excel Scenarios.numbered_labels "book.xlsm" = inr frame
                   \/ exists encoding,
                        read_csv Scenarios.numbered_labels "book.xlsm" encoding
                        = inr frame)
               /\ (out.1.2 = "File contains no data"
                   /\ DataManager.len frame = 0
                   \/ exists msg,
                        DataManager.label_fault frame = Some msg
                        /\ out.1.2 = "Failed to load file: " +:+ msg))).
Proof.
  intros out. split; [reflexivity|].
  apply (failed_load_keeps_manager_unless_table_was_read
           Scenarios.macro_disk Scenarios.numbered_labels
           Scenarios.edited_people "book.xlsm").
  reflexivity.
Defined.

Lemma successful_load_effects_witness :
  let out :=
    DataLoading.load_file Examples.read_only_disk Scenarios.readable
                          Scenarios.edited_people "other.csv" in
  out.1 = (true, "")
  /\ DataManager.file_path out.2 = Some "other.csv"
  /\ DataManager.modified out.2 = false
  /\ DataManager.file_type out.2 = Some "excel".
Proof.
  intros out.
  destruct (successful_load_effects
              Examples.read_only_disk Scenarios.readable
              Scenarios.edited_people "other.csv" eq_refl)
    as (_ & Hpath & Hflag & Htype & _).
  split; [reflexivity|]. split; [exact Hpath|]. split; [exact Hflag|].
  exact Htype.
Defined.

Lemma csv_encoding_fallback_witness :
  DataLoading.load_file Examples.read_only_disk Scenarios.latin1_only
                        Examples.unloaded "legacy.csv"
  = ((true, ""),
     {| DataManager.df := Some (DataLoading.strip_columns Examples.people_frame);
        DataManager.file_path := Some "legacy.csv";
        DataManager.file_type := None;
        DataManager.modified := false |}).
Proof.
  destruct (csv_encoding_fallback
              Examples.read_only_disk Scenarios.latin1_only Examples.unloaded
              "legacy.csv" "invalid start byte" eq_refl eq_refl eq_refl)
    as [Hfirst _].
  rewrite (Hfirst ["utf-8"] "latin1" ["iso-8859-1"; "cp1252"]
                  Examples.people_frame);
    try reflexivity.
  intros e [<-|[]]. eexists. reflexivity.
Defined.

Lemma loaded_xlsm_is_reported_saved_unwritten_witness :
  let loaded :=
    (DataLoading.load_file Scenarios.macro_disk Scenarios.readable
                           Examples.unloaded "book.xlsm").2 in
  DataManager.file_path loaded = Some "book.xlsm"
  /\ DataManager.save_file Scenarios.macro_disk loaded None
     = ((true, ""),
        {| DataManager.df := DataManager.df loaded;
           DataManager.file_path := Some "book.xlsm";
           DataManager.file_type := Some "excel";
           DataManager.modified := false |}).
Proof.
  intros loaded. split; [reflexivity|].
  apply (loaded_xlsm_is_reported_saved_unwritten
           Scenarios.macro_disk Scenarios.readable Examples.unloaded
           "book.xlsm");
    reflexivity.
Defined.

Lemma request_count_stays_within_ceiling_witness :
  let calls :=
    [(Examples.answering 1, Examples.request_with_context);
     (Examples.answering 2, Examples.request_with_context);
     (Examples.answering 3, Examples.request_with_context)] in
  let self' :=
    (APIManager.process_cells Examples.str_simple Examples.hosted_client
                              calls).2 in
  (1 <= 2 /\ 0 <= 0 <= 2)
  /\ within_ceiling (active_limits self')
  /\ max_requests_per_minute (active_limits self') = 2.
Proof.
  intros calls self'. split; [lia|].
  apply (request_count_stays_within_ceiling
           Examples.str_simple calls Examples.hosted_client).
  - simpl. lia.
  - unfold within_ceiling. simpl. lia.
Defined.

Lemma hosted_client_initialises_lazily_witness :
  APIManager.process_single_cell Examples.str_simple (Examples.answering 1)
    Scenarios.cold_client Examples.request_with_context
  = APIManager.process_single_cell Examples.str_simple (Examples.answering 1)
      Examples.hosted_client Examples.request_with_context.
Proof.
  exact (hosted_client_initialises_lazily
           Examples.str_simple (Examples.answering 1) Scenarios.cold_client
           Examples.request_with_context eq_refl eq_refl).
Defined.

Lemma model_set_before_switch_is_not_sent_witness :
  exists early,
    APISetup.set_api_type (APISetup.set_model Examples.hosted_client "gpt-4")
                          "ollama"
    = Ok early
    /\ APIManager.model early = "gpt-4"
    /\ forall call,
         In call (APIManager.process_single_cell
                    Examples.str_simple (Examples.answering 1) early
                    Examples.request_with_context).1.2 ->
         model_of call = "llama3".
Proof.
  exact (proj1 (model_set_before_switch_is_not_sent
                  Examples.str_simple (Examples.answering 1)
                  Examples.hosted_client "gpt-4"
                  Examples.request_with_context eq_refl)).
Defined.

Lemma ollama_model_listing_witness :
  APISetup.get_available_models Scenarios.two_models Scenarios.local_client
  = [{| entry_id := "llama3"; entry_name := "llama3";
        entry_api := "ollama" |};
     {| entry_id := "mistral"; entry_name := "mistral";
        entry_api := "ollama" |}].
Proof.
  exact (proj1 (proj2 (ollama_model_listing
                         Scenarios.two_models Scenarios.local_client eq_refl))
               ["llama3"; "mistral"] eq_refl).
Defined.

Lemma uncancelled_run_is_the_plain_loop_witness :
  exists s',
    Examples.run Examples.never Examples.never
      [Examples.task 0; Examples.task 1; Examples.task 2] 2
    = (Returns tt, s')
    /\ BatchProcessor.completions (BatchProcessor.ui_queue s')
       = [([Examples.done 0; Examples.done 1; Examples.done 2], 3%nat, 0%nat)]
    /\ BatchProcessor.api_manager s' = 3%nat
    /\ BatchProcessor.processed s' = 3%nat.
Proof.
  exact (uncancelled_run_is_the_plain_loop
           Examples.str_simple nat Examples.always_ok
           Examples.never Examples.never
           [Examples.task 0; Examples.task 1; Examples.task 2]
           "system" "user" 2 (3 # 10)%Q 150 true 0%nat 0%nat []
           eq_refl (fun _ => eq_refl) (fun _ => eq_refl)).
Defined.

Lemma delivered_results_are_written_back_witness :
  (MainWindow.cells_to_process Examples.people 0 2 ["Name"] None
   = Some (DataManager.get_range Examples.people 0 2 ["Name"] None)
   /\ DataManager.df Examples.people = Some Examples.people_frame)
  /\ exists s' results ok failed,
       BatchProcessor._process_batches_async
         Examples.str_simple (APIManager.t * nat)
         (api_client Examples.str_simple (fun _ => Examples.answering 1))
         Examples.never Examples.never
         (DataManager.get_range Examples.people 0 2 ["Name"] None)
         "system" "user" 2 (3 # 10)%Q 150 true true
         (Examples.hosted_client, 0%nat) 0%nat []
       = (Returns tt, s')
       /\ BatchProcessor.completions (BatchProcessor.ui_queue s')
          = BatchProcessor.completions [] ++ [(results, ok, failed)]
       /\ (MainWindow._processing_completed
             Examples.read_only_disk Scenarios.readable Scenarios.open_window
             Examples.people results ok false).1
          = (if MainWindow.progress_window_exists Scenarios.open_window
             then Some (length (List.filter (accepted Examples.people_frame)
                                  (MainWindow.successful_results results)),
                        length (List.filter
                                  (fun r => negb (accepted Examples.people_frame r))
                                  (MainWindow.successful_results results)))
             else None)
       /\ ((forall row col value,
              DataManager.accepts Examples.people_frame row col (PStr value)
              = true) ->
           MainWindow.progress_window_exists Scenarios.open_window = true ->
           (MainWindow._processing_completed
              Examples.read_only_disk Scenarios.readable Scenarios.open_window
              Examples.people results ok false).1
           = Some (succeeded_count results, 0%nat))
       /\ ((forall n, Examples.never n = false) ->
           succeeded_count results = ok).
Proof.
  split; [split; reflexivity|].
  exact (delivered_results_are_written_back
           Examples.str_simple (fun _ => Examples.answering 1)
           Examples.never Examples.never
           Examples.read_only_disk Scenarios.readable Scenarios.open_window
           Examples.people Examples.people_frame 0 2 ["Name"] None
           (DataManager.get_range Examples.people 0 2 ["Name"] None)
           "system" "user" 2 (3 # 10)%Q 150 true Examples.hosted_client
           0%nat [] false eq_refl eq_refl).
Defined.
